(** * Mortgage overpayment calculator: the simulation engine of [app.py]

    A shallow embedding of [run_simulation] (src/app.py, lines 256-444) and
    the properties of its month-by-month loop.

    Numbers.  The amounts and rates of the program are Python floats (or
    ints mixed with floats); they are read here as exact rationals [Q], so
    rounding, infinities and NaN are outside the model.  Month counters,
    the term and the horizon in years, and the lengths of the fixed periods
    are Python ints and are read as [Z].  Equality of amounts is [Qeq]
    unless a statement says otherwise.

    Exactness shows in two places.  A difference such as [s - (s - b)] is
    exactly [b] here, where the program can be one unit in the last place
    off; and a balance amortised over its term reaches exactly 0 here,
    where the program is left with a remainder of rounding.  The statements
    on overpayments therefore bound an amount by the quantities the rules
    themselves compute and compare (the spare cash
    [cash_savings - emergency_buffer], the allowance, the balance), and the
    identities on amounts, which the program satisfies up to rounding, are
    stated away from the comparisons of the loop. *)

From Stdlib Require Import QArith ZArith List Bool Lia Lqa.
From Stdlib Require Import Qpower.
From Stdlib Require Import Sorted.
Import ListNotations.

Open Scope Q_scope.

(** ** Python's comparisons, [max] and [min] on amounts *)

(** [x < y] as a boolean. *)
Definition Qltb (x y : Q) : bool := negb (Qle_bool y x).

(** [max(a, b)]: the first argument unless the second is strictly greater. *)
Definition py_max (a b : Q) : Q := if Qltb a b then b else a.

(** [min(a, b)]: the first argument unless the second is strictly smaller. *)
Definition py_min (a b : Q) : Q := if Qltb b a then b else a.

(** [min(a, b, c)]: a left-to-right scan keeping the first smallest. *)
Definition py_min3 (a b c : Q) : Q := py_min (py_min a b) c.

(** ** [numpy_financial.pmt]

    [npf.pmt(rate, nper, pv)] with the defaults [fv = 0] and [when = 'end']
    (so [when] is the number 0), as the library defines it:
<<
    temp = (1 + rate)**nper
    mask = (rate == 0)
    masked_rate = np.where(mask, 1, rate)
    fact = np.where(mask != 0, nper, (1 + masked_rate*when)*(temp - 1)/masked_rate)
    return -(fv + pv*temp)/fact
>>
    Where [fact] is 0 numpy returns an infinity or NaN; [Q]'s division
    returns 0 there, and no statement below relies on that value. *)
Definition pmt (rate : Q) (nper : Z) (pv : Q) : Q :=
  let temp := (1 + rate) ^ nper in
  let fact :=
    if Qeq_bool rate 0 then inject_Z nper
    else (1 + rate * 0) * (temp - 1) / rate in
  - (0 + pv * temp) / fact.

(** ** The configuration: the [data] dictionary *)

Module Data.
Record t : Type := mk {
  initial_mortgage : Q;
  mortgage_term_years : Z;
  fixed_periods : list (Z * Q);
  mortgage_rate_after_fixed : Q;
  monthly_income : Q;
  monthly_expenses : Q;
  income_growth_rate : Q;
  expense_growth_rate : Q;
  initial_savings : Q;
  savings_rate : Q;
  savings_tax_rate : Q;
  emergency_buffer : Q;
  min_overpayment_threshold : Q;
  total_years_to_simulate : Z
}.
End Data.

(** ** Overpayment events: the dictionaries appended to [overpayment_events] *)

Module Event.
(** The ['type'] string of an event, one constructor per format string. *)
Inductive kind : Type :=
| End_of_fixed_period (n : Z)    (* f'End of fixed period {idx + 1}' *)
| Variable_rate_period           (* 'Variable rate period' *)
| Annual_overpayment (year : Z). (* f'Annual overpayment (Year {current_year + 1})' *)

Record t : Type := mk {
  month : Z;
  amount : Q;
  type : kind
}.

Definition is_annual (e : t) : bool :=
  match type e with Annual_overpayment _ => true | _ => false end.

Definition is_end_of_fixed (e : t) : bool :=
  match type e with End_of_fixed_period _ => true | _ => false end.

Definition is_variable (e : t) : bool :=
  match type e with Variable_rate_period => true | _ => false end.
End Event.

(** ** The tracking lists, appended to in lockstep at the end of a month *)

Record tracks : Type := mkTracks {
  mortgage_balances : list Q;
  savings_balances : list Q;
  total_overpayments_cumulative : list Q;
  years : list Q;
  monthly_incomes : list Q;
  monthly_expenses_list : list Q;
  overpayments : list Q;
  available_cashes : list Q;
  mortgage_payments : list Q
}.

Definition no_tracks : tracks := mkTracks [] [] [] [] [] [] [] [] [].

(** ** The local variables of [run_simulation]

    Python keeps every local of the function in one flat scope that
    survives from one iteration to the next; [state] is that scope.  The
    six locals from [lump_sum] to [current_overpayment] are assigned in
    every iteration before they are read. *)

Record state : Type := mkState {
  mortgage_balance : Q;
  standard_monthly_payment : Q;
  cash_savings : Q;
  monthly_income : Q;
  monthly_expenses : Q;
  total_interest_paid : Q;
  months_to_mortgage_free : option Z;
  yearly_overpayment_limit : Q;
  mortgage_paid_off : bool;
  overpayment_made_this_year : bool;
  current_year : Z;
  cumulative_overpayments : Q;
  overpayment_events : list Event.t;
  lump_sum : Q;
  available_cash : Q;
  end_of_fixed_period : bool;
  interest_payment : Q;
  capital_repayment : Q;
  current_overpayment : Q;
  tracking : tracks
}.

Definition set_mortgage_balance (v : Q) (st : state) : state :=
  mkState v (standard_monthly_payment st) (cash_savings st)
    (monthly_income st) (monthly_expenses st) (total_interest_paid st)
    (months_to_mortgage_free st) (yearly_overpayment_limit st)
    (mortgage_paid_off st) (overpayment_made_this_year st) (current_year st)
    (cumulative_overpayments st) (overpayment_events st) (lump_sum st)
    (available_cash st) (end_of_fixed_period st) (interest_payment st)
    (capital_repayment st) (current_overpayment st) (tracking st).

Definition set_standard_monthly_payment (v : Q) (st : state) : state :=
  mkState (mortgage_balance st) v (cash_savings st) (monthly_income st)
    (monthly_expenses st) (total_interest_paid st)
    (months_to_mortgage_free st) (yearly_overpayment_limit st)
    (mortgage_paid_off st) (overpayment_made_this_year st) (current_year st)
    (cumulative_overpayments st) (overpayment_events st) (lump_sum st)
    (available_cash st) (end_of_fixed_period st) (interest_payment st)
    (capital_repayment st) (current_overpayment st) (tracking st).

Definition set_cash_savings (v : Q) (st : state) : state :=
  mkState (mortgage_balance st) (standard_monthly_payment st) v
    (monthly_income st) (monthly_expenses st) (total_interest_paid st)
    (months_to_mortgage_free st) (yearly_overpayment_limit st)
    (mortgage_paid_off st) (overpayment_made_this_year st) (current_year st)
    (cumulative_overpayments st) (overpayment_events st) (lump_sum st)
    (available_cash st) (end_of_fixed_period st) (interest_payment st)
    (capital_repayment st) (current_overpayment st) (tracking st).

Definition set_monthly_income (v : Q) (st : state) : state :=
  mkState (mortgage_balance st) (standard_monthly_payment st)
    (cash_savings st) v (monthly_expenses st) (total_interest_paid st)
    (months_to_mortgage_free st) (yearly_overpayment_limit st)
    (mortgage_paid_off st) (overpayment_made_this_year st) (current_year st)
    (cumulative_overpayments st) (overpayment_events st) (lump_sum st)
    (available_cash st) (end_of_fixed_period st) (interest_payment st)
    (capital_repayment st) (current_overpayment st) (tracking st).

Definition set_monthly_expenses (v : Q) (st : state) : state :=
  mkState (mortgage_balance st) (standard_monthly_payment st)
    (cash_savings st) (monthly_income st) v (total_interest_paid st)
    (months_to_mortgage_free st) (yearly_overpayment_limit st)
    (mortgage_paid_off st) (overpayment_made_this_year st) (current_year st)
    (cumulative_overpayments st) (overpayment_events st) (lump_sum st)
    (available_cash st) (end_of_fixed_period st) (interest_payment st)
    (capital_repayment st) (current_overpayment st) (tracking st).

Definition set_total_interest_paid (v : Q) (st : state) : state :=
  mkState (mortgage_balance st) (standard_monthly_payment st)
    (cash_savings st) (monthly_income st) (monthly_expenses st) v
    (months_to_mortgage_free st) (yearly_overpayment_limit st)
    (mortgage_paid_off st) (overpayment_made_this_year st) (current_year st)
    (cumulative_overpayments st) (overpayment_events st) (lump_sum st)
    (available_cash st) (end_of_fixed_period st) (interest_payment st)
    (capital_repayment st) (current_overpayment st) (tracking st).

Definition set_months_to_mortgage_free (v : option Z) (st : state) : state :=
  mkState (mortgage_balance st) (standard_monthly_payment st)
    (cash_savings st) (monthly_income st) (monthly_expenses st)
    (total_interest_paid st) v (yearly_overpayment_limit st)
    (mortgage_paid_off st) (overpayment_made_this_year st) (current_year st)
    (cumulative_overpayments st) (overpayment_events st) (lump_sum st)
    (available_cash st) (end_of_fixed_period st) (interest_payment st)
    (capital_repayment st) (current_overpayment st) (tracking st).

Definition set_yearly_overpayment_limit (v : Q) (st : state) : state :=
  mkState (mortgage_balance st) (standard_monthly_payment st)
    (cash_savings st) (monthly_income st) (monthly_expenses st)
    (total_interest_paid st) (months_to_mortgage_free st) v
    (mortgage_paid_off st) (overpayment_made_this_year st) (current_year st)
    (cumulative_overpayments st) (overpayment_events st) (lump_sum st)
    (available_cash st) (end_of_fixed_period st) (interest_payment st)
    (capital_repayment st) (current_overpayment st) (tracking st).

Definition set_mortgage_paid_off (v : bool) (st : state) : state :=
  mkState (mortgage_balance st) (standard_monthly_payment st)
    (cash_savings st) (monthly_income st) (monthly_expenses st)
    (total_interest_paid st) (months_to_mortgage_free st)
    (yearly_overpayment_limit st) v (overpayment_made_this_year st)
    (current_year st) (cumulative_overpayments st) (overpayment_events st)
    (lump_sum st) (available_cash st) (end_of_fixed_period st)
    (interest_payment st) (capital_repayment st) (current_overpayment st)
    (tracking st).

Definition set_overpayment_made_this_year (v : bool) (st : state) : state :=
  mkState (mortgage_balance st) (standard_monthly_payment st)
    (cash_savings st) (monthly_income st) (monthly_expenses st)
    (total_interest_paid st) (months_to_mortgage_free st)
    (yearly_overpayment_limit st) (mortgage_paid_off st) v (current_year st)
    (cumulative_overpayments st) (overpayment_events st) (lump_sum st)
    (available_cash st) (end_of_fixed_period st) (interest_payment st)
    (capital_repayment st) (current_overpayment st) (tracking st).

Definition set_current_year (v : Z) (st : state) : state :=
  mkState (mortgage_balance st) (standard_monthly_payment st)
    (cash_savings st) (monthly_income st) (monthly_expenses st)
    (total_interest_paid st) (months_to_mortgage_free st)
    (yearly_overpayment_limit st) (mortgage_paid_off st)
    (overpayment_made_this_year st) v (cumulative_overpayments st)
    (overpayment_events st) (lump_sum st) (available_cash st)
    (end_of_fixed_period st) (interest_payment st) (capital_repayment st)
    (current_overpayment st) (tracking st).

Definition set_cumulative_overpayments (v : Q) (st : state) : state :=
  mkState (mortgage_balance st) (standard_monthly_payment st)
    (cash_savings st) (monthly_income st) (monthly_expenses st)
    (total_interest_paid st) (months_to_mortgage_free st)
    (yearly_overpayment_limit st) (mortgage_paid_off st)
    (overpayment_made_this_year st) (current_year st) v
    (overpayment_events st) (lump_sum st) (available_cash st)
    (end_of_fixed_period st) (interest_payment st) (capital_repayment st)
    (current_overpayment st) (tracking st).

Definition set_overpayment_events (v : list Event.t) (st : state) : state :=
  mkState (mortgage_balance st) (standard_monthly_payment st)
    (cash_savings st) (monthly_income st) (monthly_expenses st)
    (total_interest_paid st) (months_to_mortgage_free st)
    (yearly_overpayment_limit st) (mortgage_paid_off st)
    (overpayment_made_this_year st) (current_year st)
    (cumulative_overpayments st) v (lump_sum st) (available_cash st)
    (end_of_fixed_period st) (interest_payment st) (capital_repayment st)
    (current_overpayment st) (tracking st).

Definition set_lump_sum (v : Q) (st : state) : state :=
  mkState (mortgage_balance st) (standard_monthly_payment st)
    (cash_savings st) (monthly_income st) (monthly_expenses st)
    (total_interest_paid st) (months_to_mortgage_free st)
    (yearly_overpayment_limit st) (mortgage_paid_off st)
    (overpayment_made_this_year st) (current_year st)
    (cumulative_overpayments st) (overpayment_events st) v (available_cash st)
    (end_of_fixed_period st) (interest_payment st) (capital_repayment st)
    (current_overpayment st) (tracking st).

Definition set_available_cash (v : Q) (st : state) : state :=
  mkState (mortgage_balance st) (standard_monthly_payment st)
    (cash_savings st) (monthly_income st) (monthly_expenses st)
    (total_interest_paid st) (months_to_mortgage_free st)
    (yearly_overpayment_limit st) (mortgage_paid_off st)
    (overpayment_made_this_year st) (current_year st)
    (cumulative_overpayments st) (overpayment_events st) (lump_sum st) v
    (end_of_fixed_period st) (interest_payment st) (capital_repayment st)
    (current_overpayment st) (tracking st).

Definition set_end_of_fixed_period (v : bool) (st : state) : state :=
  mkState (mortgage_balance st) (standard_monthly_payment st)
    (cash_savings st) (monthly_income st) (monthly_expenses st)
    (total_interest_paid st) (months_to_mortgage_free st)
    (yearly_overpayment_limit st) (mortgage_paid_off st)
    (overpayment_made_this_year st) (current_year st)
    (cumulative_overpayments st) (overpayment_events st) (lump_sum st)
    (available_cash st) v (interest_payment st) (capital_repayment st)
    (current_overpayment st) (tracking st).

Definition set_interest_payment (v : Q) (st : state) : state :=
  mkState (mortgage_balance st) (standard_monthly_payment st)
    (cash_savings st) (monthly_income st) (monthly_expenses st)
    (total_interest_paid st) (months_to_mortgage_free st)
    (yearly_overpayment_limit st) (mortgage_paid_off st)
    (overpayment_made_this_year st) (current_year st)
    (cumulative_overpayments st) (overpayment_events st) (lump_sum st)
    (available_cash st) (end_of_fixed_period st) v (capital_repayment st)
    (current_overpayment st) (tracking st).

Definition set_capital_repayment (v : Q) (st : state) : state :=
  mkState (mortgage_balance st) (standard_monthly_payment st)
    (cash_savings st) (monthly_income st) (monthly_expenses st)
    (total_interest_paid st) (months_to_mortgage_free st)
    (yearly_overpayment_limit st) (mortgage_paid_off st)
    (overpayment_made_this_year st) (current_year st)
    (cumulative_overpayments st) (overpayment_events st) (lump_sum st)
    (available_cash st) (end_of_fixed_period st) (interest_payment st) v
    (current_overpayment st) (tracking st).

Definition set_current_overpayment (v : Q) (st : state) : state :=
  mkState (mortgage_balance st) (standard_monthly_payment st)
    (cash_savings st) (monthly_income st) (monthly_expenses st)
    (total_interest_paid st) (months_to_mortgage_free st)
    (yearly_overpayment_limit st) (mortgage_paid_off st)
    (overpayment_made_this_year st) (current_year st)
    (cumulative_overpayments st) (overpayment_events st) (lump_sum st)
    (available_cash st) (end_of_fixed_period st) (interest_payment st)
    (capital_repayment st) v (tracking st).

Definition set_tracking (v : tracks) (st : state) : state :=
  mkState (mortgage_balance st) (standard_monthly_payment st)
    (cash_savings st) (monthly_income st) (monthly_expenses st)
    (total_interest_paid st) (months_to_mortgage_free st)
    (yearly_overpayment_limit st) (mortgage_paid_off st)
    (overpayment_made_this_year st) (current_year st)
    (cumulative_overpayments st) (overpayment_events st) (lump_sum st)
    (available_cash st) (end_of_fixed_period st) (interest_payment st)
    (capital_repayment st) (current_overpayment st) v.
(** [overpayment_events.append({...})] *)
Definition log_event (month : Z) (amount : Q) (k : Event.kind) (st : state) : state :=
  set_overpayment_events (overpayment_events st ++ [Event.mk month amount k]) st.

(** ** Setup: the fixed-period schedule (lines 266-271) *)

(** One entry of [fixed_period_schedule]: (start, end, rate). *)
Definition period : Type := (Z * Z * Q)%type.

Fixpoint schedule_from (start_month : Z) (periods : list (Z * Q)) : list period :=
  match periods with
  | [] => []
  | (period_length, rate) :: rest =>
      (start_month, (start_month + period_length)%Z, rate)
        :: schedule_from (start_month + period_length)%Z rest
  end.

Definition fixed_period_schedule (d : Data.t) : list period :=
  schedule_from 0%Z (Data.fixed_periods d).

(** [next((r for s, e, r in fixed_period_schedule if s <= month < e),
          data['mortgage_rate_after_fixed'])] *)
Fixpoint rate_at (schedule : list period) (default : Q) (month : Z) : Q :=
  match schedule with
  | [] => default
  | (s, e, r) :: rest =>
      if ((s <=? month)%Z && (month <? e)%Z)%bool then r
      else rate_at rest default month
  end.

Definition applicable_rate (d : Data.t) (month : Z) : Q :=
  rate_at (fixed_period_schedule d) (Data.mortgage_rate_after_fixed d) month.

(** [n_payments_total] *)
Definition n_payments_total (d : Data.t) : Z := (Data.mortgage_term_years d * 12)%Z.

(** [current_rate] of lines 275-278; the same rule gives [full_term_rate]
    of lines 419-422. *)
Definition current_rate (d : Data.t) : Q :=
  match fixed_period_schedule d with
  | (_, _, r) :: _ => r
  | [] => Data.mortgage_rate_after_fixed d
  end.

Definition full_term_rate (d : Data.t) : Q :=
  match Data.fixed_periods d with
  | (_, r) :: _ => r
  | [] => Data.mortgage_rate_after_fixed d
  end.

(** The locals at the entry of the loop (lines 259-301). *)
Definition initial_state (d : Data.t) : state :=
  mkState
    (Data.initial_mortgage d)
    (pmt (current_rate d / 12) (n_payments_total d) (- Data.initial_mortgage d))
    (Data.initial_savings d)
    (Data.monthly_income d)
    (Data.monthly_expenses d)
    0 None
    (0.10 * Data.initial_mortgage d)
    false false 0%Z 0 [] 0 0 false 0 0 0 no_tracks.

(** ** The body of the loop, block by block *)

(** Lines 309-314: the mortgage is found cleared at the top of a month. *)
Definition mark_paid_off (month : Z) (st : state) : state :=
  set_mortgage_paid_off true
    (set_standard_monthly_payment 0
       (set_mortgage_balance 0
          (set_months_to_mortgage_free (Some month) st))).

(** Lines 316-328: yearly reset, growth, available cash. *)
Definition start_of_month (d : Data.t) (month : Z) (st : state) : state :=
  let st :=
    if (month mod 12 =? 0)%Z then
      set_current_year (month / 12)%Z
        (set_overpayment_made_this_year false
           (set_yearly_overpayment_limit (0.10 * mortgage_balance st) st))
    else st in
  let st :=
    if ((0 <? month)%Z && (month mod 12 =? 0)%Z)%bool then
      set_monthly_expenses (monthly_expenses st * (1 + Data.expense_growth_rate d))
        (set_monthly_income (monthly_income st * (1 + Data.income_growth_rate d)) st)
    else st in
  set_available_cash (monthly_income st - monthly_expenses st) st.

(** Lines 334-354: what happens in the month that ends fixed period [idx].
    (A sweep of the whole spare cash leaves [s - (s - b)], which is the
    buffer [b] here and the buffer up to rounding in the program.) *)
Definition sweep_at_period_end (d : Data.t) (month idx : Z) (st : state) : state :=
  let st := set_end_of_fixed_period true st in
  let st := set_lump_sum (py_max 0 (cash_savings st - Data.emergency_buffer d)) st in
  let st :=
    if Qltb 0 (lump_sum st) then
      let payment_to_mortgage := py_min (lump_sum st) (mortgage_balance st) in
      let st := set_mortgage_balance (mortgage_balance st - payment_to_mortgage) st in
      let st := set_cash_savings (cash_savings st - payment_to_mortgage) st in
      let st := set_lump_sum payment_to_mortgage st in
      let st := set_cumulative_overpayments
                  (cumulative_overpayments st + payment_to_mortgage) st in
      let st := log_event month payment_to_mortgage
                  (Event.End_of_fixed_period (idx + 1)) st in
      set_overpayment_made_this_year false st
    else st in
  if Qltb 0 (mortgage_balance st) then
    let remaining_term := (Data.mortgage_term_years d * 12 - month)%Z in
    let next_rate := applicable_rate d month in
    set_standard_monthly_payment
      (pmt (next_rate / 12) remaining_term (- mortgage_balance st)) st
  else st.

(** Lines 332-355: the [for idx, (start_m, end_m, rate) in enumerate(...)]
    scan, left by [break] at the first period that ends this month. *)
Fixpoint scan_periods (d : Data.t) (month idx : Z) (schedule : list period)
    (st : state) : state :=
  match schedule with
  | [] => st
  | (start_m, end_m, rate) :: rest =>
      if (month =? end_m)%Z then sweep_at_period_end d month idx st
      else scan_periods d month (idx + 1) rest st
  end.

(** Lines 330-355. *)
Definition end_of_fixed_period_overpayment (d : Data.t) (month : Z) (st : state) : state :=
  scan_periods d month 0 (fixed_period_schedule d) (set_end_of_fixed_period false st).

(** [fixed_period_schedule[-1][1]] *)
Definition last_fixed_period_end (schedule : list period) : Z :=
  snd (fst (last schedule (0%Z, 0%Z, 0))).

(** Lines 357-372.  (The same remark as for the sweep applies.) *)
Definition variable_rate_overpayment (d : Data.t) (month : Z) (st : state) : state :=
  match end_of_fixed_period st, fixed_period_schedule d with
  | false, _ :: _ =>
      if (last_fixed_period_end (fixed_period_schedule d) <? month)%Z then
        let potential_lump_sum := py_max 0 (cash_savings st - Data.emergency_buffer d) in
        if Qle_bool (Data.min_overpayment_threshold d) potential_lump_sum then
          let payment_to_mortgage := py_min potential_lump_sum (mortgage_balance st) in
          let st := set_mortgage_balance (mortgage_balance st - payment_to_mortgage) st in
          let st := set_cash_savings (cash_savings st - payment_to_mortgage) st in
          let st := set_lump_sum payment_to_mortgage st in
          let st := set_cumulative_overpayments
                      (cumulative_overpayments st + payment_to_mortgage) st in
          log_event month payment_to_mortgage Event.Variable_rate_period st
        else st
      else st
  | _, _ => st
  end.

(** Lines 374-382.  (The subtractions are exact here and rounded in the
    program: a balance that the schedule brings to 0 is 0 here and a
    remainder of rounding there.) *)
Definition regular_payment (d : Data.t) (month : Z) (st : state) : state :=
  let st := set_interest_payment
              (mortgage_balance st * (applicable_rate d month / 12)) st in
  let st := set_capital_repayment
              (standard_monthly_payment st - interest_payment st) st in
  let st := set_mortgage_balance (mortgage_balance st - capital_repayment st) st in
  let st := set_total_interest_paid (total_interest_paid st + interest_payment st) st in
  set_available_cash (available_cash st - standard_monthly_payment st) st.

(** Lines 384-400.  (When the spare cash is what is paid, the savings left
    are [s - (s - b)]: the buffer here, the buffer up to rounding in the
    program.) *)
Definition annual_overpayment (d : Data.t) (month : Z) (st : state) : state :=
  let st := set_current_overpayment 0 st in
  if (negb (overpayment_made_this_year st)
      && Qltb (Data.emergency_buffer d) (cash_savings st))%bool then
    let spare_cash := cash_savings st - Data.emergency_buffer d in
    if Qle_bool (Data.min_overpayment_threshold d) spare_cash then
      let potential_overpayment :=
        py_min3 spare_cash (yearly_overpayment_limit st) (mortgage_balance st) in
      if Qltb 0 potential_overpayment then
        let st := set_mortgage_balance (mortgage_balance st - potential_overpayment) st in
        let st := set_cash_savings (cash_savings st - potential_overpayment) st in
        let st := set_current_overpayment potential_overpayment st in
        let st := set_cumulative_overpayments
                    (cumulative_overpayments st + potential_overpayment) st in
        let st := set_overpayment_made_this_year true st in
        log_event month potential_overpayment
          (Event.Annual_overpayment (current_year st + 1)) st
      else st
    else st
  else st.

(** [monthly_savings_rate] *)
Definition monthly_savings_rate (d : Data.t) : Q := Data.savings_rate d / 12.

(** Lines 402-405. *)
Definition handle_savings (d : Data.t) (st : state) : state :=
  if Qltb 0 (available_cash st) then
    let interest_earned :=
      cash_savings st * monthly_savings_rate d * (1 - Data.savings_tax_rate d) in
    set_cash_savings (cash_savings st + (interest_earned + available_cash st)) st
  else st.

(** Lines 407-416. *)
Definition track_progress (month : Z) (st : state) : state :=
  let t := tracking st in
  set_tracking
    (mkTracks
       (mortgage_balances t ++ [mortgage_balance st])
       (savings_balances t ++ [cash_savings st])
       (total_overpayments_cumulative t ++ [cumulative_overpayments st])
       (years t ++ [inject_Z month / 12])
       (monthly_incomes t ++ [monthly_income st])
       (monthly_expenses_list t ++ [monthly_expenses st])
       (overpayments t ++ [current_overpayment st + lump_sum st])
       (available_cashes t ++ [available_cash st])
       (mortgage_payments t ++ [capital_repayment st + interest_payment st]))
    st.

(** The states of a month between its blocks, from the state at the top of
    the iteration (after [lump_sum = 0] and the pay-off test). *)
Definition after_start (d : Data.t) (month : Z) (st : state) : state :=
  start_of_month d month (set_lump_sum 0 st).

Definition after_rule1 (d : Data.t) (month : Z) (st : state) : state :=
  end_of_fixed_period_overpayment d month (after_start d month st).

Definition after_rule2 (d : Data.t) (month : Z) (st : state) : state :=
  variable_rate_overpayment d month (after_rule1 d month st).

Definition after_payment (d : Data.t) (month : Z) (st : state) : state :=
  regular_payment d month (after_rule2 d month st).

Definition after_rule3 (d : Data.t) (month : Z) (st : state) : state :=
  annual_overpayment d month (after_payment d month st).

Definition after_savings (d : Data.t) (month : Z) (st : state) : state :=
  handle_savings d (after_rule3 d month st).

(** One full iteration that does not leave the loop. *)
Definition month_body (d : Data.t) (month : Z) (st : state) : state :=
  track_progress month (after_savings d month st).

(** ** The loop [for month in range(months)] (lines 303-416)

    [remaining] counts the iterations [range] has left. *)
Fixpoint for_months (d : Data.t) (remaining : nat) (month : Z) (st : state) : state :=
  match remaining with
  | O => st
  | S k =>
      if mortgage_paid_off st then st
      else if Qle_bool (mortgage_balance st) 0
           then mark_paid_off month (set_lump_sum 0 st)
           else for_months d k (month + 1)%Z (month_body d month st)
  end.

(** [months] *)
Definition months (d : Data.t) : Z := (Data.total_years_to_simulate d * 12)%Z.

Definition final_state (d : Data.t) : state :=
  for_months d (Z.to_nat (months d)) 0%Z (initial_state d).

(** ** The returned dictionary (lines 418-444) *)

Module Result.
Record t : Type := mk {
  months_to_mortgage_free : option Z;
  total_interest_paid : Q;
  interest_saved : Q;
  final_savings : Q;
  total_overpayments : Q;
  mortgage_balances : list Q;
  savings_balances : list Q;
  total_overpayments_cumulative : list Q;
  years : list Q;
  monthly_incomes : list Q;
  monthly_expenses : list Q;
  overpayments : list Q;
  available_cashes : list Q;
  mortgage_payments : list Q;
  overpayment_events : list Event.t
}.
End Result.

Definition result_of (d : Data.t) (st : state) : Result.t :=
  let full_term_payment :=
    pmt (full_term_rate d / 12) (Data.mortgage_term_years d * 12)%Z
        (- Data.initial_mortgage d) in
  let total_full_term_interest :=
    full_term_payment * inject_Z (Data.mortgage_term_years d) * 12
    - Data.initial_mortgage d in
  let interest_saved := total_full_term_interest - total_interest_paid st in
  Result.mk
    (months_to_mortgage_free st)
    (total_interest_paid st)
    interest_saved
    (cash_savings st)
    (cumulative_overpayments st)
    (mortgage_balances (tracking st))
    (savings_balances (tracking st))
    (total_overpayments_cumulative (tracking st))
    (years (tracking st))
    (monthly_incomes (tracking st))
    (monthly_expenses_list (tracking st))
    (overpayments (tracking st))
    (available_cashes (tracking st))
    (mortgage_payments (tracking st))
    (overpayment_events st).

Definition run_simulation (d : Data.t) : Result.t := result_of d (final_state d).

(** ** Runs, month by month

    [state_at d n] is the state at the top of iteration [n] when the loop
    gets that far; [runs_through d n] says that it does: the iterations
    [0 .. n-1] were all inside [range(months)] and none left by [break];
    [enters d n] says that the body of month [n] is executed. *)

Fixpoint state_at (d : Data.t) (n : nat) : state :=
  match n with
  | O => initial_state d
  | S k => month_body d (Z.of_nat k) (state_at d k)
  end.

(** [range(months)] has [horizon d] elements. *)
Definition horizon (d : Data.t) : nat := Z.to_nat (months d).

Definition body_guard (d : Data.t) (n : nat) : bool :=
  negb (mortgage_paid_off (state_at d n))
  && negb (Qle_bool (mortgage_balance (state_at d n)) 0).

Fixpoint runs_through (d : Data.t) (n : nat) : bool :=
  match n with
  | O => true
  | S k => runs_through d k && (k <? horizon d)%nat && body_guard d k
  end.

Definition enters (d : Data.t) (n : nat) : bool := runs_through d (S n).

(** The states inside month [n] of a run, named after the block they follow. *)
Definition at_start (d : Data.t) (n : nat) : state :=
  after_start d (Z.of_nat n) (state_at d n).
Definition at_rule1 (d : Data.t) (n : nat) : state :=
  after_rule1 d (Z.of_nat n) (state_at d n).
Definition at_rule2 (d : Data.t) (n : nat) : state :=
  after_rule2 d (Z.of_nat n) (state_at d n).
Definition at_payment (d : Data.t) (n : nat) : state :=
  after_payment d (Z.of_nat n) (state_at d n).
Definition at_rule3 (d : Data.t) (n : nat) : state :=
  after_rule3 d (Z.of_nat n) (state_at d n).
Definition at_savings (d : Data.t) (n : nat) : state :=
  after_savings d (Z.of_nat n) (state_at d n).

(** The state in which the loop is left by [break] at the top of month [n]. *)
Definition stopped_paid_off (d : Data.t) (n : nat) : state :=
  mark_paid_off (Z.of_nat n) (set_lump_sum 0 (state_at d n)).

(** ** Overpayments

    The three rules move money the same way; [overpays m x k s s'] says that
    between [s] and [s'] the amount [x] left the savings, reduced the
    balance, was added to the running total and was logged for month [m]
    with tag [k]; [untouched s s'] says that none of the four changed. *)

Definition overpays (m : Z) (x : Q) (k : Event.kind) (s s' : state) : Prop :=
  mortgage_balance s' = mortgage_balance s - x
  /\ cash_savings s' = cash_savings s - x
  /\ cumulative_overpayments s' = cumulative_overpayments s + x
  /\ overpayment_events s' = overpayment_events s ++ [Event.mk m x k].

Definition untouched (s s' : state) : Prop :=
  mortgage_balance s' = mortgage_balance s
  /\ cash_savings s' = cash_savings s
  /\ cumulative_overpayments s' = cumulative_overpayments s
  /\ overpayment_events s' = overpayment_events s.

(** The sum of the amounts of a list of events, added in log order from 0,
    as [cumulative_overpayments] adds them. *)
Definition sum_amounts (l : list Event.t) : Q :=
  fold_left (fun acc e => acc + Event.amount e) l 0.

(** The events of a log dated month [m] or earlier. *)
Definition events_up_to (m : Z) (l : list Event.t) : list Event.t :=
  filter (fun e => (Event.month e <=? m)%Z) l.

(** ** Configurations used as examples *)

(** A mortgage of 1000 over 5 years at 0%, one fixed period of a single
    month, income 1000, expenses 500, savings 16000, an emergency buffer of
    1000, threshold 500, simulated over 5 years. *)
Definition swept_in_month_1 : Data.t :=
  Data.mk 1000 5 [(1%Z, 0)] 0 1000 500 0 0 16000 0 0 1000 500 5.

(** Negative rates: -1% fixed for 24 months, then -2%. *)
Definition negative_rates : Data.t :=
  Data.mk 100000 25 [(24%Z, -0.01)] (-0.02) 3000 2000 0 0 0 0 0 12000 1000 1.

(** Income equal to expenses, so that nothing is left after the payment;
    savings of 100 at 12% a year. *)
Definition no_spare_cash : Data.t :=
  Data.mk 1200 1 [] 0 500 500 0 0 100 0.12 0 1000 500 1.

(** The blocks have large bodies; conversion is told to unfold them last, so
    that the names of the states of a month are compared before they are
    opened. *)
Strategy 1000 [start_of_month end_of_fixed_period_overpayment scan_periods
  sweep_at_period_end variable_rate_overpayment regular_payment
  annual_overpayment handle_savings track_progress].

(** [applied e s s']: the overpayment recorded by event [e] is what leads
    from [s] to [s']; [s] is the state immediately before it is applied. *)
Definition applied (e : Event.t) (s s' : state) : Prop :=
  overpays (Event.month e) (Event.amount e) (Event.type e) s s'.

(** [logs d n e s s']: in month [n] of the run of [d], one of the three
    rules applies the overpayment of event [e], from state [s] to [s']. *)
Inductive logs (d : Data.t) (n : nat) (e : Event.t) : state -> state -> Prop :=
| logs_rule1 :
    applied e (at_start d n) (at_rule1 d n) ->
    logs d n e (at_start d n) (at_rule1 d n)
| logs_rule2 :
    applied e (at_rule1 d n) (at_rule2 d n) ->
    logs d n e (at_rule1 d n) (at_rule2 d n)
| logs_rule3 :
    applied e (at_payment d n) (at_rule3 d n) ->
    logs d n e (at_payment d n) (at_rule3 d n).

(** Savings of 0 and an emergency buffer of -100. *)
Definition negative_buffer : Data.t :=
  Data.mk 1200 1 [] 0 500 500 0 0 0 0 0 (-100) 50 1.

(** A threshold of 0, savings of 100 under an emergency buffer of 1000, and
    a single fixed period of one month. *)
Definition zero_threshold : Data.t :=
  Data.mk 1200 1 [(1%Z, 0)] 0 500 500 0 0 100 0 0 1000 0 1.

(** ** The loop as a transition system

    A run is in one of three phases: it is [Running], or it has stopped
    because the mortgage is [Paid_off], or because the horizon is
    exhausted.  A configuration pairs the phase with the month counter and
    the locals; [step d] is one trip through the head of the loop. *)

Inductive phase : Type := Running | Paid_off | Horizon_exhausted.

Definition configuration : Type := (phase * Z * state)%type.

Inductive step (d : Data.t) : configuration -> configuration -> Prop :=
| step_horizon (m : Z) (st : state) :
    (months d <= m)%Z ->
    step d (Running, m, st) (Horizon_exhausted, m, st)
| step_flag (m : Z) (st : state) :
    (m < months d)%Z -> mortgage_paid_off st = true ->
    step d (Running, m, st) (Paid_off, m, st)
| step_paid_off (m : Z) (st : state) :
    (m < months d)%Z -> mortgage_paid_off st = false ->
    mortgage_balance st <= 0 ->
    step d (Running, m, st) (Paid_off, m, mark_paid_off m (set_lump_sum 0 st))
| step_month (m : Z) (st : state) :
    (m < months d)%Z -> mortgage_paid_off st = false ->
    0 < mortgage_balance st ->
    step d (Running, m, st) (Running, (m + 1)%Z, month_body d m st).

(** Zero or more steps. *)
Inductive steps (d : Data.t) : configuration -> configuration -> Prop :=
| steps_refl (c : configuration) : steps d c c
| steps_cons (c c' c'' : configuration) :
    step d c c' -> steps d c' c'' -> steps d c c''.

Definition stopped (c : configuration) : Prop := fst (fst c) <> Running.

(** [simulates d r]: some run of the engine on [d] stops and returns [r]. *)
Definition simulates (d : Data.t) (r : Result.t) : Prop :=
  exists c,
    steps d (Running, 0%Z, initial_state d) c /\ stopped c
    /\ r = result_of d (snd c).

(** ** The annual allowance, year by year *)

(** [in_year k e]: event [e] is dated in the year of months 12k .. 12k+11. *)
Definition in_year (k : Z) (e : Event.t) : bool :=
  (Event.month e / 12 =? k)%Z.

(** The annual-allowance events of year [k] in a log, and its
    end-of-fixed-period sweeps. *)
Definition annual_in_year (k : Z) (l : list Event.t) : list Event.t :=
  filter (fun e => Event.is_annual e && in_year k e)%bool l.

Definition sweeps_in_year (k : Z) (l : list Event.t) : list Event.t :=
  filter (fun e => Event.is_end_of_fixed e && in_year k e)%bool l.

(** The balance measured at the first month of year [k], where the loop
    sets [yearly_overpayment_limit] to a tenth of it. *)
Definition year_start_balance (d : Data.t) (k : nat) : Q :=
  mortgage_balance (state_at d (12 * k)).

(** [n + 1] allowances of [L] each. *)
Definition allowances (n : nat) (L : Q) : Q := inject_Z (Z.of_nat (S n)) * L.

(** What holds of a log for year [k] once the year is over: no annual
    event above [L], and a total within one allowance plus one per sweep. *)
Definition allowance_bound (k : Z) (L : Q) (l : list Event.t) : Prop :=
  Forall (fun e => Event.amount e <= L) (annual_in_year k l)
  /\ sum_amounts (annual_in_year k l)
     <= allowances (length (sweeps_in_year k l)) L.

(** What holds during year [k]: as long as the flag is down, one more
    allowance can still be spent. *)
Definition allowance_inv (k : Z) (L : Q) (l : list Event.t) (made : bool) : Prop :=
  Forall (fun e => Event.amount e <= L) (annual_in_year k l)
  /\ sum_amounts (annual_in_year k l) + (if made then 0 else L)
     <= allowances (length (sweeps_in_year k l)) L.

(** A mortgage of 1200 over 5 years at 0%, a first fixed period of one
    month and a second of 24, income 1100, expenses 500, savings 1600, an
    emergency buffer of 1100 and a threshold of 500. *)
Definition two_allowances : Data.t :=
  Data.mk 1200 5 [(1%Z, 0); (24%Z, 0)] 0 1100 500 0 0 1600 0 0 1100 500 5.

(** ** Reading the schedule and the result back *)

(** [chained start l]: the periods of [l] follow one another without gap or
    overlap, the first one beginning at [start]. *)
Fixpoint chained (start : Z) (l : list period) : Prop :=
  match l with
  | [] => True
  | (s, e, _) :: rest => s = start /\ chained e rest
  end.

(** The declared (length, rate) of a period of the schedule. *)
Definition declared (p : period) : Z * Q :=
  let '(s, e, r) := p in ((e - s)%Z, r).

(** The month at which the last fixed period ends: the sum of the declared
    lengths. *)
Definition total_fixed_length (periods : list (Z * Q)) : Z :=
  fold_right (fun p acc => (fst p + acc)%Z) 0%Z periods.

(** The sum of a list of amounts, added in list order from 0. *)
Definition sum_list (l : list Q) : Q := fold_left Qplus l 0.

(** The events of a log dated month [m]. *)
Definition events_of_month (m : Z) (l : list Event.t) : list Event.t :=
  filter (fun e => (Event.month e =? m)%Z) l.

(** A mortgage of 1200 over one year at 12%, without fixed period, for a
    household whose income equals its expenses and whose savings of 100 lie
    under an emergency buffer of 1000, simulated over two years. *)
Definition baseline_household : Data.t :=
  Data.mk 1200 1 [] 0.12 500 500 0 0 100 0.12 0 1000 500 2.

(** ** The input form of [main] (lines 66-218)

    [main] reads one value per widget and builds the [data] dictionary
    from them.  A widget [st.number_input] with integer bounds and step
    yields a Python int, one with float bounds yields a float; the value
    it yields lies between its [min_value] and its [max_value]. *)

Module Form.
Record t : Type := mk {
  current_balance : Z;          (* min 1000 *)
  original_term : Z;            (* 5 .. 50 *)
  fixed_periods : list (Z * Q); (* 1 .. 5 periods: months 1 .. 120, rate % 0 .. 20 *)
  svr_rate : Q;                 (* % 0 .. 20 *)
  monthly_income : Z;           (* min 1000 *)
  monthly_expenses : Z;         (* min 500 *)
  income_growth : Q;            (* % 0 .. 20 *)
  expense_growth : Q;           (* % 0 .. 20 *)
  current_savings : Z;          (* min 0 *)
  savings_rate : Q;             (* % 0 .. 20 *)
  savings_tax : Q;              (* % 0 .. 50 *)
  emergency_months : Q;         (* 1 .. 12 *)
  min_threshold : Z;            (* min 500 *)
  simulation_years : Z          (* 5 .. 50 *)
}.

(** The bounds the widgets enforce. *)
Definition in_bounds (f : t) : Prop :=
  (1000 <= current_balance f)%Z
  /\ (5 <= original_term f <= 50)%Z
  /\ (1 <= length (fixed_periods f) <= 5)%nat
  /\ Forall (fun p => (1 <= fst p <= 120)%Z /\ 0 <= snd p <= 20)
            (fixed_periods f)
  /\ 0 <= svr_rate f <= 20
  /\ (1000 <= monthly_income f)%Z
  /\ (500 <= monthly_expenses f)%Z
  /\ 0 <= income_growth f <= 20
  /\ 0 <= expense_growth f <= 20
  /\ (0 <= current_savings f)%Z
  /\ 0 <= savings_rate f <= 20
  /\ 0 <= savings_tax f <= 50
  /\ 1 <= emergency_months f <= 12
  /\ (500 <= min_threshold f)%Z
  /\ (5 <= simulation_years f <= 50)%Z.

(** The dictionary [data] of lines 203-218, with the percentages already
    divided by 100 as on lines 101, 110, 134, 142, 159 and 167. *)
Definition data (f : t) : Data.t :=
  Data.mk
    (inject_Z (current_balance f))
    (original_term f)
    (map (fun p => (fst p, snd p / 100)) (fixed_periods f))
    (svr_rate f / 100)
    (inject_Z (monthly_income f))
    (inject_Z (monthly_expenses f))
    (income_growth f / 100)
    (expense_growth f / 100)
    (inject_Z (current_savings f))
    (savings_rate f / 100)
    (savings_tax f / 100)
    (inject_Z (monthly_income f) * emergency_months f)
    (inject_Z (min_threshold f))
    (simulation_years f).

(** The values the form shows when it is first opened. *)
Definition defaults : t :=
  mk 100000 25 [(24%Z, 4.1); (60%Z, 3.4)] 5.0 3130 2000 2.0 2.0 16000 3.6 20.0
     4.0 1000 30.
End Form.

(** ** The first metric of [display_results] (lines 455-465)

    The numbers shown by the first metric: years and months to pay-off with
    the years gained on the term, or the number of years simulated when the
    result holds no month of pay-off.  The test [if
    results['months_to_mortgage_free']] is false for [None] and for 0. *)
Inductive status_metric : Type :=
| Mortgage_free_in (years months delta_years : Z)
| Not_paid_off (years_simulated : Z).

Definition first_metric (results : Result.t) (d : Data.t) : status_metric :=
  match Result.months_to_mortgage_free results with
  | Some m =>
      if (m =? 0)%Z then Not_paid_off (Data.total_years_to_simulate d)
      else Mortgage_free_in (m / 12)%Z (m mod 12)%Z
             (Data.mortgage_term_years d - m / 12)%Z
  | None => Not_paid_off (Data.total_years_to_simulate d)
  end.

(** The savings found at the top of month [n]: the initial savings, or the
    savings recorded for the month before. *)
Definition savings_before (d : Data.t) (savings : list Q) (n : nat) : Q :=
  match n with
  | O => Data.initial_savings d
  | S k => nth k savings 0
  end.

(** A mortgage of 1200 over one year at 0%, without fixed period, for a
    household with income 600, expenses 500 and savings of 2000 over an
    emergency buffer of 1000, with a threshold of 500, simulated one year. *)
Definition saver_without_fixed_period : Data.t :=
  Data.mk 1200 1 [] 0 600 500 0 0 2000 0 0 1000 500 1.

(** ** Basic facts on comparisons *)

Lemma Qltb_true (x y : Q) : Qltb x y = true <-> x < y.
Proof.
  unfold Qltb. rewrite negb_true_iff. split; intro H.
  - apply Qnot_le_lt. intro Hle. apply Qle_bool_iff in Hle. congruence.
  - destruct (Qle_bool y x) eqn:E; [|reflexivity].
    apply Qle_bool_iff in E. exfalso. apply (Qlt_not_le _ _ H E).
Qed.

Lemma Qltb_false (x y : Q) : Qltb x y = false <-> y <= x.
Proof.
  unfold Qltb. rewrite negb_false_iff. apply Qle_bool_iff.
Qed.

Lemma Qle_bool_false (x y : Q) : Qle_bool x y = false <-> y < x.
Proof.
  rewrite <- Qltb_true. unfold Qltb. rewrite negb_true_iff. reflexivity.
Qed.

Lemma py_max_cases (a b : Q) :
  (a < b /\ py_max a b = b) \/ (b <= a /\ py_max a b = a).
Proof.
  unfold py_max. destruct (Qltb a b) eqn:E.
  - left. split; [apply Qltb_true, E | reflexivity].
  - right. split; [apply Qltb_false, E | reflexivity].
Qed.

Lemma py_min_cases (a b : Q) :
  (b < a /\ py_min a b = b) \/ (a <= b /\ py_min a b = a).
Proof.
  unfold py_min. destruct (Qltb b a) eqn:E.
  - left. split; [apply Qltb_true, E | reflexivity].
  - right. split; [apply Qltb_false, E | reflexivity].
Qed.

Lemma py_min_le_l (a b : Q) : py_min a b <= a.
Proof. destruct (py_min_cases a b) as [[H ->]|[H ->]]; lra. Qed.

Lemma py_min_le_r (a b : Q) : py_min a b <= b.
Proof. destruct (py_min_cases a b) as [[H ->]|[H ->]]; lra. Qed.

Lemma py_min_pos (a b : Q) : 0 < a -> 0 < b -> 0 < py_min a b.
Proof. intros. destruct (py_min_cases a b) as [[H' ->]|[H' ->]]; lra. Qed.

Lemma py_min3_le_1 (a b c : Q) : py_min3 a b c <= a.
Proof.
  unfold py_min3. pose proof (py_min_le_l (py_min a b) c).
  pose proof (py_min_le_l a b). lra.
Qed.

Lemma py_min3_le_2 (a b c : Q) : py_min3 a b c <= b.
Proof.
  unfold py_min3. pose proof (py_min_le_l (py_min a b) c).
  pose proof (py_min_le_r a b). lra.
Qed.

Lemma py_min3_le_3 (a b c : Q) : py_min3 a b c <= c.
Proof. unfold py_min3. apply py_min_le_r. Qed.

(** ** Reading a field of an updated state *)

(** Reduces projections of setters, and nothing else. *)
Ltac proj_simpl :=
  cbn [mortgage_balance standard_monthly_payment cash_savings monthly_income
       monthly_expenses total_interest_paid months_to_mortgage_free
       yearly_overpayment_limit mortgage_paid_off overpayment_made_this_year
       current_year cumulative_overpayments overpayment_events lump_sum
       available_cash end_of_fixed_period interest_payment capital_repayment
       current_overpayment tracking
       set_mortgage_balance set_standard_monthly_payment set_cash_savings
       set_monthly_income set_monthly_expenses set_total_interest_paid
       set_months_to_mortgage_free set_yearly_overpayment_limit
       set_mortgage_paid_off set_overpayment_made_this_year set_current_year
       set_cumulative_overpayments set_overpayment_events set_lump_sum
       set_available_cash set_end_of_fixed_period set_interest_payment
       set_capital_repayment set_current_overpayment set_tracking log_event
       mortgage_balances savings_balances total_overpayments_cumulative years
       monthly_incomes monthly_expenses_list overpayments available_cashes
       mortgage_payments] in *.

(** Splits on the tests of a block, innermost first. *)
Ltac block_cases :=
  proj_simpl;
  repeat (match goal with
          | |- context [if ?c then _ else _] =>
              lazymatch c with
              | context [if _ then _ else _] => fail
              | _ => destruct c eqn:?
              end
          end; proj_simpl).

(** The scan of the schedule either finds no period ending this month or
    runs the sweep for the first one that does. *)
Lemma scan_periods_cases (d : Data.t) (m : Z) (schedule : list period) :
  forall idx st,
    (scan_periods d m idx schedule st = st
     /\ forall p, In p schedule -> snd (fst p) <> m)
    \/ (exists i, scan_periods d m idx schedule st = sweep_at_period_end d m i st
        /\ exists p, In p schedule /\ snd (fst p) = m).
Proof.
  induction schedule as [|[[s e] r] rest IH]; intros idx st; simpl.
  - left; split; [reflexivity | intros p []].
  - destruct (Z.eqb_spec m e) as [->|Hne].
    + right; exists idx; split; [reflexivity|].
      exists (s, e, r); split; [left; reflexivity | reflexivity].
    + destruct (IH (idx + 1)%Z st) as [[-> Hall]|(i & -> & p & Hin & Hp)].
      * left; split; [reflexivity|].
        intros p [<-|Hin]; [simpl; congruence | apply Hall, Hin].
      * right; exists i; split; [reflexivity|].
        exists p; split; [right; exact Hin | exact Hp].
Qed.

(** [rule1_cases d m st]: the two ways block 1 can go from [after_start]. *)
Lemma rule1_cases (d : Data.t) (m : Z) (st : state) :
  let s := after_start d m st in
  (after_rule1 d m st = set_end_of_fixed_period false s
   /\ forall p, In p (fixed_period_schedule d) -> snd (fst p) <> m)
  \/ (exists i, after_rule1 d m st
                = sweep_at_period_end d m i (set_end_of_fixed_period false s)
      /\ exists p, In p (fixed_period_schedule d) /\ snd (fst p) = m).
Proof.
  intro s. unfold after_rule1, end_of_fixed_period_overpayment. fold s.
  apply scan_periods_cases.
Qed.

(** ** Frame lemmas: the fields a block leaves alone

    One equation per block and untouched field, collected in the rewrite
    database [frame]. *)

(** [after_start] *)

Lemma balance_start (d : Data.t) (m : Z) (st : state) :
  mortgage_balance (after_start d m st) = mortgage_balance st.
Proof. unfold after_start, start_of_month. block_cases; reflexivity. Qed.

Lemma payment_start (d : Data.t) (m : Z) (st : state) :
  standard_monthly_payment (after_start d m st) = standard_monthly_payment st.
Proof. unfold after_start, start_of_month. block_cases; reflexivity. Qed.

Lemma savings_start (d : Data.t) (m : Z) (st : state) :
  cash_savings (after_start d m st) = cash_savings st.
Proof. unfold after_start, start_of_month. block_cases; reflexivity. Qed.

Lemma interest_paid_start (d : Data.t) (m : Z) (st : state) :
  total_interest_paid (after_start d m st) = total_interest_paid st.
Proof. unfold after_start, start_of_month. block_cases; reflexivity. Qed.

Lemma months_free_start (d : Data.t) (m : Z) (st : state) :
  months_to_mortgage_free (after_start d m st) = months_to_mortgage_free st.
Proof. unfold after_start, start_of_month. block_cases; reflexivity. Qed.

Lemma paid_off_start (d : Data.t) (m : Z) (st : state) :
  mortgage_paid_off (after_start d m st) = mortgage_paid_off st.
Proof. unfold after_start, start_of_month. block_cases; reflexivity. Qed.

Lemma cumulative_start (d : Data.t) (m : Z) (st : state) :
  cumulative_overpayments (after_start d m st) = cumulative_overpayments st.
Proof. unfold after_start, start_of_month. block_cases; reflexivity. Qed.

Lemma events_start (d : Data.t) (m : Z) (st : state) :
  overpayment_events (after_start d m st) = overpayment_events st.
Proof. unfold after_start, start_of_month. block_cases; reflexivity. Qed.

Lemma end_flag_start (d : Data.t) (m : Z) (st : state) :
  end_of_fixed_period (after_start d m st) = end_of_fixed_period st.
Proof. unfold after_start, start_of_month. block_cases; reflexivity. Qed.

Lemma interest_start (d : Data.t) (m : Z) (st : state) :
  interest_payment (after_start d m st) = interest_payment st.
Proof. unfold after_start, start_of_month. block_cases; reflexivity. Qed.

Lemma capital_start (d : Data.t) (m : Z) (st : state) :
  capital_repayment (after_start d m st) = capital_repayment st.
Proof. unfold after_start, start_of_month. block_cases; reflexivity. Qed.

Lemma current_start (d : Data.t) (m : Z) (st : state) :
  current_overpayment (after_start d m st) = current_overpayment st.
Proof. unfold after_start, start_of_month. block_cases; reflexivity. Qed.

Lemma tracking_start (d : Data.t) (m : Z) (st : state) :
  tracking (after_start d m st) = tracking st.
Proof. unfold after_start, start_of_month. block_cases; reflexivity. Qed.

(** [sweep_at_period_end] *)

Lemma income_sweep (d : Data.t) (m i : Z) (st : state) :
  monthly_income (sweep_at_period_end d m i st) = monthly_income st.
Proof. unfold sweep_at_period_end. block_cases; reflexivity. Qed.

Lemma expenses_sweep (d : Data.t) (m i : Z) (st : state) :
  monthly_expenses (sweep_at_period_end d m i st) = monthly_expenses st.
Proof. unfold sweep_at_period_end. block_cases; reflexivity. Qed.

Lemma interest_paid_sweep (d : Data.t) (m i : Z) (st : state) :
  total_interest_paid (sweep_at_period_end d m i st) = total_interest_paid st.
Proof. unfold sweep_at_period_end. block_cases; reflexivity. Qed.

Lemma months_free_sweep (d : Data.t) (m i : Z) (st : state) :
  months_to_mortgage_free (sweep_at_period_end d m i st) = months_to_mortgage_free st.
Proof. unfold sweep_at_period_end. block_cases; reflexivity. Qed.

Lemma limit_sweep (d : Data.t) (m i : Z) (st : state) :
  yearly_overpayment_limit (sweep_at_period_end d m i st) = yearly_overpayment_limit st.
Proof. unfold sweep_at_period_end. block_cases; reflexivity. Qed.

Lemma paid_off_sweep (d : Data.t) (m i : Z) (st : state) :
  mortgage_paid_off (sweep_at_period_end d m i st) = mortgage_paid_off st.
Proof. unfold sweep_at_period_end. block_cases; reflexivity. Qed.

Lemma year_sweep (d : Data.t) (m i : Z) (st : state) :
  current_year (sweep_at_period_end d m i st) = current_year st.
Proof. unfold sweep_at_period_end. block_cases; reflexivity. Qed.

Lemma available_sweep (d : Data.t) (m i : Z) (st : state) :
  available_cash (sweep_at_period_end d m i st) = available_cash st.
Proof. unfold sweep_at_period_end. block_cases; reflexivity. Qed.

Lemma interest_sweep (d : Data.t) (m i : Z) (st : state) :
  interest_payment (sweep_at_period_end d m i st) = interest_payment st.
Proof. unfold sweep_at_period_end. block_cases; reflexivity. Qed.

Lemma capital_sweep (d : Data.t) (m i : Z) (st : state) :
  capital_repayment (sweep_at_period_end d m i st) = capital_repayment st.
Proof. unfold sweep_at_period_end. block_cases; reflexivity. Qed.

Lemma current_sweep (d : Data.t) (m i : Z) (st : state) :
  current_overpayment (sweep_at_period_end d m i st) = current_overpayment st.
Proof. unfold sweep_at_period_end. block_cases; reflexivity. Qed.

Lemma tracking_sweep (d : Data.t) (m i : Z) (st : state) :
  tracking (sweep_at_period_end d m i st) = tracking st.
Proof. unfold sweep_at_period_end. block_cases; reflexivity. Qed.

(** [end_of_fixed_period_overpayment] *)

Lemma income_rule1 (d : Data.t) (m : Z) (st : state) :
  monthly_income (end_of_fixed_period_overpayment d m st) = monthly_income st.
Proof. unfold end_of_fixed_period_overpayment.
  destruct (scan_periods_cases d m (fixed_period_schedule d) 0
              (set_end_of_fixed_period false st)) as [[-> _]|(i & -> & _)];
    [|rewrite income_sweep]; reflexivity. Qed.

Lemma expenses_rule1 (d : Data.t) (m : Z) (st : state) :
  monthly_expenses (end_of_fixed_period_overpayment d m st) = monthly_expenses st.
Proof. unfold end_of_fixed_period_overpayment.
  destruct (scan_periods_cases d m (fixed_period_schedule d) 0
              (set_end_of_fixed_period false st)) as [[-> _]|(i & -> & _)];
    [|rewrite expenses_sweep]; reflexivity. Qed.

Lemma interest_paid_rule1 (d : Data.t) (m : Z) (st : state) :
  total_interest_paid (end_of_fixed_period_overpayment d m st) = total_interest_paid st.
Proof. unfold end_of_fixed_period_overpayment.
  destruct (scan_periods_cases d m (fixed_period_schedule d) 0
              (set_end_of_fixed_period false st)) as [[-> _]|(i & -> & _)];
    [|rewrite interest_paid_sweep]; reflexivity. Qed.

Lemma months_free_rule1 (d : Data.t) (m : Z) (st : state) :
  months_to_mortgage_free (end_of_fixed_period_overpayment d m st) = months_to_mortgage_free st.
Proof. unfold end_of_fixed_period_overpayment.
  destruct (scan_periods_cases d m (fixed_period_schedule d) 0
              (set_end_of_fixed_period false st)) as [[-> _]|(i & -> & _)];
    [|rewrite months_free_sweep]; reflexivity. Qed.

Lemma limit_rule1 (d : Data.t) (m : Z) (st : state) :
  yearly_overpayment_limit (end_of_fixed_period_overpayment d m st) = yearly_overpayment_limit st.
Proof. unfold end_of_fixed_period_overpayment.
  destruct (scan_periods_cases d m (fixed_period_schedule d) 0
              (set_end_of_fixed_period false st)) as [[-> _]|(i & -> & _)];
    [|rewrite limit_sweep]; reflexivity. Qed.

Lemma paid_off_rule1 (d : Data.t) (m : Z) (st : state) :
  mortgage_paid_off (end_of_fixed_period_overpayment d m st) = mortgage_paid_off st.
Proof. unfold end_of_fixed_period_overpayment.
  destruct (scan_periods_cases d m (fixed_period_schedule d) 0
              (set_end_of_fixed_period false st)) as [[-> _]|(i & -> & _)];
    [|rewrite paid_off_sweep]; reflexivity. Qed.

Lemma year_rule1 (d : Data.t) (m : Z) (st : state) :
  current_year (end_of_fixed_period_overpayment d m st) = current_year st.
Proof. unfold end_of_fixed_period_overpayment.
  destruct (scan_periods_cases d m (fixed_period_schedule d) 0
              (set_end_of_fixed_period false st)) as [[-> _]|(i & -> & _)];
    [|rewrite year_sweep]; reflexivity. Qed.

Lemma available_rule1 (d : Data.t) (m : Z) (st : state) :
  available_cash (end_of_fixed_period_overpayment d m st) = available_cash st.
Proof. unfold end_of_fixed_period_overpayment.
  destruct (scan_periods_cases d m (fixed_period_schedule d) 0
              (set_end_of_fixed_period false st)) as [[-> _]|(i & -> & _)];
    [|rewrite available_sweep]; reflexivity. Qed.

Lemma interest_rule1 (d : Data.t) (m : Z) (st : state) :
  interest_payment (end_of_fixed_period_overpayment d m st) = interest_payment st.
Proof. unfold end_of_fixed_period_overpayment.
  destruct (scan_periods_cases d m (fixed_period_schedule d) 0
              (set_end_of_fixed_period false st)) as [[-> _]|(i & -> & _)];
    [|rewrite interest_sweep]; reflexivity. Qed.

Lemma capital_rule1 (d : Data.t) (m : Z) (st : state) :
  capital_repayment (end_of_fixed_period_overpayment d m st) = capital_repayment st.
Proof. unfold end_of_fixed_period_overpayment.
  destruct (scan_periods_cases d m (fixed_period_schedule d) 0
              (set_end_of_fixed_period false st)) as [[-> _]|(i & -> & _)];
    [|rewrite capital_sweep]; reflexivity. Qed.

Lemma current_rule1 (d : Data.t) (m : Z) (st : state) :
  current_overpayment (end_of_fixed_period_overpayment d m st) = current_overpayment st.
Proof. unfold end_of_fixed_period_overpayment.
  destruct (scan_periods_cases d m (fixed_period_schedule d) 0
              (set_end_of_fixed_period false st)) as [[-> _]|(i & -> & _)];
    [|rewrite current_sweep]; reflexivity. Qed.

Lemma tracking_rule1 (d : Data.t) (m : Z) (st : state) :
  tracking (end_of_fixed_period_overpayment d m st) = tracking st.
Proof. unfold end_of_fixed_period_overpayment.
  destruct (scan_periods_cases d m (fixed_period_schedule d) 0
              (set_end_of_fixed_period false st)) as [[-> _]|(i & -> & _)];
    [|rewrite tracking_sweep]; reflexivity. Qed.

(** [variable_rate_overpayment] *)

Lemma payment_rule2 (d : Data.t) (m : Z) (st : state) :
  standard_monthly_payment (variable_rate_overpayment d m st) = standard_monthly_payment st.
Proof. unfold variable_rate_overpayment.
  destruct (end_of_fixed_period st) eqn:E, (fixed_period_schedule d);
    block_cases; first [reflexivity | exact E]. Qed.

Lemma income_rule2 (d : Data.t) (m : Z) (st : state) :
  monthly_income (variable_rate_overpayment d m st) = monthly_income st.
Proof. unfold variable_rate_overpayment.
  destruct (end_of_fixed_period st) eqn:E, (fixed_period_schedule d);
    block_cases; first [reflexivity | exact E]. Qed.

Lemma expenses_rule2 (d : Data.t) (m : Z) (st : state) :
  monthly_expenses (variable_rate_overpayment d m st) = monthly_expenses st.
Proof. unfold variable_rate_overpayment.
  destruct (end_of_fixed_period st) eqn:E, (fixed_period_schedule d);
    block_cases; first [reflexivity | exact E]. Qed.

Lemma interest_paid_rule2 (d : Data.t) (m : Z) (st : state) :
  total_interest_paid (variable_rate_overpayment d m st) = total_interest_paid st.
Proof. unfold variable_rate_overpayment.
  destruct (end_of_fixed_period st) eqn:E, (fixed_period_schedule d);
    block_cases; first [reflexivity | exact E]. Qed.

Lemma months_free_rule2 (d : Data.t) (m : Z) (st : state) :
  months_to_mortgage_free (variable_rate_overpayment d m st) = months_to_mortgage_free st.
Proof. unfold variable_rate_overpayment.
  destruct (end_of_fixed_period st) eqn:E, (fixed_period_schedule d);
    block_cases; first [reflexivity | exact E]. Qed.

Lemma limit_rule2 (d : Data.t) (m : Z) (st : state) :
  yearly_overpayment_limit (variable_rate_overpayment d m st) = yearly_overpayment_limit st.
Proof. unfold variable_rate_overpayment.
  destruct (end_of_fixed_period st) eqn:E, (fixed_period_schedule d);
    block_cases; first [reflexivity | exact E]. Qed.

Lemma paid_off_rule2 (d : Data.t) (m : Z) (st : state) :
  mortgage_paid_off (variable_rate_overpayment d m st) = mortgage_paid_off st.
Proof. unfold variable_rate_overpayment.
  destruct (end_of_fixed_period st) eqn:E, (fixed_period_schedule d);
    block_cases; first [reflexivity | exact E]. Qed.

Lemma made_this_year_rule2 (d : Data.t) (m : Z) (st : state) :
  overpayment_made_this_year (variable_rate_overpayment d m st) = overpayment_made_this_year st.
Proof. unfold variable_rate_overpayment.
  destruct (end_of_fixed_period st) eqn:E, (fixed_period_schedule d);
    block_cases; first [reflexivity | exact E]. Qed.

Lemma year_rule2 (d : Data.t) (m : Z) (st : state) :
  current_year (variable_rate_overpayment d m st) = current_year st.
Proof. unfold variable_rate_overpayment.
  destruct (end_of_fixed_period st) eqn:E, (fixed_period_schedule d);
    block_cases; first [reflexivity | exact E]. Qed.

Lemma available_rule2 (d : Data.t) (m : Z) (st : state) :
  available_cash (variable_rate_overpayment d m st) = available_cash st.
Proof. unfold variable_rate_overpayment.
  destruct (end_of_fixed_period st) eqn:E, (fixed_period_schedule d);
    block_cases; first [reflexivity | exact E]. Qed.

Lemma end_flag_rule2 (d : Data.t) (m : Z) (st : state) :
  end_of_fixed_period (variable_rate_overpayment d m st) = end_of_fixed_period st.
Proof. unfold variable_rate_overpayment.
  destruct (end_of_fixed_period st) eqn:E, (fixed_period_schedule d);
    block_cases; first [reflexivity | exact E]. Qed.

Lemma interest_rule2 (d : Data.t) (m : Z) (st : state) :
  interest_payment (variable_rate_overpayment d m st) = interest_payment st.
Proof. unfold variable_rate_overpayment.
  destruct (end_of_fixed_period st) eqn:E, (fixed_period_schedule d);
    block_cases; first [reflexivity | exact E]. Qed.

Lemma capital_rule2 (d : Data.t) (m : Z) (st : state) :
  capital_repayment (variable_rate_overpayment d m st) = capital_repayment st.
Proof. unfold variable_rate_overpayment.
  destruct (end_of_fixed_period st) eqn:E, (fixed_period_schedule d);
    block_cases; first [reflexivity | exact E]. Qed.

Lemma current_rule2 (d : Data.t) (m : Z) (st : state) :
  current_overpayment (variable_rate_overpayment d m st) = current_overpayment st.
Proof. unfold variable_rate_overpayment.
  destruct (end_of_fixed_period st) eqn:E, (fixed_period_schedule d);
    block_cases; first [reflexivity | exact E]. Qed.

Lemma tracking_rule2 (d : Data.t) (m : Z) (st : state) :
  tracking (variable_rate_overpayment d m st) = tracking st.
Proof. unfold variable_rate_overpayment.
  destruct (end_of_fixed_period st) eqn:E, (fixed_period_schedule d);
    block_cases; first [reflexivity | exact E]. Qed.

(** [regular_payment] *)

Lemma payment_regular (d : Data.t) (m : Z) (st : state) :
  standard_monthly_payment (regular_payment d m st) = standard_monthly_payment st.
Proof. reflexivity. Qed.

Lemma savings_regular (d : Data.t) (m : Z) (st : state) :
  cash_savings (regular_payment d m st) = cash_savings st.
Proof. reflexivity. Qed.

Lemma income_regular (d : Data.t) (m : Z) (st : state) :
  monthly_income (regular_payment d m st) = monthly_income st.
Proof. reflexivity. Qed.

Lemma expenses_regular (d : Data.t) (m : Z) (st : state) :
  monthly_expenses (regular_payment d m st) = monthly_expenses st.
Proof. reflexivity. Qed.

Lemma months_free_regular (d : Data.t) (m : Z) (st : state) :
  months_to_mortgage_free (regular_payment d m st) = months_to_mortgage_free st.
Proof. reflexivity. Qed.

Lemma limit_regular (d : Data.t) (m : Z) (st : state) :
  yearly_overpayment_limit (regular_payment d m st) = yearly_overpayment_limit st.
Proof. reflexivity. Qed.

Lemma paid_off_regular (d : Data.t) (m : Z) (st : state) :
  mortgage_paid_off (regular_payment d m st) = mortgage_paid_off st.
Proof. reflexivity. Qed.

Lemma made_this_year_regular (d : Data.t) (m : Z) (st : state) :
  overpayment_made_this_year (regular_payment d m st) = overpayment_made_this_year st.
Proof. reflexivity. Qed.

Lemma year_regular (d : Data.t) (m : Z) (st : state) :
  current_year (regular_payment d m st) = current_year st.
Proof. reflexivity. Qed.

Lemma cumulative_regular (d : Data.t) (m : Z) (st : state) :
  cumulative_overpayments (regular_payment d m st) = cumulative_overpayments st.
Proof. reflexivity. Qed.

Lemma events_regular (d : Data.t) (m : Z) (st : state) :
  overpayment_events (regular_payment d m st) = overpayment_events st.
Proof. reflexivity. Qed.

Lemma lump_regular (d : Data.t) (m : Z) (st : state) :
  lump_sum (regular_payment d m st) = lump_sum st.
Proof. reflexivity. Qed.

Lemma end_flag_regular (d : Data.t) (m : Z) (st : state) :
  end_of_fixed_period (regular_payment d m st) = end_of_fixed_period st.
Proof. reflexivity. Qed.

Lemma current_regular (d : Data.t) (m : Z) (st : state) :
  current_overpayment (regular_payment d m st) = current_overpayment st.
Proof. reflexivity. Qed.

Lemma tracking_regular (d : Data.t) (m : Z) (st : state) :
  tracking (regular_payment d m st) = tracking st.
Proof. reflexivity. Qed.

(** [annual_overpayment] *)

Lemma payment_rule3 (d : Data.t) (m : Z) (st : state) :
  standard_monthly_payment (annual_overpayment d m st) = standard_monthly_payment st.
Proof. unfold annual_overpayment. block_cases; reflexivity. Qed.

Lemma income_rule3 (d : Data.t) (m : Z) (st : state) :
  monthly_income (annual_overpayment d m st) = monthly_income st.
Proof. unfold annual_overpayment. block_cases; reflexivity. Qed.

Lemma expenses_rule3 (d : Data.t) (m : Z) (st : state) :
  monthly_expenses (annual_overpayment d m st) = monthly_expenses st.
Proof. unfold annual_overpayment. block_cases; reflexivity. Qed.

Lemma interest_paid_rule3 (d : Data.t) (m : Z) (st : state) :
  total_interest_paid (annual_overpayment d m st) = total_interest_paid st.
Proof. unfold annual_overpayment. block_cases; reflexivity. Qed.

Lemma months_free_rule3 (d : Data.t) (m : Z) (st : state) :
  months_to_mortgage_free (annual_overpayment d m st) = months_to_mortgage_free st.
Proof. unfold annual_overpayment. block_cases; reflexivity. Qed.

Lemma limit_rule3 (d : Data.t) (m : Z) (st : state) :
  yearly_overpayment_limit (annual_overpayment d m st) = yearly_overpayment_limit st.
Proof. unfold annual_overpayment. block_cases; reflexivity. Qed.

Lemma paid_off_rule3 (d : Data.t) (m : Z) (st : state) :
  mortgage_paid_off (annual_overpayment d m st) = mortgage_paid_off st.
Proof. unfold annual_overpayment. block_cases; reflexivity. Qed.

Lemma year_rule3 (d : Data.t) (m : Z) (st : state) :
  current_year (annual_overpayment d m st) = current_year st.
Proof. unfold annual_overpayment. block_cases; reflexivity. Qed.

Lemma lump_rule3 (d : Data.t) (m : Z) (st : state) :
  lump_sum (annual_overpayment d m st) = lump_sum st.
Proof. unfold annual_overpayment. block_cases; reflexivity. Qed.

Lemma available_rule3 (d : Data.t) (m : Z) (st : state) :
  available_cash (annual_overpayment d m st) = available_cash st.
Proof. unfold annual_overpayment. block_cases; reflexivity. Qed.

Lemma end_flag_rule3 (d : Data.t) (m : Z) (st : state) :
  end_of_fixed_period (annual_overpayment d m st) = end_of_fixed_period st.
Proof. unfold annual_overpayment. block_cases; reflexivity. Qed.

Lemma interest_rule3 (d : Data.t) (m : Z) (st : state) :
  interest_payment (annual_overpayment d m st) = interest_payment st.
Proof. unfold annual_overpayment. block_cases; reflexivity. Qed.

Lemma capital_rule3 (d : Data.t) (m : Z) (st : state) :
  capital_repayment (annual_overpayment d m st) = capital_repayment st.
Proof. unfold annual_overpayment. block_cases; reflexivity. Qed.

Lemma tracking_rule3 (d : Data.t) (m : Z) (st : state) :
  tracking (annual_overpayment d m st) = tracking st.
Proof. unfold annual_overpayment. block_cases; reflexivity. Qed.

(** [handle_savings] *)

Lemma balance_accrual (d : Data.t) (st : state) :
  mortgage_balance (handle_savings d st) = mortgage_balance st.
Proof. unfold handle_savings. block_cases; reflexivity. Qed.

Lemma payment_accrual (d : Data.t) (st : state) :
  standard_monthly_payment (handle_savings d st) = standard_monthly_payment st.
Proof. unfold handle_savings. block_cases; reflexivity. Qed.

Lemma income_accrual (d : Data.t) (st : state) :
  monthly_income (handle_savings d st) = monthly_income st.
Proof. unfold handle_savings. block_cases; reflexivity. Qed.

Lemma expenses_accrual (d : Data.t) (st : state) :
  monthly_expenses (handle_savings d st) = monthly_expenses st.
Proof. unfold handle_savings. block_cases; reflexivity. Qed.

Lemma interest_paid_accrual (d : Data.t) (st : state) :
  total_interest_paid (handle_savings d st) = total_interest_paid st.
Proof. unfold handle_savings. block_cases; reflexivity. Qed.

Lemma months_free_accrual (d : Data.t) (st : state) :
  months_to_mortgage_free (handle_savings d st) = months_to_mortgage_free st.
Proof. unfold handle_savings. block_cases; reflexivity. Qed.

Lemma limit_accrual (d : Data.t) (st : state) :
  yearly_overpayment_limit (handle_savings d st) = yearly_overpayment_limit st.
Proof. unfold handle_savings. block_cases; reflexivity. Qed.

Lemma paid_off_accrual (d : Data.t) (st : state) :
  mortgage_paid_off (handle_savings d st) = mortgage_paid_off st.
Proof. unfold handle_savings. block_cases; reflexivity. Qed.

Lemma made_this_year_accrual (d : Data.t) (st : state) :
  overpayment_made_this_year (handle_savings d st) = overpayment_made_this_year st.
Proof. unfold handle_savings. block_cases; reflexivity. Qed.

Lemma year_accrual (d : Data.t) (st : state) :
  current_year (handle_savings d st) = current_year st.
Proof. unfold handle_savings. block_cases; reflexivity. Qed.

Lemma cumulative_accrual (d : Data.t) (st : state) :
  cumulative_overpayments (handle_savings d st) = cumulative_overpayments st.
Proof. unfold handle_savings. block_cases; reflexivity. Qed.

Lemma events_accrual (d : Data.t) (st : state) :
  overpayment_events (handle_savings d st) = overpayment_events st.
Proof. unfold handle_savings. block_cases; reflexivity. Qed.

Lemma lump_accrual (d : Data.t) (st : state) :
  lump_sum (handle_savings d st) = lump_sum st.
Proof. unfold handle_savings. block_cases; reflexivity. Qed.

Lemma available_accrual (d : Data.t) (st : state) :
  available_cash (handle_savings d st) = available_cash st.
Proof. unfold handle_savings. block_cases; reflexivity. Qed.

Lemma end_flag_accrual (d : Data.t) (st : state) :
  end_of_fixed_period (handle_savings d st) = end_of_fixed_period st.
Proof. unfold handle_savings. block_cases; reflexivity. Qed.

Lemma interest_accrual (d : Data.t) (st : state) :
  interest_payment (handle_savings d st) = interest_payment st.
Proof. unfold handle_savings. block_cases; reflexivity. Qed.

Lemma capital_accrual (d : Data.t) (st : state) :
  capital_repayment (handle_savings d st) = capital_repayment st.
Proof. unfold handle_savings. block_cases; reflexivity. Qed.

Lemma current_accrual (d : Data.t) (st : state) :
  current_overpayment (handle_savings d st) = current_overpayment st.
Proof. unfold handle_savings. block_cases; reflexivity. Qed.

Lemma tracking_accrual (d : Data.t) (st : state) :
  tracking (handle_savings d st) = tracking st.
Proof. unfold handle_savings. block_cases; reflexivity. Qed.

(** [track_progress] *)

Lemma balance_track (m : Z) (st : state) :
  mortgage_balance (track_progress m st) = mortgage_balance st.
Proof. reflexivity. Qed.

Lemma payment_track (m : Z) (st : state) :
  standard_monthly_payment (track_progress m st) = standard_monthly_payment st.
Proof. reflexivity. Qed.

Lemma savings_track (m : Z) (st : state) :
  cash_savings (track_progress m st) = cash_savings st.
Proof. reflexivity. Qed.

Lemma income_track (m : Z) (st : state) :
  monthly_income (track_progress m st) = monthly_income st.
Proof. reflexivity. Qed.

Lemma expenses_track (m : Z) (st : state) :
  monthly_expenses (track_progress m st) = monthly_expenses st.
Proof. reflexivity. Qed.

Lemma interest_paid_track (m : Z) (st : state) :
  total_interest_paid (track_progress m st) = total_interest_paid st.
Proof. reflexivity. Qed.

Lemma months_free_track (m : Z) (st : state) :
  months_to_mortgage_free (track_progress m st) = months_to_mortgage_free st.
Proof. reflexivity. Qed.

Lemma limit_track (m : Z) (st : state) :
  yearly_overpayment_limit (track_progress m st) = yearly_overpayment_limit st.
Proof. reflexivity. Qed.

Lemma paid_off_track (m : Z) (st : state) :
  mortgage_paid_off (track_progress m st) = mortgage_paid_off st.
Proof. reflexivity. Qed.

Lemma made_this_year_track (m : Z) (st : state) :
  overpayment_made_this_year (track_progress m st) = overpayment_made_this_year st.
Proof. reflexivity. Qed.

Lemma year_track (m : Z) (st : state) :
  current_year (track_progress m st) = current_year st.
Proof. reflexivity. Qed.

Lemma cumulative_track (m : Z) (st : state) :
  cumulative_overpayments (track_progress m st) = cumulative_overpayments st.
Proof. reflexivity. Qed.

Lemma events_track (m : Z) (st : state) :
  overpayment_events (track_progress m st) = overpayment_events st.
Proof. reflexivity. Qed.

Lemma lump_track (m : Z) (st : state) :
  lump_sum (track_progress m st) = lump_sum st.
Proof. reflexivity. Qed.

Lemma available_track (m : Z) (st : state) :
  available_cash (track_progress m st) = available_cash st.
Proof. reflexivity. Qed.

Lemma end_flag_track (m : Z) (st : state) :
  end_of_fixed_period (track_progress m st) = end_of_fixed_period st.
Proof. reflexivity. Qed.

Lemma interest_track (m : Z) (st : state) :
  interest_payment (track_progress m st) = interest_payment st.
Proof. reflexivity. Qed.

Lemma capital_track (m : Z) (st : state) :
  capital_repayment (track_progress m st) = capital_repayment st.
Proof. reflexivity. Qed.

Lemma current_track (m : Z) (st : state) :
  current_overpayment (track_progress m st) = current_overpayment st.
Proof. reflexivity. Qed.

Create Rewrite HintDb frame.

#[global] Hint Rewrite
  balance_start payment_start savings_start interest_paid_start months_free_start
  paid_off_start cumulative_start events_start end_flag_start interest_start
  capital_start current_start tracking_start income_sweep expenses_sweep
  interest_paid_sweep months_free_sweep limit_sweep paid_off_sweep year_sweep
  available_sweep interest_sweep capital_sweep current_sweep tracking_sweep
  income_rule1 expenses_rule1 interest_paid_rule1 months_free_rule1 limit_rule1
  paid_off_rule1 year_rule1 available_rule1 interest_rule1 capital_rule1
  current_rule1 tracking_rule1 payment_rule2 income_rule2 expenses_rule2
  interest_paid_rule2 months_free_rule2 limit_rule2 paid_off_rule2 made_this_year_rule2
  year_rule2 available_rule2 end_flag_rule2 interest_rule2 capital_rule2
  current_rule2 tracking_rule2 payment_regular savings_regular income_regular
  expenses_regular months_free_regular limit_regular paid_off_regular made_this_year_regular
  year_regular cumulative_regular events_regular lump_regular end_flag_regular
  current_regular tracking_regular payment_rule3 income_rule3 expenses_rule3
  interest_paid_rule3 months_free_rule3 limit_rule3 paid_off_rule3 year_rule3
  lump_rule3 available_rule3 end_flag_rule3 interest_rule3 capital_rule3
  tracking_rule3 balance_accrual payment_accrual income_accrual expenses_accrual
  interest_paid_accrual months_free_accrual limit_accrual paid_off_accrual made_this_year_accrual
  year_accrual cumulative_accrual events_accrual lump_accrual available_accrual
  end_flag_accrual interest_accrual capital_accrual current_accrual tracking_accrual
  balance_track payment_track savings_track income_track expenses_track
  interest_paid_track months_free_track limit_track paid_off_track made_this_year_track
  year_track cumulative_track events_track lump_track available_track
  end_flag_track interest_track capital_track current_track
  : frame.

(** Opens the states of a month down to the blocks and rewrites with the
    frame equations. *)
Ltac open_month :=
  unfold at_savings, at_rule3, at_payment, at_rule2, at_rule1, at_start,
    month_body, after_savings, after_rule3, after_payment, after_rule2,
    after_rule1 in *.

Ltac frame := open_month; autorewrite with frame in *.

Lemma paid_off_month_body (d : Data.t) (m : Z) (st : state) :
  mortgage_paid_off (month_body d m st) = mortgage_paid_off st.
Proof. frame. reflexivity. Qed.

Lemma paid_off_state_at (d : Data.t) (n : nat) :
  mortgage_paid_off (state_at d n) = false.
Proof.
  induction n as [|n IH]; [reflexivity|].
  cbn [state_at]. rewrite paid_off_month_body. exact IH.
Qed.

(** ** The loop and the month-by-month reading agree *)

Lemma runs_through_S (d : Data.t) (n : nat) :
  runs_through d (S n)
  = (runs_through d n && (n <? horizon d)%nat && body_guard d n)%bool.
Proof. reflexivity. Qed.

Lemma runs_through_le (d : Data.t) (n : nat) :
  runs_through d n = true -> (n <= horizon d)%nat.
Proof.
  destruct n as [|n]; [lia|]. rewrite runs_through_S.
  rewrite !andb_true_iff, Nat.ltb_lt. lia.
Qed.

Lemma runs_through_prev (d : Data.t) (n k : nat) :
  (k <= n)%nat -> runs_through d n = true -> runs_through d k = true.
Proof.
  induction n as [|n IH]; intros Hk H.
  - replace k with 0%nat by lia. reflexivity.
  - destruct (Nat.eq_dec k (S n)) as [->|Hne]; [exact H|].
    rewrite runs_through_S, !andb_true_iff in H. apply IH; [lia | tauto].
Qed.

Lemma enters_balance_pos (d : Data.t) (n : nat) :
  enters d n = true -> 0 < mortgage_balance (state_at d n).
Proof.
  unfold enters. rewrite runs_through_S. unfold body_guard.
  rewrite !andb_true_iff, !negb_true_iff. intros [_ [_ H]].
  apply Qle_bool_false, H.
Qed.

Lemma enters_lt_horizon (d : Data.t) (n : nat) :
  enters d n = true -> (n < horizon d)%nat.
Proof.
  unfold enters. rewrite runs_through_S, !andb_true_iff, Nat.ltb_lt. tauto.
Qed.

Lemma enters_prev (d : Data.t) (n k : nat) :
  (k <= n)%nat -> enters d n = true -> enters d k = true.
Proof. unfold enters. intros. apply (runs_through_prev d (S n)); [lia | assumption]. Qed.

(** The loop started at the top of month [n] ends at the top of some month
    [m], either because [range] is exhausted or because the balance is
    found non-positive there. *)
Lemma for_months_from (d : Data.t) :
  forall k n,
    runs_through d n = true -> (n + k = horizon d)%nat ->
    exists m,
      runs_through d m = true /\ enters d m = false /\
      (for_months d k (Z.of_nat n) (state_at d n) = state_at d m
       \/ for_months d k (Z.of_nat n) (state_at d n) = stopped_paid_off d m).
Proof.
  induction k as [|k IH]; intros n Hrun Hk.
  - exists n. split; [exact Hrun|]. split; [|left; reflexivity].
    unfold enters. rewrite runs_through_S.
    replace (n <? horizon d)%nat with false
      by (symmetry; apply Nat.ltb_ge; lia).
    rewrite andb_false_r. reflexivity.
  - cbn [for_months]. rewrite paid_off_state_at.
    destruct (Qle_bool (mortgage_balance (state_at d n)) 0) eqn:E.
    + exists n. split; [exact Hrun|]. split; [|right; reflexivity].
      unfold enters. rewrite runs_through_S. unfold body_guard.
      rewrite E. cbn [negb]. rewrite !andb_false_r. reflexivity.
    + assert (Hn : runs_through d (S n) = true).
      { rewrite runs_through_S, Hrun. unfold body_guard.
        rewrite paid_off_state_at, E.
        replace (n <? horizon d)%nat with true
          by (symmetry; apply Nat.ltb_lt; lia).
        reflexivity. }
      destruct (IH (S n) Hn ltac:(lia)) as (m & H1 & H2 & H3).
      exists m. split; [exact H1|]. split; [exact H2|].
      replace (Z.of_nat n + 1)%Z with (Z.of_nat (S n)) by lia.
      exact H3.
Qed.

(** The number of months simulated and the final state. *)
Lemma final_state_spec (d : Data.t) :
  exists m,
    runs_through d m = true /\ enters d m = false /\
    (final_state d = state_at d m \/ final_state d = stopped_paid_off d m).
Proof.
  unfold final_state.
  destruct (for_months_from d (horizon d) 0 eq_refl eq_refl) as (m & H).
  exists m. exact H.
Qed.

(** Leaving by [break] changes neither the tracking lists, nor the event
    log, nor the totals that are returned. *)
Lemma stopped_outputs (d : Data.t) (n : nat) :
  tracking (stopped_paid_off d n) = tracking (state_at d n)
  /\ overpayment_events (stopped_paid_off d n) = overpayment_events (state_at d n)
  /\ cumulative_overpayments (stopped_paid_off d n)
     = cumulative_overpayments (state_at d n)
  /\ cash_savings (stopped_paid_off d n) = cash_savings (state_at d n)
  /\ total_interest_paid (stopped_paid_off d n) = total_interest_paid (state_at d n).
Proof.
  unfold stopped_paid_off. generalize (state_at d n). intro s.
  repeat split.
Qed.

(** What [run_simulation] returns, read off the state at the top of the
    month where the loop stops. *)
Lemma run_simulation_outputs (d : Data.t) :
  exists m,
    runs_through d m = true /\ enters d m = false /\
    let st := state_at d m in
    Result.mortgage_balances (run_simulation d) = mortgage_balances (tracking st)
    /\ Result.savings_balances (run_simulation d) = savings_balances (tracking st)
    /\ Result.total_overpayments_cumulative (run_simulation d)
       = total_overpayments_cumulative (tracking st)
    /\ Result.overpayment_events (run_simulation d) = overpayment_events st
    /\ Result.total_overpayments (run_simulation d) = cumulative_overpayments st
    /\ Result.final_savings (run_simulation d) = cash_savings st
    /\ Result.total_interest_paid (run_simulation d) = total_interest_paid st.
Proof.
  destruct (final_state_spec d) as (m & H1 & H2 & H3).
  exists m. split; [exact H1|]. split; [exact H2|].
  unfold run_simulation, result_of.
  cbn [Result.mortgage_balances Result.savings_balances
       Result.total_overpayments_cumulative Result.overpayment_events
       Result.total_overpayments Result.final_savings
       Result.total_interest_paid].
  destruct H3 as [->| ->].
  - repeat split.
  - destruct (stopped_outputs d m) as (-> & -> & -> & -> & ->).
    repeat split.
Qed.

(** *** The tracking lists hold one entry per simulated month *)

Lemma tracking_step (d : Data.t) (n : nat) :
  tracking (state_at d (S n))
  = let st := at_savings d n in
    let t := tracking (state_at d n) in
    mkTracks
      (mortgage_balances t ++ [mortgage_balance st])
      (savings_balances t ++ [cash_savings st])
      (total_overpayments_cumulative t ++ [cumulative_overpayments st])
      (years t ++ [inject_Z (Z.of_nat n) / 12])
      (monthly_incomes t ++ [monthly_income st])
      (monthly_expenses_list t ++ [monthly_expenses st])
      (overpayments t ++ [current_overpayment st + lump_sum st])
      (available_cashes t ++ [available_cash st])
      (mortgage_payments t ++ [capital_repayment st + interest_payment st]).
Proof.
  assert (E : tracking (after_savings d (Z.of_nat n) (state_at d n))
              = tracking (state_at d n)) by (frame; reflexivity).
  cbn [state_at]. unfold month_body, at_savings. rewrite <- E.
  generalize (after_savings d (Z.of_nat n) (state_at d n)). intro s.
  reflexivity.
Qed.

Lemma mortgage_balances_state_at (d : Data.t) (n : nat) :
  mortgage_balances (tracking (state_at d n))
  = map (fun j => mortgage_balance (at_savings d j)) (seq 0 n).
Proof.
  induction n as [|n IH]; [reflexivity|].
  rewrite tracking_step. cbn [mortgage_balances]. cbv zeta.
  rewrite IH, seq_S, map_app. reflexivity.
Qed.

Lemma savings_balances_state_at (d : Data.t) (n : nat) :
  savings_balances (tracking (state_at d n))
  = map (fun j => cash_savings (at_savings d j)) (seq 0 n).
Proof.
  induction n as [|n IH]; [reflexivity|].
  rewrite tracking_step. cbn [savings_balances]. cbv zeta.
  rewrite IH, seq_S, map_app. reflexivity.
Qed.

Lemma cumulative_list_state_at (d : Data.t) (n : nat) :
  total_overpayments_cumulative (tracking (state_at d n))
  = map (fun j => cumulative_overpayments (at_savings d j)) (seq 0 n).
Proof.
  induction n as [|n IH]; [reflexivity|].
  rewrite tracking_step. cbn [total_overpayments_cumulative]. cbv zeta.
  rewrite IH, seq_S, map_app. reflexivity.
Qed.

Lemma nth_error_map_seq {A : Type} (f : nat -> A) (m n : nat) :
  nth_error (map f (seq 0 m)) n = if (n <? m)%nat then Some (f n) else None.
Proof.
  destruct (Nat.ltb_spec n m) as [H|H].
  - rewrite nth_error_map, nth_error_seq.
    replace (n <? m)%nat with true by (symmetry; apply Nat.ltb_lt, H).
    reflexivity.
  - apply nth_error_None. rewrite length_map, length_seq. exact H.
Qed.

(** The months that are simulated are those before the month where the
    loop stops. *)
Lemma enters_iff_before_stop (d : Data.t) (m n : nat) :
  runs_through d m = true -> enters d m = false ->
  (enters d n = true <-> (n < m)%nat).
Proof.
  intros Hrun Hstop. split; intro H.
  - destruct (Nat.lt_ge_cases n m) as [Hlt|Hge]; [exact Hlt|].
    rewrite (enters_prev d n m Hge H) in Hstop. discriminate.
  - unfold enters. apply (runs_through_prev d m); [lia | exact Hrun].
Qed.

(** Each returned list, entry by entry. *)
Lemma recorded_balance (d : Data.t) (n : nat) :
  nth_error (Result.mortgage_balances (run_simulation d)) n
  = if enters d n then Some (mortgage_balance (at_savings d n)) else None.
Proof.
  destruct (run_simulation_outputs d) as (m & Hrun & Hstop & H).
  cbv zeta in H. destruct H as (-> & _).
  rewrite mortgage_balances_state_at, nth_error_map_seq.
  pose proof (enters_iff_before_stop d m n Hrun Hstop) as Hiff.
  destruct (Nat.ltb_spec n m) as [Hlt|Hge].
  - replace (enters d n) with true by (symmetry; apply Hiff, Hlt). reflexivity.
  - destruct (enters d n); [|reflexivity].
    assert (n < m)%nat by (apply Hiff; reflexivity). lia.
Qed.

Lemma recorded_savings (d : Data.t) (n : nat) :
  nth_error (Result.savings_balances (run_simulation d)) n
  = if enters d n then Some (cash_savings (at_savings d n)) else None.
Proof.
  destruct (run_simulation_outputs d) as (m & Hrun & Hstop & H).
  cbv zeta in H. destruct H as (_ & -> & _).
  rewrite savings_balances_state_at, nth_error_map_seq.
  pose proof (enters_iff_before_stop d m n Hrun Hstop) as Hiff.
  destruct (Nat.ltb_spec n m) as [Hlt|Hge].
  - replace (enters d n) with true by (symmetry; apply Hiff, Hlt). reflexivity.
  - destruct (enters d n); [|reflexivity].
    assert (n < m)%nat by (apply Hiff; reflexivity). lia.
Qed.

Lemma recorded_cumulative (d : Data.t) (n : nat) :
  nth_error (Result.total_overpayments_cumulative (run_simulation d)) n
  = if enters d n then Some (cumulative_overpayments (at_savings d n)) else None.
Proof.
  destruct (run_simulation_outputs d) as (m & Hrun & Hstop & H).
  cbv zeta in H. destruct H as (_ & _ & -> & _).
  rewrite cumulative_list_state_at, nth_error_map_seq.
  pose proof (enters_iff_before_stop d m n Hrun Hstop) as Hiff.
  destruct (Nat.ltb_spec n m) as [Hlt|Hge].
  - replace (enters d n) with true by (symmetry; apply Hiff, Hlt). reflexivity.
  - destruct (enters d n); [|reflexivity].
    assert (n < m)%nat by (apply Hiff; reflexivity). lia.
Qed.

(** Month 0 is simulated exactly when there is a month to simulate and a
    positive amount to repay. *)
Lemma enters_first (d : Data.t) :
  enters d 0 = true
  <-> (0 < Data.total_years_to_simulate d)%Z /\ 0 < Data.initial_mortgage d.
Proof.
  unfold enters. rewrite runs_through_S. unfold body_guard, horizon, months.
  cbn [runs_through state_at initial_state mortgage_paid_off mortgage_balance
       negb andb].
  rewrite andb_true_iff, negb_true_iff, Nat.ltb_lt, Qle_bool_false. split.
  - intros [H1 H2]. split; [lia | exact H2].
  - intros [H1 H2]. split; [lia | exact H2].
Qed.

(** No monthly record is produced exactly when month 0 is not simulated. *)
Lemma no_records_iff (d : Data.t) :
  Result.mortgage_balances (run_simulation d) = []
  <-> Data.initial_mortgage d <= 0 \/ (Data.total_years_to_simulate d <= 0)%Z.
Proof.
  pose proof (recorded_balance d 0) as H0.
  pose proof (enters_first d) as Hf.
  split.
  - intro Hnil. rewrite Hnil in H0. cbn [nth_error] in H0.
    destruct (enters d 0); [discriminate|].
    destruct (Qlt_le_dec 0 (Data.initial_mortgage d)) as [Hp|Hp]; [|left; exact Hp].
    destruct (Z_lt_le_dec 0 (Data.total_years_to_simulate d)) as [Hy|Hy];
      [|right; exact Hy].
    assert (false = true) by (apply Hf; split; assumption). discriminate.
  - intro Hc.
    destruct (Result.mortgage_balances (run_simulation d)) as [|b l];
      [reflexivity|].
    cbn [nth_error] in H0. destruct (enters d 0); [|discriminate].
    destruct Hf as [Hf _]. destruct (Hf eq_refl) as [Hy Hp].
    destruct Hc as [Hc|Hc]; [lra | lia].
Qed.

(** ** What each overpayment rule does *)

(** Rule 1, in the month that ends a fixed period. *)
Lemma sweep_outcome (d : Data.t) (m i : Z) (s : state) :
  let s' := sweep_at_period_end d m i s in
  let spare := cash_savings s - Data.emergency_buffer d in
  (spare <= 0 /\ untouched s s'
   /\ overpayment_made_this_year s' = overpayment_made_this_year s)
  \/ (0 < spare
      /\ overpays m (py_min spare (mortgage_balance s))
           (Event.End_of_fixed_period (i + 1)) s s'
      /\ overpayment_made_this_year s' = false).
Proof.
  cbv zeta. unfold sweep_at_period_end, py_max, overpays, untouched.
  block_cases; try congruence; try discriminate.
  all: match goal with
       | H : Qltb 0 (cash_savings _ - _) = true |- _ =>
           right; apply Qltb_true in H
       | H : Qltb 0 (cash_savings _ - _) = false |- _ =>
           left; apply Qltb_false in H
       end; repeat split; assumption.
Qed.

(** The payment after rule 1: re-amortised when a balance is left. *)
Lemma sweep_payment (d : Data.t) (m i : Z) (s : state) :
  let s' := sweep_at_period_end d m i s in
  standard_monthly_payment s'
  = if Qltb 0 (mortgage_balance s')
    then pmt (applicable_rate d m / 12) (Data.mortgage_term_years d * 12 - m)
             (- mortgage_balance s')
    else standard_monthly_payment s.
Proof.
  cbv zeta. unfold sweep_at_period_end.
  block_cases; try congruence; try discriminate; reflexivity.
Qed.

Lemma sweep_end_flag (d : Data.t) (m i : Z) (s : state) :
  end_of_fixed_period (sweep_at_period_end d m i s) = true.
Proof. unfold sweep_at_period_end. block_cases; reflexivity. Qed.

(** Rule 2, in the months after the last fixed period. *)
Lemma rule2_outcome (d : Data.t) (m : Z) (s : state) :
  let s' := variable_rate_overpayment d m s in
  let lump := py_max 0 (cash_savings s - Data.emergency_buffer d) in
  untouched s s'
  \/ (end_of_fixed_period s = false
      /\ (last_fixed_period_end (fixed_period_schedule d) < m)%Z
      /\ Data.min_overpayment_threshold d <= lump
      /\ overpays m (py_min lump (mortgage_balance s))
           Event.Variable_rate_period s s').
Proof.
  cbv zeta. unfold variable_rate_overpayment, overpays, untouched.
  destruct (end_of_fixed_period s) eqn:E1; [left; repeat split|].
  destruct (fixed_period_schedule d) as [|p sched] eqn:E2;
    [left; repeat split|].
  destruct (Z.ltb_spec (last_fixed_period_end (p :: sched)) m) as [Hm|Hm];
    [|left; repeat split].
  destruct (Qle_bool (Data.min_overpayment_threshold d)
              (py_max 0 (cash_savings s - Data.emergency_buffer d))) eqn:E3;
    [|left; repeat split].
  apply Qle_bool_iff in E3. right. repeat split; assumption.
Qed.

(** Rule 3, the annual allowance. *)
Lemma rule3_outcome (d : Data.t) (m : Z) (s : state) :
  let s' := annual_overpayment d m s in
  let spare := cash_savings s - Data.emergency_buffer d in
  let x := py_min3 spare (yearly_overpayment_limit s) (mortgage_balance s) in
  (untouched s s'
   /\ overpayment_made_this_year s' = overpayment_made_this_year s)
  \/ (overpayment_made_this_year s = false
      /\ 0 < spare /\ Data.min_overpayment_threshold d <= spare /\ 0 < x
      /\ overpays m x (Event.Annual_overpayment (current_year s + 1)) s s'
      /\ overpayment_made_this_year s' = true).
Proof.
  cbv zeta. unfold annual_overpayment, overpays, untouched.
  proj_simpl.
  destruct (overpayment_made_this_year s) eqn:E1; cbn [negb andb];
    [left; repeat split; exact E1|].
  destruct (Qltb (Data.emergency_buffer d) (cash_savings s)) eqn:E2;
    [|left; repeat split; exact E1].
  destruct (Qle_bool (Data.min_overpayment_threshold d)
              (cash_savings s - Data.emergency_buffer d)) eqn:E3;
    [|left; repeat split; exact E1].
  destruct (Qltb 0 (py_min3 (cash_savings s - Data.emergency_buffer d)
                      (yearly_overpayment_limit s) (mortgage_balance s)))
    eqn:E4; [|left; repeat split; exact E1].
  apply Qltb_true in E2, E4. apply Qle_bool_iff in E3.
  right. proj_simpl. repeat split; try assumption. lra.
Qed.

(** *** The other blocks *)

Lemma regular_balance (d : Data.t) (m : Z) (s : state) :
  mortgage_balance (regular_payment d m s)
  = mortgage_balance s
    - (standard_monthly_payment s
       - mortgage_balance s * (applicable_rate d m / 12)).
Proof. reflexivity. Qed.

Lemma regular_interest_paid (d : Data.t) (m : Z) (s : state) :
  total_interest_paid (regular_payment d m s)
  = total_interest_paid s + mortgage_balance s * (applicable_rate d m / 12).
Proof. reflexivity. Qed.

Lemma regular_available (d : Data.t) (m : Z) (s : state) :
  available_cash (regular_payment d m s)
  = available_cash s - standard_monthly_payment s.
Proof. reflexivity. Qed.

Lemma start_available (d : Data.t) (m : Z) (st : state) :
  available_cash (after_start d m st)
  = monthly_income (after_start d m st) - monthly_expenses (after_start d m st).
Proof. unfold after_start, start_of_month. block_cases; reflexivity. Qed.

Lemma start_limit (d : Data.t) (m : Z) (st : state) :
  yearly_overpayment_limit (after_start d m st)
  = if (m mod 12 =? 0)%Z then 0.10 * mortgage_balance st
    else yearly_overpayment_limit st.
Proof. unfold after_start, start_of_month. block_cases; reflexivity. Qed.

Lemma start_made_this_year (d : Data.t) (m : Z) (st : state) :
  overpayment_made_this_year (after_start d m st)
  = if (m mod 12 =? 0)%Z then false else overpayment_made_this_year st.
Proof. unfold after_start, start_of_month. block_cases; reflexivity. Qed.

Lemma start_year (d : Data.t) (m : Z) (st : state) :
  current_year (after_start d m st)
  = if (m mod 12 =? 0)%Z then (m / 12)%Z else current_year st.
Proof. unfold after_start, start_of_month. block_cases; reflexivity. Qed.

Lemma accrual_savings (d : Data.t) (s : state) :
  cash_savings (handle_savings d s)
  = if Qltb 0 (available_cash s)
    then cash_savings s
         + (cash_savings s * monthly_savings_rate d * (1 - Data.savings_tax_rate d)
            + available_cash s)
    else cash_savings s.
Proof. unfold handle_savings. block_cases; reflexivity. Qed.

(** ** The event log and the running total *)

(** [balanced s]: the running total is the sum of the logged amounts. *)
Lemma sum_amounts_app (l : list Event.t) (e : Event.t) :
  sum_amounts (l ++ [e]) = sum_amounts l + Event.amount e.
Proof. unfold sum_amounts. rewrite fold_left_app. reflexivity. Qed.

Lemma untouched_refl (s : state) : untouched s s.
Proof. repeat split. Qed.

Lemma untouched_total (s s' : state) :
  untouched s s' ->
  cumulative_overpayments s = sum_amounts (overpayment_events s) ->
  cumulative_overpayments s' = sum_amounts (overpayment_events s').
Proof. intros (_ & _ & -> & ->) H. exact H. Qed.

Lemma overpays_total (m : Z) (x : Q) (k : Event.kind) (s s' : state) :
  overpays m x k s s' ->
  cumulative_overpayments s = sum_amounts (overpayment_events s) ->
  cumulative_overpayments s' = sum_amounts (overpayment_events s').
Proof.
  intros (_ & _ & -> & ->) H. rewrite sum_amounts_app, H. reflexivity.
Qed.

(** Rule 1 seen from the state that follows the start of the month. *)
Lemma rule1_outcome (d : Data.t) (m : Z) (st : state) :
  let s := after_start d m st in
  let s' := after_rule1 d m st in
  let spare := cash_savings s - Data.emergency_buffer d in
  (untouched s s'
   /\ overpayment_made_this_year s' = overpayment_made_this_year s)
  \/ (exists i,
        0 < spare
        /\ overpays m (py_min spare (mortgage_balance s))
             (Event.End_of_fixed_period (i + 1)) s s'
        /\ overpayment_made_this_year s' = false
        /\ end_of_fixed_period s' = true).
Proof.
  cbv zeta.
  destruct (rule1_cases d m st) as [[-> _]|(i & -> & _)];
    generalize (after_start d m st); intro s.
  - left. repeat split.
  - destruct (sweep_outcome d m i (set_end_of_fixed_period false s))
      as [(_ & H1 & H2)|(H0 & H1 & H2)].
    + left. split; [exact H1 | exact H2].
    + right. exists i. split; [exact H0|]. split; [exact H1|].
      split; [exact H2 | apply sweep_end_flag].
Qed.

Lemma total_after_rule3 (d : Data.t) (m : Z) (st : state) :
  cumulative_overpayments st = sum_amounts (overpayment_events st) ->
  cumulative_overpayments (after_rule3 d m st)
  = sum_amounts (overpayment_events (after_rule3 d m st)).
Proof.
  intro H.
  assert (H0 : cumulative_overpayments (after_start d m st)
               = sum_amounts (overpayment_events (after_start d m st)))
    by (rewrite cumulative_start, events_start; exact H).
  assert (H1 : cumulative_overpayments (after_rule1 d m st)
               = sum_amounts (overpayment_events (after_rule1 d m st))).
  { destruct (rule1_outcome d m st) as [[U _]|(i & _ & O & _)].
    - exact (untouched_total _ _ U H0).
    - exact (overpays_total _ _ _ _ _ O H0). }
  unfold after_rule3, after_payment, after_rule2.
  generalize dependent (after_rule1 d m st). intros s1 H1.
  assert (H2 : cumulative_overpayments (variable_rate_overpayment d m s1)
               = sum_amounts (overpayment_events (variable_rate_overpayment d m s1))).
  { destruct (rule2_outcome d m s1) as [U|(_ & _ & _ & O)].
    - exact (untouched_total _ _ U H1).
    - exact (overpays_total _ _ _ _ _ O H1). }
  generalize dependent (variable_rate_overpayment d m s1). intros s2 H2.
  assert (H3 : cumulative_overpayments (regular_payment d m s2)
               = sum_amounts (overpayment_events (regular_payment d m s2)))
    by (rewrite cumulative_regular, events_regular; exact H2).
  generalize dependent (regular_payment d m s2). intros s3 H3.
  destruct (rule3_outcome d m s3) as [[U _]|(_ & _ & _ & _ & O & _)].
  - exact (untouched_total _ _ U H3).
  - exact (overpays_total _ _ _ _ _ O H3).
Qed.

Lemma total_state_at (d : Data.t) (n : nat) :
  cumulative_overpayments (state_at d n)
  = sum_amounts (overpayment_events (state_at d n)).
Proof.
  induction n as [|n IH]; [reflexivity|].
  cbn [state_at]. unfold month_body, after_savings.
  rewrite cumulative_track, events_track, cumulative_accrual, events_accrual.
  apply total_after_rule3, IH.
Qed.

(** The events logged during a month carry that month. *)
Lemma overpays_events (m : Z) (x : Q) (k : Event.kind) (s s' : state) :
  overpays m x k s s' ->
  overpayment_events s' = overpayment_events s ++ [Event.mk m x k].
Proof. intros (_ & _ & _ & H). exact H. Qed.

Lemma untouched_events (s s' : state) :
  untouched s s' -> overpayment_events s' = overpayment_events s.
Proof. intros (_ & _ & _ & H). exact H. Qed.

Lemma month_events (d : Data.t) (m : Z) (st : state) :
  exists l,
    overpayment_events (month_body d m st) = overpayment_events st ++ l
    /\ Forall (fun e => Event.month e = m) l.
Proof.
  unfold month_body, after_savings. rewrite events_track, events_accrual.
  assert (H1 : exists l, overpayment_events (after_rule1 d m st)
                         = overpayment_events st ++ l
                         /\ Forall (fun e => Event.month e = m) l).
  { rewrite <- (events_start d m st).
    destruct (rule1_outcome d m st) as [[U _]|(i & _ & O & _)].
    - exists []. rewrite app_nil_r. split; [apply untouched_events, U | constructor].
    - eexists. split; [apply overpays_events, O|].
      constructor; [reflexivity | constructor]. }
  unfold after_rule3, after_payment, after_rule2.
  generalize dependent (after_rule1 d m st). intros s1 (l1 & E1 & F1).
  assert (H2 : exists l, overpayment_events (variable_rate_overpayment d m s1)
                         = overpayment_events st ++ l
                         /\ Forall (fun e => Event.month e = m) l).
  { destruct (rule2_outcome d m s1) as [U|(_ & _ & _ & O)].
    - exists l1. rewrite (untouched_events _ _ U). split; assumption.
    - exists (l1 ++ [Event.mk m (py_min (py_max 0 (cash_savings s1
                 - Data.emergency_buffer d)) (mortgage_balance s1))
                 Event.Variable_rate_period]).
      rewrite (overpays_events _ _ _ _ _ O), E1, app_assoc.
      split; [reflexivity|]. apply Forall_app. split; [exact F1|].
      constructor; [reflexivity | constructor]. }
  generalize dependent (variable_rate_overpayment d m s1).
  intros s2 (l2 & E2 & F2).
  rewrite <- (events_regular d m s2) in E2.
  generalize dependent (regular_payment d m s2). intros s3 E3.
  destruct (rule3_outcome d m s3) as [[U _]|(_ & _ & _ & _ & O & _)].
  - exists l2. rewrite (untouched_events _ _ U). split; assumption.
  - eexists. rewrite (overpays_events _ _ _ _ _ O), E3, <- app_assoc.
    split; [reflexivity|]. apply Forall_app. split; [exact F2|].
    constructor; [reflexivity | constructor].
Qed.

Lemma events_step (d : Data.t) (n : nat) :
  exists l,
    overpayment_events (state_at d (S n)) = overpayment_events (state_at d n) ++ l
    /\ Forall (fun e => Event.month e = Z.of_nat n) l.
Proof. cbn [state_at]. apply month_events. Qed.

(** At the top of month [n] every logged event is dated before [n]. *)
Lemma events_before (d : Data.t) (n : nat) :
  Forall (fun e => (Event.month e < Z.of_nat n)%Z)
         (overpayment_events (state_at d n)).
Proof.
  induction n as [|n IH]; [constructor|].
  destruct (events_step d n) as (l & -> & Hl).
  apply Forall_app. split.
  - eapply Forall_impl; [|exact IH]. cbv beta. intros e He. lia.
  - eapply Forall_impl; [|exact Hl]. cbv beta. intros e He. lia.
Qed.

(** The log only grows, by events dated no earlier than the current month. *)
Lemma events_extend (d : Data.t) (n k : nat) :
  exists l,
    overpayment_events (state_at d (n + k))
    = overpayment_events (state_at d n) ++ l
    /\ Forall (fun e => (Z.of_nat n <= Event.month e)%Z) l.
Proof.
  induction k as [|k (l & E & F)].
  - exists []. rewrite Nat.add_0_r, app_nil_r. split; [reflexivity | constructor].
  - rewrite Nat.add_succ_r.
    destruct (events_step d (n + k)) as (l' & -> & Hl').
    exists (l ++ l'). rewrite E, app_assoc. split; [reflexivity|].
    apply Forall_app. split; [exact F|].
    eapply Forall_impl; [|exact Hl']. cbv beta. intros e He. lia.
Qed.

Lemma filter_all {A : Type} (f : A -> bool) (l : list A) :
  Forall (fun x => f x = true) l -> filter f l = l.
Proof.
  induction 1 as [|x l Hx _ IH]; [reflexivity|].
  cbn [filter]. rewrite Hx, IH. reflexivity.
Qed.

Lemma filter_none {A : Type} (f : A -> bool) (l : list A) :
  Forall (fun x => f x = false) l -> filter f l = [].
Proof.
  induction 1 as [|x l Hx _ IH]; [reflexivity|].
  cbn [filter]. rewrite Hx, IH. reflexivity.
Qed.

(** The events dated month [n] or earlier are those logged by the end of
    month [n]. *)
Lemma events_up_to_state (d : Data.t) (n m : nat) :
  (S n <= m)%nat ->
  events_up_to (Z.of_nat n) (overpayment_events (state_at d m))
  = overpayment_events (state_at d (S n)).
Proof.
  intro Hm. replace m with (S n + (m - S n))%nat by lia.
  destruct (events_extend d (S n) (m - S n)) as (l & -> & Hl).
  unfold events_up_to. rewrite filter_app, filter_all, filter_none.
  - apply app_nil_r.
  - eapply Forall_impl; [|exact Hl]. cbv beta. intros e He.
    apply Z.leb_gt. lia.
  - eapply Forall_impl; [|exact (events_before d (S n))]. cbv beta.
    intros e He. apply Z.leb_le. lia.
Qed.

(** C10. Every entry of the returned list of cumulative overpayments is the
    sum of the amounts of the events dated that month or earlier, and the
    returned total of overpayments is the sum of the amounts of all events. *)
Theorem cumulative_overpayments_sum_of_events (d : Data.t) :
  let r := run_simulation d in
  Result.total_overpayments_cumulative r
  = map (fun n => sum_amounts
                    (events_up_to (Z.of_nat n) (Result.overpayment_events r)))
        (seq 0 (length (Result.total_overpayments_cumulative r)))
  /\ Result.total_overpayments r = sum_amounts (Result.overpayment_events r).
Proof.
  cbv zeta.
  destruct (run_simulation_outputs d) as (m & Hrun & Hstop & H).
  cbv zeta in H. destruct H as (_ & _ & -> & -> & -> & _).
  split; [|apply total_state_at].
  rewrite cumulative_list_state_at, length_map, length_seq.
  apply map_ext_in. intros n Hn. apply in_seq in Hn.
  rewrite events_up_to_state by lia.
  rewrite <- total_state_at. cbn [state_at]. unfold month_body, at_savings.
  rewrite cumulative_track. reflexivity.
Qed.

(** ** Claims on single months *)

(** C1. The claim says that every recorded mortgage balance is at least 0.
    In the run of [swept_in_month_1] the sweep of month 1 clears the
    balance, the regular payment of the same month is still subtracted, and
    the balance recorded for month 1 is negative. *)
Theorem recorded_balance_negative :
  mortgage_balance (at_rule2 swept_in_month_1 1) == 0
  /\ mortgage_balance (at_payment swept_in_month_1 1) < 0
  /\ exists b,
       nth_error (Result.mortgage_balances (run_simulation swept_in_month_1)) 1
       = Some b
       /\ b < 0.
Proof.
  split; [vm_compute; reflexivity|].
  split; [vm_compute; reflexivity|].
  eexists. split; vm_compute; reflexivity.
Qed.

(** C6, as the engine behaves.  No validation is done: a run produces no
    monthly record exactly when the principal or the horizon is not
    positive; every other configuration is simulated, whatever its term
    and its rates. *)
Theorem no_monthly_records_iff (d : Data.t) :
  Result.mortgage_balances (run_simulation d) = []
  <-> Data.initial_mortgage d <= 0 \/ (Data.total_years_to_simulate d <= 0)%Z.
Proof. exact (no_records_iff d). Qed.

(** C6, as stated, fails: a configuration with negative rates is run and
    produces monthly records. *)
Lemma negative_rates_are_simulated :
  Data.mortgage_rate_after_fixed negative_rates < 0
  /\ Result.mortgage_balances (run_simulation negative_rates) <> [].
Proof.
  split; [reflexivity|].
  intro H. apply no_records_iff in H. destruct H as [H|H].
  - vm_compute in H. apply H. reflexivity.
  - vm_compute in H. apply H. reflexivity.
Qed.

(** The net cash of a month, after rule 3, is income less expenses less the
    regular payment. *)
Lemma available_after_rule3 (d : Data.t) (m : Z) (st : state) :
  available_cash (after_rule3 d m st)
  = monthly_income (after_rule3 d m st) - monthly_expenses (after_rule3 d m st)
    - standard_monthly_payment (after_rule3 d m st).
Proof.
  unfold after_rule3, after_payment.
  rewrite available_rule3, income_rule3, expenses_rule3, payment_rule3.
  rewrite regular_available, income_regular, expenses_regular, payment_regular.
  unfold after_rule2.
  rewrite available_rule2, income_rule2, expenses_rule2, payment_rule2.
  unfold after_rule1.
  rewrite available_rule1, income_rule1, expenses_rule1.
  rewrite start_available. reflexivity.
Qed.

(** C9. In a simulated month whose net available cash (income - expenses -
    regular payment) is not strictly positive, the accrual step leaves the
    savings balance as it is: nothing is drawn and no interest is credited,
    and the balance recorded for the month is the balance before the step. *)
Theorem savings_unchanged_without_spare_cash (d : Data.t) (n : nat) :
  enters d n = true ->
  available_cash (at_rule3 d n) <= 0 ->
  available_cash (at_rule3 d n)
  = monthly_income (at_rule3 d n) - monthly_expenses (at_rule3 d n)
    - standard_monthly_payment (at_rule3 d n)
  /\ cash_savings (at_savings d n) = cash_savings (at_rule3 d n)
  /\ nth_error (Result.savings_balances (run_simulation d)) n
     = Some (cash_savings (at_rule3 d n)).
Proof.
  intros He Ha. rewrite recorded_savings, He.
  unfold at_savings, after_savings, at_rule3 in *.
  rewrite accrual_savings, (proj2 (Qltb_false _ _) Ha).
  split; [exact (available_after_rule3 d (Z.of_nat n) (state_at d n))|].
  split; reflexivity.
Qed.

Lemma savings_unchanged_without_spare_cash_witness :
  enters no_spare_cash 0 = true
  /\ available_cash (at_rule3 no_spare_cash 0) <= 0
  /\ 0 < cash_savings (at_rule3 no_spare_cash 0)
  /\ cash_savings (at_savings no_spare_cash 0)
     = cash_savings (at_rule3 no_spare_cash 0).
Proof.
  assert (He : enters no_spare_cash 0 = true) by (vm_compute; reflexivity).
  assert (Ha : available_cash (at_rule3 no_spare_cash 0) <= 0)
    by (vm_compute; discriminate).
  split; [exact He|]. split; [exact Ha|].
  split; [vm_compute; reflexivity|].
  exact (proj1 (proj2 (savings_unchanged_without_spare_cash
                         no_spare_cash 0 He Ha))).
Defined.

(** ** Every logged event comes from a rule applied in a simulated month *)

Lemma applied_untouched (e : Event.t) (s s' : state) :
  applied e s s' -> untouched s s' -> False.
Proof.
  intros (_ & _ & _ & H) (_ & _ & _ & H'). rewrite H' in H.
  apply (f_equal (@length Event.t)) in H. rewrite length_app in H.
  cbn [length] in H. lia.
Qed.

Lemma applied_overpays (e : Event.t) (m : Z) (x : Q) (k : Event.kind)
    (s s' : state) :
  applied e s s' -> overpays m x k s s' ->
  Event.month e = m /\ Event.amount e = x /\ Event.type e = k.
Proof.
  intros (_ & _ & _ & H) (_ & _ & _ & H'). rewrite H' in H.
  apply app_inj_tail in H. destruct H as [_ H]. inversion H. repeat split.
Qed.

Lemma overpays_applied (m : Z) (x : Q) (k : Event.kind) (s s' : state) :
  overpays m x k s s' -> applied (Event.mk m x k) s s'.
Proof. intro H. exact H. Qed.

(** The events in the log at the end of month [n] were there at its top or
    are applied by a rule during the month. *)
Lemma month_log (d : Data.t) (n : nat) (e : Event.t) :
  In e (overpayment_events (state_at d (S n))) ->
  In e (overpayment_events (state_at d n)) \/ exists s s', logs d n e s s'.
Proof.
  cbn [state_at]. unfold month_body, after_savings.
  rewrite events_track, events_accrual.
  pose proof (rule1_outcome d (Z.of_nat n) (state_at d n)) as R1.
  pose proof (rule2_outcome d (Z.of_nat n) (at_rule1 d n)) as R2.
  pose proof (rule3_outcome d (Z.of_nat n) (at_payment d n)) as R3.
  cbv zeta in R1, R2, R3.
  change (after_start d (Z.of_nat n) (state_at d n)) with (at_start d n) in R1.
  change (after_rule1 d (Z.of_nat n) (state_at d n)) with (at_rule1 d n) in R1.
  change (variable_rate_overpayment d (Z.of_nat n) (at_rule1 d n))
    with (at_rule2 d n) in R2.
  change (annual_overpayment d (Z.of_nat n) (at_payment d n))
    with (at_rule3 d n) in R3.
  change (after_rule3 d (Z.of_nat n) (state_at d n)) with (at_rule3 d n).
  assert (E0 : overpayment_events (at_start d n)
               = overpayment_events (state_at d n))
    by (unfold at_start; apply events_start).
  assert (E2 : overpayment_events (at_payment d n)
               = overpayment_events (at_rule2 d n))
    by (unfold at_payment, after_payment; apply events_regular).
  assert (A1 : In e (overpayment_events (at_rule1 d n)) ->
               In e (overpayment_events (state_at d n))
               \/ exists s s', logs d n e s s').
  { rewrite <- E0. destruct R1 as [[U _]|(i & _ & O & _)].
    - rewrite (untouched_events _ _ U). intro H; left; exact H.
    - rewrite (overpays_events _ _ _ _ _ O). intro H.
      apply in_app_or in H. destruct H as [H|[<-|[]]]; [left; exact H|].
      right. eexists _, _. apply logs_rule1, overpays_applied, O. }
  assert (A2 : In e (overpayment_events (at_rule2 d n)) ->
               In e (overpayment_events (at_rule1 d n))
               \/ exists s s', logs d n e s s').
  { destruct R2 as [U|(_ & _ & _ & O)].
    - rewrite (untouched_events _ _ U). intro H; left; exact H.
    - rewrite (overpays_events _ _ _ _ _ O). intro H.
      apply in_app_or in H. destruct H as [H|[<-|[]]]; [left; exact H|].
      right. eexists _, _. apply logs_rule2, overpays_applied, O. }
  assert (A3 : In e (overpayment_events (at_rule3 d n)) ->
               In e (overpayment_events (at_rule2 d n))
               \/ exists s s', logs d n e s s').
  { rewrite <- E2. destruct R3 as [[U _]|(_ & _ & _ & _ & O & _)].
    - rewrite (untouched_events _ _ U). intro H; left; exact H.
    - rewrite (overpays_events _ _ _ _ _ O). intro H.
      apply in_app_or in H. destruct H as [H|[<-|[]]]; [left; exact H|].
      right. eexists _, _. apply logs_rule3, overpays_applied, O. }
  intro H3.
  destruct (A3 H3) as [H2|L]; [|right; exact L].
  destruct (A2 H2) as [H1|L]; [|right; exact L].
  exact (A1 H1).
Qed.

(** The log at the top of month [m] holds only events applied by a rule in
    an earlier month. *)
Lemma events_are_logged (d : Data.t) (m : nat) (e : Event.t) :
  In e (overpayment_events (state_at d m)) ->
  exists n s s', (n < m)%nat /\ logs d n e s s'.
Proof.
  induction m as [|m IH]; [intros []|].
  intro H. destruct (month_log d m e H) as [H'|(s & s' & L)].
  - destruct (IH H') as (n & s & s' & Hn & L).
    exists n, s, s'. split; [lia | exact L].
  - exists m, s, s'. split; [lia | exact L].
Qed.

(** Conversely, what a rule applies in a month is in the log from the end
    of that month on. *)
Lemma logs_events_month (d : Data.t) (n : nat) (e : Event.t) (s s' : state) :
  logs d n e s s' -> In e (overpayment_events (state_at d (S n))).
Proof.
  cbn [state_at]. unfold month_body, after_savings.
  rewrite events_track, events_accrual.
  pose proof (rule2_outcome d (Z.of_nat n) (at_rule1 d n)) as R2.
  pose proof (rule3_outcome d (Z.of_nat n) (at_payment d n)) as R3.
  cbv zeta in R2, R3.
  change (variable_rate_overpayment d (Z.of_nat n) (at_rule1 d n))
    with (at_rule2 d n) in R2.
  change (annual_overpayment d (Z.of_nat n) (at_payment d n))
    with (at_rule3 d n) in R3.
  change (after_rule3 d (Z.of_nat n) (state_at d n)) with (at_rule3 d n).
  assert (E2 : overpayment_events (at_payment d n)
               = overpayment_events (at_rule2 d n))
    by (unfold at_payment, after_payment; apply events_regular).
  assert (M2 : forall x, In x (overpayment_events (at_rule1 d n)) ->
                         In x (overpayment_events (at_rule2 d n))).
  { intros x Hx. destruct R2 as [U|(_ & _ & _ & O)].
    - rewrite (untouched_events _ _ U). exact Hx.
    - rewrite (overpays_events _ _ _ _ _ O). apply in_or_app. left; exact Hx. }
  assert (M3 : forall x, In x (overpayment_events (at_rule2 d n)) ->
                         In x (overpayment_events (at_rule3 d n))).
  { intros x Hx. rewrite <- E2 in Hx.
    destruct R3 as [[U _]|(_ & _ & _ & _ & O & _)].
    - rewrite (untouched_events _ _ U). exact Hx.
    - rewrite (overpays_events _ _ _ _ _ O). apply in_or_app. left; exact Hx. }
  assert (Last : forall a b, applied e a b -> In e (overpayment_events b)).
  { intros a b (_ & _ & _ & ->). apply in_or_app. right. left.
    destruct e; reflexivity. }
  intro L. inversion L as [A Ha Hb|A Ha Hb|A Ha Hb].
  - apply M3, M2, (Last _ _ A).
  - apply M3, (Last _ _ A).
  - apply (Last _ _ A).
Qed.

Lemma events_grow (d : Data.t) (n m : nat) (e : Event.t) :
  (n <= m)%nat ->
  In e (overpayment_events (state_at d n)) ->
  In e (overpayment_events (state_at d m)).
Proof.
  intros Hnm H. replace m with (n + (m - n))%nat by lia.
  destruct (events_extend d n (m - n)) as (l & -> & _).
  apply in_or_app. left; exact H.
Qed.

(** The returned log holds exactly the events applied in simulated months. *)
Lemma returned_events (d : Data.t) (e : Event.t) :
  In e (Result.overpayment_events (run_simulation d))
  <-> exists n s s', enters d n = true /\ logs d n e s s'.
Proof.
  destruct (run_simulation_outputs d) as (m & Hrun & Hstop & H).
  cbv zeta in H. destruct H as (_ & _ & _ & -> & _).
  pose proof (enters_iff_before_stop d m) as Hiff.
  split.
  - intro Hin. destruct (events_are_logged d m e Hin) as (n & s & s' & Hn & L).
    exists n, s, s'. split; [apply (Hiff n Hrun Hstop), Hn | exact L].
  - intros (n & s & s' & He & L).
    apply (events_grow d (S n) m).
    + apply (Hiff n Hrun Hstop) in He. lia.
    + exact (logs_events_month d n e s s' L).
Qed.

(** ** What every applied overpayment satisfies *)

Lemma logs_facts (d : Data.t) (n : nat) (e : Event.t) (s s' : state) :
  enters d n = true -> logs d n e s s' ->
  Event.month e = Z.of_nat n
  /\ 0 <= Event.amount e
  /\ Event.amount e <= mortgage_balance s
  /\ (Event.is_variable e = false -> 0 < Event.amount e)
  /\ (0 < Data.min_overpayment_threshold d -> 0 < Event.amount e)
  /\ (0 < Event.amount e -> Data.emergency_buffer d <= cash_savings s').
Proof.
  intros He L.
  pose proof (enters_balance_pos d n He) as Hpos.
  pose proof (rule1_outcome d (Z.of_nat n) (state_at d n)) as R1.
  pose proof (rule2_outcome d (Z.of_nat n) (at_rule1 d n)) as R2.
  pose proof (rule3_outcome d (Z.of_nat n) (at_payment d n)) as R3.
  cbv zeta in R1, R2, R3.
  change (after_start d (Z.of_nat n) (state_at d n)) with (at_start d n) in R1.
  change (after_rule1 d (Z.of_nat n) (state_at d n)) with (at_rule1 d n) in R1.
  change (variable_rate_overpayment d (Z.of_nat n) (at_rule1 d n))
    with (at_rule2 d n) in R2.
  change (annual_overpayment d (Z.of_nat n) (at_payment d n))
    with (at_rule3 d n) in R3.
  assert (B0 : mortgage_balance (at_start d n) = mortgage_balance (state_at d n))
    by (unfold at_start; apply balance_start).
  inversion L as [A Ha Hb|A Ha Hb|A Ha Hb]; subst s s'.
  - (* rule 1 *)
    destruct R1 as [[U _]|(i & Hs & O & _)];
      [destruct (applied_untouched _ _ _ A U)|].
    destruct (applied_overpays _ _ _ _ _ _ A O) as (Em & Ea & Et).
    destruct O as (_ & Os & _). rewrite Os, Ea. clear A Os.
    unfold Event.is_variable. rewrite Et.
    set (spare := cash_savings (at_start d n) - Data.emergency_buffer d) in *.
    rewrite <- B0 in Hpos.
    pose proof (py_min_pos _ _ Hs Hpos).
    pose proof (py_min_le_l spare (mortgage_balance (at_start d n))).
    pose proof (py_min_le_r spare (mortgage_balance (at_start d n))).
    repeat split; try assumption; try (intros; assumption).
    + lra.
    + intros _. unfold spare in *. lra.
  - (* rule 2 *)
    destruct R2 as [U|(Hflag & _ & Hth & O)];
      [destruct (applied_untouched _ _ _ A U)|].
    destruct (applied_overpays _ _ _ _ _ _ A O) as (Em & Ea & Et).
    destruct O as (_ & Os & _). rewrite Os, Ea. clear A Os.
    assert (Hpos1 : 0 < mortgage_balance (at_rule1 d n)).
    { destruct R1 as [[(Ub & _) _]|(i & _ & _ & _ & Hend)].
      - rewrite Ub, B0. exact Hpos.
      - rewrite Hend in Hflag. discriminate. }
    set (spare := cash_savings (at_rule1 d n) - Data.emergency_buffer d) in *.
    set (bal := mortgage_balance (at_rule1 d n)) in *.
    pose proof (py_min_le_l (py_max 0 spare) bal).
    pose proof (py_min_le_r (py_max 0 spare) bal).
    destruct (py_min_cases (py_max 0 spare) bal) as [[Hc Hm]|[Hc Hm]];
      destruct (py_max_cases 0 spare) as [[Hd Hx]|[Hd Hx]];
      rewrite Hm in *; try rewrite Hx in *;
      unfold Event.is_variable; rewrite Et;
      (split; [exact Em|]);
      repeat split; try (intros; discriminate); intros; unfold spare in *;
      try lra.
  - (* rule 3 *)
    destruct R3 as [[U _]|(_ & Hs & _ & Hx & O & _)];
      [destruct (applied_untouched _ _ _ A U)|].
    destruct (applied_overpays _ _ _ _ _ _ A O) as (Em & Ea & Et).
    destruct O as (_ & Os & _). rewrite Os, Ea. clear A Os.
    unfold Event.is_variable. rewrite Et.
    set (spare := cash_savings (at_payment d n) - Data.emergency_buffer d) in *.
    pose proof (py_min3_le_1 spare (yearly_overpayment_limit (at_payment d n))
                  (mortgage_balance (at_payment d n))).
    pose proof (py_min3_le_3 spare (yearly_overpayment_limit (at_payment d n))
                  (mortgage_balance (at_payment d n))).
    repeat split; try assumption; try (intros; assumption).
    + lra.
    + intros _. unfold spare in *. lra.
Qed.

(** *** Savings stay non-negative under a sound configuration *)

Lemma savings_nonneg_month (d : Data.t) (m : Z) (st : state) :
  0 <= Data.emergency_buffer d ->
  0 <= Data.savings_rate d ->
  Data.savings_tax_rate d <= 1 ->
  0 <= cash_savings st ->
  0 <= cash_savings (after_savings d m st).
Proof.
  intros HB Hr Ht H.
  rewrite <- (savings_start d m st) in H.
  assert (H1 : 0 <= cash_savings (after_rule1 d m st)).
  { destruct (rule1_outcome d m st) as [[(_ & -> & _) _]|(i & Hs & O & _)];
      [exact H|].
    destruct O as (_ & -> & _).
    pose proof (py_min_le_l
                  (cash_savings (after_start d m st) - Data.emergency_buffer d)
                  (mortgage_balance (after_start d m st))).
    lra. }
  clear H. unfold after_savings, after_rule3, after_payment, after_rule2.
  generalize dependent (after_rule1 d m st). intros s1 H1.
  assert (H2 : 0 <= cash_savings (variable_rate_overpayment d m s1)).
  { destruct (rule2_outcome d m s1) as [(_ & -> & _)|(_ & _ & _ & O)];
      [exact H1|].
    destruct O as (_ & -> & _).
    pose proof (py_min_le_l
                  (py_max 0 (cash_savings s1 - Data.emergency_buffer d))
                  (mortgage_balance s1)).
    destruct (py_max_cases 0 (cash_savings s1 - Data.emergency_buffer d))
      as [[Hd Hx]|[Hd Hx]]; rewrite Hx in *; lra. }
  generalize dependent (variable_rate_overpayment d m s1). intros s2 H2.
  rewrite <- (savings_regular d m s2) in H2.
  generalize dependent (regular_payment d m s2). intros s3 H3.
  assert (H4 : 0 <= cash_savings (annual_overpayment d m s3)).
  { destruct (rule3_outcome d m s3)
      as [[(_ & -> & _) _]|(_ & _ & _ & _ & O & _)]; [exact H3|].
    destruct O as (_ & -> & _).
    pose proof (py_min3_le_1 (cash_savings s3 - Data.emergency_buffer d)
                  (yearly_overpayment_limit s3) (mortgage_balance s3)).
    lra. }
  generalize dependent (annual_overpayment d m s3). intros s4 H4.
  rewrite accrual_savings. destruct (Qltb 0 (available_cash s4)) eqn:E;
    [|exact H4].
  apply Qltb_true in E.
  assert (0 <= cash_savings s4 * monthly_savings_rate d
               * (1 - Data.savings_tax_rate d)).
  { apply Qmult_le_0_compat; [apply Qmult_le_0_compat|].
    - exact H4.
    - unfold monthly_savings_rate. apply Qle_shift_div_l; [reflexivity | lra].
    - lra. }
  lra.
Qed.

Lemma savings_nonneg_state_at (d : Data.t) (n : nat) :
  0 <= Data.initial_savings d ->
  0 <= Data.emergency_buffer d ->
  0 <= Data.savings_rate d ->
  Data.savings_tax_rate d <= 1 ->
  0 <= cash_savings (state_at d n).
Proof.
  intros H0 HB Hr Ht. induction n as [|n IH]; [exact H0|].
  cbn [state_at]. unfold month_body. rewrite savings_track.
  apply savings_nonneg_month; assumption.
Qed.

(** The zero-amount event that rule 2 logs in month 2 of [zero_threshold]. *)
Lemma zero_threshold_event :
  enters zero_threshold 2 = true
  /\ logs zero_threshold 2 (Event.mk 2 0 Event.Variable_rate_period)
       (at_rule1 zero_threshold 2) (at_rule2 zero_threshold 2)
  /\ cash_savings (at_rule2 zero_threshold 2)
     < Data.emergency_buffer zero_threshold.
Proof.
  split; [vm_compute; reflexivity|]. split.
  - apply logs_rule2. unfold applied, overpays.
    split; [|split; [|split]]; vm_compute; reflexivity.
  - vm_compute; reflexivity.
Qed.

(** C5, as the engine behaves.  Every event of the returned log is applied
    by one of the three rules in a simulated month; its amount is at least
    0 and at most the balance outstanding immediately before; it is
    strictly positive for rules 1 and 3, and for rule 2 as soon as the
    minimum threshold is positive. *)
Theorem event_amount_bounds (d : Data.t) (e : Event.t) :
  In e (Result.overpayment_events (run_simulation d)) ->
  exists n s s',
    enters d n = true /\ logs d n e s s'
    /\ 0 <= Event.amount e
    /\ Event.amount e <= mortgage_balance s
    /\ (Event.is_variable e = false -> 0 < Event.amount e)
    /\ (0 < Data.min_overpayment_threshold d -> 0 < Event.amount e).
Proof.
  intro Hin. apply returned_events in Hin.
  destruct Hin as (n & s & s' & He & L).
  destruct (logs_facts d n e s s' He L) as (_ & H1 & H2 & H3 & H4 & _).
  exists n, s, s'. repeat split; assumption.
Qed.

Lemma event_amount_bounds_witness :
  In (Event.mk 0 (0.10 * 1000) (Event.Annual_overpayment 1))
     (Result.overpayment_events (run_simulation swept_in_month_1))
  /\ exists n s s',
       enters swept_in_month_1 n = true
       /\ logs swept_in_month_1 n
            (Event.mk 0 (0.10 * 1000) (Event.Annual_overpayment 1)) s s'
       /\ 0 <= 0.10 * 1000
       /\ 0.10 * 1000 <= mortgage_balance s
       /\ (false = false -> 0 < 0.10 * 1000)
       /\ (0 < 500 -> 0 < 0.10 * 1000).
Proof.
  assert (H : In (Event.mk 0 (0.10 * 1000) (Event.Annual_overpayment 1))
                 (Result.overpayment_events (run_simulation swept_in_month_1)))
    by (vm_compute; left; reflexivity).
  split; [exact H|].
  exact (event_amount_bounds swept_in_month_1 _ H).
Defined.

(** C5, as stated, fails: with a threshold of 0 rule 2 logs an event of
    amount 0. *)
Lemma zero_amount_event_logged :
  In (Event.mk 2 0 Event.Variable_rate_period)
     (Result.overpayment_events (run_simulation zero_threshold))
  /\ ~ 0 < Event.amount (Event.mk 2 0 Event.Variable_rate_period).
Proof.
  destruct zero_threshold_event as (He & L & _).
  split.
  - apply (proj2 (returned_events zero_threshold _)).
    exact (ex_intro _ 2%nat (ex_intro _ _ (ex_intro _ _ (conj He L)))).
  - intro H. discriminate H.
Qed.

(** What an overpayment of a positive amount takes from the savings: the
    savings it finds are above the emergency buffer, it takes no more than
    the spare cash, the difference [cash_savings - emergency_buffer] that
    the rule computes, and the savings are lowered by the amount. *)
Lemma logs_spare (d : Data.t) (n : nat) (e : Event.t) (s s' : state) :
  logs d n e s s' -> 0 < Event.amount e ->
  Data.emergency_buffer d < cash_savings s
  /\ Event.amount e <= cash_savings s - Data.emergency_buffer d
  /\ cash_savings s' = cash_savings s - Event.amount e.
Proof.
  intros L Hpos.
  pose proof (rule1_outcome d (Z.of_nat n) (state_at d n)) as R1.
  pose proof (rule2_outcome d (Z.of_nat n) (at_rule1 d n)) as R2.
  pose proof (rule3_outcome d (Z.of_nat n) (at_payment d n)) as R3.
  cbv zeta in R1, R2, R3.
  change (after_start d (Z.of_nat n) (state_at d n)) with (at_start d n) in R1.
  change (after_rule1 d (Z.of_nat n) (state_at d n)) with (at_rule1 d n) in R1.
  change (variable_rate_overpayment d (Z.of_nat n) (at_rule1 d n))
    with (at_rule2 d n) in R2.
  change (annual_overpayment d (Z.of_nat n) (at_payment d n))
    with (at_rule3 d n) in R3.
  inversion L as [A Ha Hb|A Ha Hb|A Ha Hb]; subst s s'.
  - (* rule 1 *)
    clear R2 R3.
    destruct R1 as [[U _]|(i & Hs & O & _)];
      [destruct (applied_untouched _ _ _ A U)|].
    destruct (applied_overpays _ _ _ _ _ _ A O) as (_ & Ea & _).
    destruct O as (_ & Os & _). rewrite Os, Ea. clear A Os Ea Hpos.
    set (spare := cash_savings (at_start d n) - Data.emergency_buffer d) in *.
    pose proof (py_min_le_l spare (mortgage_balance (at_start d n))).
    split; [unfold spare in Hs; lra|]. split; [assumption | reflexivity].
  - (* rule 2 *)
    clear R1 R3.
    destruct R2 as [U|(_ & _ & _ & O)];
      [destruct (applied_untouched _ _ _ A U)|].
    destruct (applied_overpays _ _ _ _ _ _ A O) as (_ & Ea & _).
    destruct O as (_ & Os & _). rewrite Os. rewrite Ea in Hpos |- *.
    clear A Os Ea.
    set (spare := cash_savings (at_rule1 d n) - Data.emergency_buffer d) in *.
    set (bal := mortgage_balance (at_rule1 d n)) in *.
    pose proof (py_min_le_l (py_max 0 spare) bal) as Hle.
    destruct (py_max_cases 0 spare) as [[Hd Hx]|[Hd Hx]]; rewrite Hx in *.
    + split; [unfold spare in Hd; lra|]. split; [exact Hle | reflexivity].
    + exfalso. lra.
  - (* rule 3 *)
    clear R1 R2.
    destruct R3 as [[U _]|(_ & Hs & _ & _ & O & _)];
      [destruct (applied_untouched _ _ _ A U)|].
    destruct (applied_overpays _ _ _ _ _ _ A O) as (_ & Ea & _).
    destruct O as (_ & Os & _). rewrite Os, Ea. clear A Os Ea Hpos.
    set (spare := cash_savings (at_payment d n) - Data.emergency_buffer d) in *.
    pose proof (py_min3_le_1 spare (yearly_overpayment_limit (at_payment d n))
                  (mortgage_balance (at_payment d n))).
    split; [unfold spare in Hs; lra|]. split; [assumption | reflexivity].
Qed.

(** C4, as the engine behaves.  Any overpayment of a positive amount, by any
    of the three rules, is made from savings that are above the emergency
    buffer, takes no more than the spare cash, the difference
    [cash_savings - emergency_buffer] that the rule computes, and lowers the
    savings by the amount it takes.  And when the initial savings and the
    buffer are at least 0, the savings rate is at least 0 and the tax rate
    at most 1, every recorded savings balance and the final savings are at
    least 0. *)
Theorem overpayments_within_spare_cash (d : Data.t) :
  (forall e,
     In e (Result.overpayment_events (run_simulation d)) ->
     0 < Event.amount e ->
     exists n s s',
       enters d n = true /\ logs d n e s s'
       /\ Data.emergency_buffer d < cash_savings s
       /\ Event.amount e <= cash_savings s - Data.emergency_buffer d
       /\ cash_savings s' = cash_savings s - Event.amount e)
  /\ (0 <= Data.initial_savings d ->
      0 <= Data.emergency_buffer d ->
      0 <= Data.savings_rate d ->
      Data.savings_tax_rate d <= 1 ->
      Forall (fun x => 0 <= x) (Result.savings_balances (run_simulation d))
      /\ 0 <= Result.final_savings (run_simulation d)).
Proof.
  split.
  - intros e Hin Hpos. apply returned_events in Hin.
    destruct Hin as (n & s & s' & He & L).
    exists n, s, s'. split; [exact He|]. split; [exact L|].
    exact (logs_spare d n e s s' L Hpos).
  - intros H0 HB Hr Ht.
    destruct (run_simulation_outputs d) as (m & _ & _ & H).
    cbv zeta in H. destruct H as (_ & -> & _ & _ & _ & -> & _).
    split; [|apply savings_nonneg_state_at; assumption].
    rewrite savings_balances_state_at. apply Forall_forall.
    intros x Hx. apply in_map_iff in Hx. destruct Hx as (j & <- & _).
    unfold at_savings. apply savings_nonneg_month; try assumption.
    apply savings_nonneg_state_at; assumption.
Qed.

Lemma overpayments_within_spare_cash_witness :
  In (Event.mk 0 (0.10 * 1000) (Event.Annual_overpayment 1))
     (Result.overpayment_events (run_simulation swept_in_month_1))
  /\ 0 < 0.10 * 1000
  /\ (exists n s s',
        enters swept_in_month_1 n = true
        /\ logs swept_in_month_1 n
             (Event.mk 0 (0.10 * 1000) (Event.Annual_overpayment 1)) s s'
        /\ Data.emergency_buffer swept_in_month_1 < cash_savings s
        /\ 0.10 * 1000 <= cash_savings s - Data.emergency_buffer swept_in_month_1
        /\ cash_savings s' = cash_savings s - 0.10 * 1000)
  /\ 0 <= Data.initial_savings swept_in_month_1
  /\ 0 <= Data.emergency_buffer swept_in_month_1
  /\ 0 <= Data.savings_rate swept_in_month_1
  /\ Data.savings_tax_rate swept_in_month_1 <= 1
  /\ Forall (fun x => 0 <= x)
       (Result.savings_balances (run_simulation swept_in_month_1))
  /\ 0 <= Result.final_savings (run_simulation swept_in_month_1).
Proof.
  assert (Hin : In (Event.mk 0 (0.10 * 1000) (Event.Annual_overpayment 1))
                   (Result.overpayment_events (run_simulation swept_in_month_1)))
    by (vm_compute; left; reflexivity).
  assert (Hpos : 0 < 0.10 * 1000) by reflexivity.
  assert (H0 : 0 <= Data.initial_savings swept_in_month_1)
    by (vm_compute; discriminate).
  assert (HB : 0 <= Data.emergency_buffer swept_in_month_1)
    by (vm_compute; discriminate).
  assert (Hr : 0 <= Data.savings_rate swept_in_month_1)
    by (vm_compute; discriminate).
  assert (Ht : Data.savings_tax_rate swept_in_month_1 <= 1)
    by (vm_compute; discriminate).
  split; [exact Hin|]. split; [exact Hpos|].
  split;
    [exact (proj1 (overpayments_within_spare_cash swept_in_month_1) _ Hin Hpos)|].
  split; [exact H0|]. split; [exact HB|]. split; [exact Hr|].
  split; [exact Ht|].
  exact (proj2 (overpayments_within_spare_cash swept_in_month_1) H0 HB Hr Ht).
Defined.

(** C4, as stated, fails twice.  With a negative emergency buffer rule 3
    takes the savings of [negative_buffer] from 0 to a negative balance in
    month 0; and with a threshold of 0 rule 2 logs an overpayment in month 2
    of [zero_threshold] that leaves the savings below the buffer. *)
Lemma savings_claim_fails :
  (0 <= Data.initial_savings negative_buffer
   /\ exists x,
        nth_error (Result.savings_balances (run_simulation negative_buffer)) 0
        = Some x
        /\ x < 0)
  /\ (0 <= Data.initial_savings zero_threshold
      /\ exists e s s',
           In e (Result.overpayment_events (run_simulation zero_threshold))
           /\ logs zero_threshold 2 e s s'
           /\ cash_savings s' < Data.emergency_buffer zero_threshold).
Proof.
  split.
  - split; [vm_compute; discriminate|].
    exists (cash_savings (at_savings negative_buffer 0)).
    split; [|vm_compute; reflexivity].
    rewrite (recorded_savings negative_buffer 0).
    replace (enters negative_buffer 0) with true by (vm_compute; reflexivity).
    reflexivity.
  - split; [vm_compute; discriminate|].
    destruct zero_threshold_event as (He & L & Hlt).
    exists (Event.mk 2 0 Event.Variable_rate_period),
      (at_rule1 zero_threshold 2), (at_rule2 zero_threshold 2).
    split; [|split; [exact L | exact Hlt]].
    apply (proj2 (returned_events zero_threshold _)).
    exact (ex_intro _ 2%nat (ex_intro _ _ (ex_intro _ _ (conj He L)))).
Qed.

(** ** The standard monthly payment *)

(** After rule 1 nothing in the month assigns the payment. *)
Lemma payment_after_rule1 (d : Data.t) (m : Z) (st : state) :
  standard_monthly_payment (month_body d m st)
  = standard_monthly_payment (after_rule1 d m st).
Proof.
  unfold month_body, after_savings, after_rule3, after_payment, after_rule2.
  rewrite payment_track, payment_accrual, payment_rule3, payment_regular,
    payment_rule2.
  reflexivity.
Qed.

Lemma payment_rule1 (d : Data.t) (m : Z) (st : state) :
  ((forall p, In p (fixed_period_schedule d) -> snd (fst p) <> m) ->
   standard_monthly_payment (after_rule1 d m st) = standard_monthly_payment st)
  /\ ((exists p, In p (fixed_period_schedule d) /\ snd (fst p) = m) ->
      standard_monthly_payment (after_rule1 d m st)
      = if Qltb 0 (mortgage_balance (after_rule1 d m st))
        then pmt (applicable_rate d m / 12)
                 (Data.mortgage_term_years d * 12 - m)
                 (- mortgage_balance (after_rule1 d m st))
        else standard_monthly_payment st).
Proof.
  rewrite <- (payment_start d m st).
  destruct (rule1_cases d m st) as [[-> Hno]|(i & -> & Hyes)];
    generalize (after_start d m st); intro s.
  - split; [reflexivity|].
    intros (p & Hin & Hp). destruct (Hno p Hin Hp).
  - split.
    + intro Hno. destruct Hyes as (p & Hin & Hp). destruct (Hno p Hin Hp).
    + intros _. apply (sweep_payment d m i (set_end_of_fixed_period false s)).
Qed.

(** C3, as the engine behaves.  The payment is recomputed only in a month
    that ends a fixed period: there, once the sweep is done and if a
    positive balance is left, it becomes the annuity payment of that balance
    over the original term less the months elapsed, at the rate that applies
    from that month on.  In every other month the payment is what it was,
    and no overpayment of rule 2 or rule 3 changes it. *)
Theorem payment_recomputed_at_period_ends (d : Data.t) (n : nat) :
  standard_monthly_payment (state_at d (S n))
  = standard_monthly_payment (at_rule1 d n)
  /\ ((forall p, In p (fixed_period_schedule d) -> snd (fst p) <> Z.of_nat n) ->
      standard_monthly_payment (state_at d (S n))
      = standard_monthly_payment (state_at d n))
  /\ ((exists p, In p (fixed_period_schedule d) /\ snd (fst p) = Z.of_nat n) ->
      standard_monthly_payment (state_at d (S n))
      = if Qltb 0 (mortgage_balance (at_rule1 d n))
        then pmt (applicable_rate d (Z.of_nat n) / 12)
                 (Data.mortgage_term_years d * 12 - Z.of_nat n)
                 (- mortgage_balance (at_rule1 d n))
        else standard_monthly_payment (state_at d n)).
Proof.
  cbn [state_at]. unfold at_rule1. rewrite payment_after_rule1.
  destruct (payment_rule1 d (Z.of_nat n) (state_at d n)) as [H1 H2].
  split; [reflexivity|]. split; [exact H1 | exact H2].
Qed.

(** C3, as stated, fails: in month 0 of [swept_in_month_1] rule 3 applies an
    overpayment, and the payment of the next month is still the payment
    computed at the start, not a re-amortisation of the new balance. *)
Lemma payment_kept_after_annual_overpayment :
  logs swept_in_month_1 0
    (Event.mk 0 (0.10 * 1000) (Event.Annual_overpayment 1))
    (at_payment swept_in_month_1 0) (at_rule3 swept_in_month_1 0)
  /\ standard_monthly_payment (state_at swept_in_month_1 1)
     = standard_monthly_payment (initial_state swept_in_month_1)
  /\ ~ standard_monthly_payment (state_at swept_in_month_1 1)
       == pmt (applicable_rate swept_in_month_1 0 / 12)
              (Data.mortgage_term_years swept_in_month_1 * 12 - 0)
              (- mortgage_balance (state_at swept_in_month_1 1))
  /\ ~ standard_monthly_payment (state_at swept_in_month_1 1)
       == pmt (applicable_rate swept_in_month_1 1 / 12)
              (Data.mortgage_term_years swept_in_month_1 * 12 - 1)
              (- mortgage_balance (state_at swept_in_month_1 1)).
Proof.
  split.
  { apply logs_rule3. unfold applied, overpays.
    split; [|split; [|split]]; vm_compute; reflexivity. }
  split; [vm_compute; reflexivity|].
  split; vm_compute; intro H; discriminate H.
Qed.

(** ** Zero rates *)

Lemma pmt_zero_rate (r : Q) (n : Z) (pv : Q) :
  r == 0 -> pmt r n pv == - pv / inject_Z n.
Proof.
  intro Hr. unfold pmt. rewrite (Qeq_eq_bool _ _ Hr).
  assert (Ht : (1 + r) ^ n == 1).
  { assert (H1 : 1 + r == 1) by (rewrite Hr; ring).
    rewrite H1. apply Qpower_1. }
  rewrite Ht. unfold Qdiv. ring.
Qed.

Lemma schedule_from_rates (periods : list (Z * Q)) :
  Forall (fun p => snd p == 0) periods ->
  forall start, Forall (fun p : period => snd p == 0) (schedule_from start periods).
Proof.
  induction 1 as [|[len r] rest Hr _ IH]; intro start; cbn [schedule_from].
  - constructor.
  - constructor; [exact Hr | apply IH].
Qed.

Lemma rate_at_zero (schedule : list period) (default : Q) (m : Z) :
  Forall (fun p : period => snd p == 0) schedule -> default == 0 ->
  rate_at schedule default m == 0.
Proof.
  intros Hs Hd. induction Hs as [|[[s e] r] rest Hr _ IH]; cbn [rate_at].
  - exact Hd.
  - destruct ((s <=? m)%Z && (m <? e)%Z)%bool; [exact Hr | exact IH].
Qed.

Section Zero_rates.

Variable d : Data.t.
Hypothesis variable_zero : Data.mortgage_rate_after_fixed d == 0.
Hypothesis fixed_zero : Forall (fun p => snd p == 0) (Data.fixed_periods d).

Lemma applicable_rate_zero (m : Z) : applicable_rate d m == 0.
Proof.
  unfold applicable_rate. apply rate_at_zero; [|exact variable_zero].
  apply schedule_from_rates, fixed_zero.
Qed.

Lemma current_rate_zero : current_rate d == 0.
Proof.
  unfold current_rate.
  pose proof (schedule_from_rates _ fixed_zero 0%Z) as H.
  fold (fixed_period_schedule d) in H.
  destruct (fixed_period_schedule d) as [|[[s e] r] rest];
    [exact variable_zero|].
  inversion H; assumption.
Qed.

(** No interest is charged in any month. *)
Lemma interest_zero (m : Z) (st : state) :
  interest_payment (after_payment d m st) == 0.
Proof.
  unfold after_payment.
  change (interest_payment (regular_payment d m (after_rule2 d m st)))
    with (mortgage_balance (after_rule2 d m st) * (applicable_rate d m / 12)).
  rewrite (applicable_rate_zero m). unfold Qdiv. ring.
Qed.

Lemma interest_paid_month (m : Z) (st : state) :
  total_interest_paid (month_body d m st) == total_interest_paid st.
Proof.
  unfold month_body, after_savings, after_rule3, after_payment.
  rewrite interest_paid_track, interest_paid_accrual, interest_paid_rule3,
    regular_interest_paid.
  unfold after_rule2, after_rule1.
  rewrite interest_paid_rule2, interest_paid_rule1, interest_paid_start.
  rewrite (applicable_rate_zero m). unfold Qdiv. ring.
Qed.

Lemma interest_paid_zero (n : nat) : total_interest_paid (state_at d n) == 0.
Proof.
  induction n as [|n IH]; [reflexivity|].
  cbn [state_at]. rewrite interest_paid_month. exact IH.
Qed.

End Zero_rates.



(** ** Determinism *)

Lemma step_from_running (d : Data.t) (c c' : configuration) :
  step d c c' -> fst (fst c) = Running.
Proof. destruct 1; reflexivity. Qed.

Lemma step_deterministic (d : Data.t) (c c1 c2 : configuration) :
  step d c c1 -> step d c c2 -> c1 = c2.
Proof.
  intros H1 H2.
  inversion H1; subst; inversion H2; subst;
    try reflexivity; try lia; try congruence;
    exfalso; lra.
Qed.

Lemma steps_deterministic (d : Data.t) (c c1 c2 : configuration) :
  steps d c c1 -> stopped c1 -> steps d c c2 -> stopped c2 -> c1 = c2.
Proof.
  intros H1 S1 H2 S2. induction H1 as [c|c c' c'' Hs _ IH].
  - destruct H2 as [|c c2' c2 Hs2 _]; [reflexivity|].
    destruct (S1 (step_from_running d _ _ Hs2)).
  - destruct H2 as [c|c c2' c2 Hs2 H2].
    + destruct (S2 (step_from_running d _ _ Hs)).
    + rewrite <- (step_deterministic d _ _ _ Hs Hs2) in H2.
      exact (IH S1 H2).
Qed.

(** The loop function follows the transition system to a stopped
    configuration. *)
Lemma for_months_steps (d : Data.t) :
  forall k m st,
    Z.of_nat k = Z.max 0 (months d - m) ->
    exists ph m',
      ph <> Running
      /\ steps d (Running, m, st) (ph, m', for_months d k m st).
Proof.
  induction k as [|k IH]; intros m st Hk.
  - exists Horizon_exhausted, m. split; [discriminate|].
    eapply steps_cons; [|apply steps_refl].
    apply step_horizon. lia.
  - assert (Hm : (m < months d)%Z) by lia.
    cbn [for_months].
    destruct (mortgage_paid_off st) eqn:Ef.
    + exists Paid_off, m. split; [discriminate|].
      eapply steps_cons; [|apply steps_refl].
      apply step_flag; assumption.
    + destruct (Qle_bool (mortgage_balance st) 0) eqn:Eb.
      * exists Paid_off, m. split; [discriminate|].
        eapply steps_cons; [|apply steps_refl].
        apply step_paid_off; [assumption | assumption |].
        apply Qle_bool_iff, Eb.
      * destruct (IH (m + 1)%Z (month_body d m st) ltac:(lia))
          as (ph & m' & Hph & Hsteps).
        exists ph, m'. split; [exact Hph|].
        eapply steps_cons; [|exact Hsteps].
        apply step_month; [assumption | assumption |].
        apply Qle_bool_false, Eb.
Qed.

(** [run_simulation] computes a run of the transition system. *)
Lemma run_simulation_simulates (d : Data.t) : simulates d (run_simulation d).
Proof.
  destruct (for_months_steps d (Z.to_nat (months d)) 0%Z (initial_state d))
    as (ph & m' & Hph & Hsteps); [lia|].
  exists (ph, m', final_state d). split; [exact Hsteps|].
  split; [exact Hph | reflexivity].
Qed.



(** ** The annual allowance *)

Lemma allowances_0 (L : Q) : allowances 0 L == L.
Proof. unfold allowances. cbn [Z.of_nat]. change (inject_Z 1) with 1. ring. Qed.

Lemma allowances_S (n : nat) (L : Q) :
  allowances (S n) L == allowances n L + L.
Proof.
  unfold allowances. rewrite (Nat2Z.inj_succ (S n)).
  unfold Z.succ. rewrite inject_Z_plus. change (inject_Z 1) with 1. ring.
Qed.

Lemma annual_app (k : Z) (l : list Event.t) (e : Event.t) :
  annual_in_year k (l ++ [e])
  = if (Event.is_annual e && in_year k e)%bool
    then annual_in_year k l ++ [e] else annual_in_year k l.
Proof.
  unfold annual_in_year. rewrite filter_app. cbn [filter].
  destruct (Event.is_annual e && in_year k e)%bool;
    [reflexivity | apply app_nil_r].
Qed.

Lemma sweeps_app (k : Z) (l : list Event.t) (e : Event.t) :
  sweeps_in_year k (l ++ [e])
  = if (Event.is_end_of_fixed e && in_year k e)%bool
    then sweeps_in_year k l ++ [e] else sweeps_in_year k l.
Proof.
  unfold sweeps_in_year. rewrite filter_app. cbn [filter].
  destruct (Event.is_end_of_fixed e && in_year k e)%bool;
    [reflexivity | apply app_nil_r].
Qed.

(** A sweep of the year lowers the flag and brings one more allowance. *)
Lemma inv_sweep (k : Z) (L : Q) (l : list Event.t) (made : bool)
    (m : Z) (x : Q) (i : Z) :
  0 <= L -> (m / 12)%Z = k ->
  allowance_inv k L l made ->
  allowance_inv k L (l ++ [Event.mk m x (Event.End_of_fixed_period i)]) false.
Proof.
  intros HL Hm [HF HS]. unfold allowance_inv.
  rewrite annual_app, sweeps_app. unfold in_year.
  cbn [Event.is_annual Event.is_end_of_fixed Event.type Event.month andb].
  rewrite (proj2 (Z.eqb_eq _ _) Hm).
  split; [exact HF|].
  rewrite length_app. cbn [length]. rewrite Nat.add_1_r, allowances_S.
  destruct made; lra.
Qed.

(** An event of rule 2 changes nothing for the allowance. *)
Lemma inv_variable (k : Z) (L : Q) (l : list Event.t) (made : bool)
    (m : Z) (x : Q) :
  allowance_inv k L l made ->
  allowance_inv k L (l ++ [Event.mk m x Event.Variable_rate_period]) made.
Proof.
  intros [HF HS]. unfold allowance_inv. rewrite annual_app, sweeps_app.
  cbn [Event.is_annual Event.is_end_of_fixed Event.type andb].
  split; assumption.
Qed.

(** An annual overpayment within [L] spends the allowance that was left. *)
Lemma inv_annual (k : Z) (L : Q) (l : list Event.t) (m : Z) (x : Q) (y : Z) :
  x <= L -> 0 <= L ->
  allowance_inv k L l false ->
  allowance_inv k L (l ++ [Event.mk m x (Event.Annual_overpayment y)]) true.
Proof.
  intros Hx HL [HF HS]. unfold allowance_inv. rewrite annual_app, sweeps_app.
  cbn [Event.is_annual Event.is_end_of_fixed Event.type andb].
  destruct (in_year k (Event.mk m x (Event.Annual_overpayment y))).
  - split.
    + apply Forall_app. split; [exact HF|]. constructor; [exact Hx | constructor].
    + rewrite sum_amounts_app. cbn [Event.amount]. lra.
  - split; [exact HF | lra].
Qed.

Lemma inv_bound (k : Z) (L : Q) (l : list Event.t) (made : bool) :
  0 <= L -> allowance_inv k L l made -> allowance_bound k L l.
Proof.
  intros HL [HF HS]. split; [exact HF|]. destruct made; lra.
Qed.

(** Events dated outside the year do not count. *)
Lemma bound_other_years (k : Z) (L : Q) (l l' : list Event.t) :
  Forall (fun e => in_year k e = false) l' ->
  allowance_bound k L l -> allowance_bound k L (l ++ l').
Proof.
  intros Hl' H. unfold allowance_bound, annual_in_year, sweeps_in_year.
  rewrite !filter_app.
  rewrite (filter_none (fun e => Event.is_annual e && in_year k e)%bool l'),
    (filter_none (fun e => Event.is_end_of_fixed e && in_year k e)%bool l').
  - rewrite !app_nil_r. exact H.
  - eapply Forall_impl; [|exact Hl']. cbv beta. intros e ->.
    apply andb_false_r.
  - eapply Forall_impl; [|exact Hl']. cbv beta. intros e ->.
    apply andb_false_r.
Qed.

(** The blocks of a month of year [k], from the state left by the start of
    the month, keep the limit and the invariant of the year. *)
Lemma allowance_month (d : Data.t) (m : Z) (st : state) (k : Z) (L : Q) :
  0 <= L -> (m / 12)%Z = k ->
  yearly_overpayment_limit (after_start d m st) = L ->
  allowance_inv k L (overpayment_events (after_start d m st))
    (overpayment_made_this_year (after_start d m st)) ->
  yearly_overpayment_limit (month_body d m st) = L
  /\ allowance_inv k L (overpayment_events (month_body d m st))
       (overpayment_made_this_year (month_body d m st)).
Proof.
  intros HL Hm Hlim Hinv.
  assert (H1 : yearly_overpayment_limit (after_rule1 d m st) = L
               /\ allowance_inv k L (overpayment_events (after_rule1 d m st))
                    (overpayment_made_this_year (after_rule1 d m st))).
  { split; [unfold after_rule1; rewrite limit_rule1; exact Hlim|].
    destruct (rule1_outcome d m st) as [[U ->]|(i & _ & O & -> & _)].
    - rewrite (untouched_events _ _ U). exact Hinv.
    - rewrite (overpays_events _ _ _ _ _ O).
      exact (inv_sweep k L _ _ m _ (i + 1) HL Hm Hinv). }
  clear Hlim Hinv.
  unfold month_body, after_savings, after_rule3, after_payment, after_rule2.
  rewrite limit_track, events_track, made_this_year_track.
  rewrite limit_accrual, events_accrual, made_this_year_accrual.
  rewrite limit_rule3.
  rewrite limit_regular, limit_rule2.
  generalize dependent (after_rule1 d m st). intros s1 [Hlim Hinv].
  split; [exact Hlim|].
  assert (H2 : allowance_inv k L
                 (overpayment_events (variable_rate_overpayment d m s1))
                 (overpayment_made_this_year (variable_rate_overpayment d m s1))).
  { rewrite made_this_year_rule2.
    destruct (rule2_outcome d m s1) as [U|(_ & _ & _ & O)].
    - rewrite (untouched_events _ _ U). exact Hinv.
    - rewrite (overpays_events _ _ _ _ _ O). apply inv_variable, Hinv. }
  rewrite <- (limit_rule2 d m s1) in Hlim. clear Hinv.
  generalize dependent (variable_rate_overpayment d m s1). intros s2 Hlim Hinv.
  rewrite <- (events_regular d m s2), <- (made_this_year_regular d m s2) in Hinv.
  rewrite <- (limit_regular d m s2) in Hlim.
  generalize dependent (regular_payment d m s2). intros s3 Hlim Hinv.
  destruct (rule3_outcome d m s3) as [[U ->]|(Hf & _ & _ & _ & O & ->)].
  - rewrite (untouched_events _ _ U). exact Hinv.
  - rewrite (overpays_events _ _ _ _ _ O). rewrite Hf in Hinv.
    apply inv_annual; [|exact HL | exact Hinv].
    rewrite <- Hlim. apply py_min3_le_2.
Qed.

Lemma month_in_year (k j : nat) :
  (j < 12)%nat -> (Z.of_nat (12 * k + j) / 12)%Z = Z.of_nat k.
Proof.
  intro Hj. symmetry. apply (Z.div_unique _ _ _ (Z.of_nat j)); lia.
Qed.

Lemma month_mod (k j : nat) :
  (j < 12)%nat -> (Z.of_nat (12 * k + j) mod 12)%Z = Z.of_nat j.
Proof.
  intro Hj. symmetry. apply (Z.mod_unique _ _ (Z.of_nat k)); lia.
Qed.

(** Before year [k] begins the log holds nothing of that year. *)
Lemma no_event_of_year_yet (d : Data.t) (k : nat) :
  annual_in_year (Z.of_nat k) (overpayment_events (state_at d (12 * k))) = []
  /\ sweeps_in_year (Z.of_nat k) (overpayment_events (state_at d (12 * k))) = [].
Proof.
  assert (H : Forall (fun e => in_year (Z.of_nat k) e = false)
                (overpayment_events (state_at d (12 * k)))).
  { eapply Forall_impl; [|exact (events_before d (12 * k))]. cbv beta.
    intros e He. unfold in_year. apply Z.eqb_neq.
    assert ((Event.month e / 12 < Z.of_nat k)%Z); [|lia].
    apply Z.div_lt_upper_bound; lia. }
  split; apply filter_none; (eapply Forall_impl; [|exact H]); cbv beta;
    intros e ->; apply andb_false_r.
Qed.

(** During year [k], from the end of its first month to the end of its
    last, the limit is a tenth of the balance measured at the start of the
    year and the invariant of the year holds. *)
Lemma allowance_during_year (d : Data.t) (k : nat) :
  let L := 0.10 * year_start_balance d k in
  0 <= L ->
  forall j, (j < 12)%nat ->
    yearly_overpayment_limit (state_at d (12 * k + S j)) = L
    /\ allowance_inv (Z.of_nat k) L
         (overpayment_events (state_at d (12 * k + S j)))
         (overpayment_made_this_year (state_at d (12 * k + S j))).
Proof.
  intros L HL. induction j as [|j IH]; intro Hj.
  - rewrite Nat.add_1_r. cbn [state_at].
    apply allowance_month; [exact HL | | |].
    + rewrite <- (Nat.add_0_r (12 * k)). apply month_in_year. lia.
    + rewrite start_limit.
      replace (Z.of_nat (12 * k) mod 12)%Z with 0%Z; [reflexivity|].
      rewrite <- (Nat.add_0_r (12 * k)). rewrite month_mod; lia.
    + rewrite start_made_this_year, events_start.
      replace (Z.of_nat (12 * k) mod 12)%Z with 0%Z.
      2:{ rewrite <- (Nat.add_0_r (12 * k)). rewrite month_mod; lia. }
      cbn [Z.eqb]. unfold allowance_inv.
      destruct (no_event_of_year_yet d k) as [-> ->].
      split; [constructor|].
      cbn [length]. rewrite allowances_0. unfold sum_amounts.
      cbn [fold_left]. lra.
  - destruct (IH ltac:(lia)) as [Hlim Hinv].
    rewrite Nat.add_succ_r. cbn [state_at].
    assert (Hmod : (Z.of_nat (12 * k + S j) mod 12 =? 0)%Z = false).
    { apply Z.eqb_neq. rewrite month_mod; lia. }
    apply allowance_month; [exact HL | apply month_in_year; lia | |].
    + rewrite start_limit, Hmod. exact Hlim.
    + rewrite start_made_this_year, events_start, Hmod. exact Hinv.
Qed.

(** * Further properties of the engine *)

(** ** The fixed-period schedule (lines 266-271) *)

Lemma schedule_from_chained (periods : list (Z * Q)) :
  forall start, chained start (schedule_from start periods).
Proof.
  induction periods as [|[len r] rest IH]; intro start; cbn [schedule_from chained].
  - exact I.
  - split; [reflexivity | apply IH].
Qed.

Lemma schedule_from_declared (periods : list (Z * Q)) :
  forall start, map declared (schedule_from start periods) = periods.
Proof.
  induction periods as [|[len r] rest IH]; intro start;
    cbn [schedule_from map declared]; [reflexivity|].
  rewrite IH. f_equal. f_equal. lia.
Qed.

(** X1. The schedule built from the declared durations is contiguous from month
    0, has one period per declared period, and gives back the declared
    durations and rates. *)
Theorem schedule_contiguous_and_faithful (d : Data.t) :
  chained 0 (fixed_period_schedule d)
  /\ length (fixed_period_schedule d) = length (Data.fixed_periods d)
  /\ map declared (fixed_period_schedule d) = Data.fixed_periods d.
Proof.
  unfold fixed_period_schedule. split; [apply schedule_from_chained|].
  split; [|apply schedule_from_declared].
  rewrite <- (schedule_from_declared (Data.fixed_periods d) 0) at 2.
  rewrite length_map. reflexivity.
Qed.

(** ** The rate that applies in a month (lines 352-353 and 375-376) *)

Lemma schedule_from_bounds (periods : list (Z * Q)) :
  Forall (fun p => (0 <= fst p)%Z) periods ->
  forall start p,
    In p (schedule_from start periods) ->
    (start <= fst (fst p))%Z
    /\ (fst (fst p) <= snd (fst p))%Z
    /\ (snd (fst p) <= start + total_fixed_length periods)%Z.
Proof.
  induction 1 as [|[len r] rest Hlen Hrest IH]; intros start p;
    cbn [schedule_from total_fixed_length fold_right fst snd In] in *.
  - intros [].
  - fold (total_fixed_length rest).
    assert (Hnn : (0 <= total_fixed_length rest)%Z).
    { clear -Hrest. induction Hrest as [|q l Hq _ IHl];
        cbn [total_fixed_length fold_right]; [lia|].
      fold (total_fixed_length l). lia. }
    intros [<-|Hin]; cbn [fst snd]; [lia|].
    destruct (IH _ _ Hin) as (H1 & H2 & H3). lia.
Qed.

Lemma rate_at_schedule_from (periods : list (Z * Q)) (default : Q) (m : Z) :
  Forall (fun p => (0 <= fst p)%Z) periods ->
  forall start i s e r,
    nth_error (schedule_from start periods) i = Some (s, e, r) ->
    (s <= m < e)%Z ->
    rate_at (schedule_from start periods) default m = r.
Proof.
  induction 1 as [|[len r0] rest Hlen Hrest IH]; intros start i s e r Hnth Hm;
    cbn [schedule_from rate_at] in *.
  - destruct i; discriminate.
  - destruct i as [|i]; cbn [nth_error] in Hnth.
    + inversion Hnth; subst.
      replace ((s <=? m)%Z && (m <? s + len)%Z)%bool with true; [reflexivity|].
      symmetry. apply andb_true_iff. split; [apply Z.leb_le | apply Z.ltb_lt]; lia.
    + pose proof (schedule_from_bounds rest Hrest _ _ (nth_error_In _ _ Hnth))
        as (Hb & _ & _). cbn [fst snd] in Hb.
      replace (m <? start + len)%Z with false
        by (symmetry; apply Z.ltb_ge; lia).
      rewrite andb_false_r. exact (IH _ _ _ _ _ Hnth Hm).
Qed.

Lemma rate_at_outside (schedule : list period) (default : Q) (m : Z) :
  Forall (fun p : period => (m < fst (fst p) \/ snd (fst p) <= m)%Z) schedule ->
  rate_at schedule default m = default.
Proof.
  induction 1 as [|[[s e] r] rest Hp _ IH]; cbn [rate_at]; [reflexivity|].
  cbn [fst snd] in Hp.
  replace ((s <=? m)%Z && (m <? e)%Z)%bool with false; [exact IH|].
  symmetry. apply andb_false_iff.
  destruct Hp; [left; apply Z.leb_gt | right; apply Z.ltb_ge]; lia.
Qed.

(** X2. When no declared duration is negative: in a month that lies inside the
    i-th fixed period the applicable rate is the rate declared for that
    period, and in a month before 0 or from the end of the last fixed
    period on it is the variable rate. *)
Theorem applicable_rate_by_period (d : Data.t) (m : Z) :
  Forall (fun p => (0 <= fst p)%Z) (Data.fixed_periods d) ->
  (forall i s e r,
     nth_error (fixed_period_schedule d) i = Some (s, e, r) ->
     (s <= m < e)%Z ->
     applicable_rate d m = r
     /\ exists len, nth_error (Data.fixed_periods d) i = Some (len, r))
  /\ ((m < 0 \/ total_fixed_length (Data.fixed_periods d) <= m)%Z ->
      applicable_rate d m = Data.mortgage_rate_after_fixed d).
Proof.
  intro Hlen. unfold applicable_rate, fixed_period_schedule. split.
  - intros i s e r Hnth Hm. split.
    + exact (rate_at_schedule_from _ _ m Hlen 0%Z i s e r Hnth Hm).
    + exists (e - s)%Z.
      rewrite <- (schedule_from_declared (Data.fixed_periods d) 0) at 1.
      rewrite nth_error_map, Hnth. reflexivity.
  - intro Hm. apply rate_at_outside. apply Forall_forall. intros p Hin.
    pose proof (schedule_from_bounds _ Hlen _ _ Hin) as (H1 & H2 & H3). lia.
Qed.

Lemma applicable_rate_by_period_witness :
  Forall (fun p => (0 <= fst p)%Z) (Data.fixed_periods two_allowances)
  /\ applicable_rate two_allowances 7 = 0
  /\ applicable_rate two_allowances 25
     = Data.mortgage_rate_after_fixed two_allowances.
Proof.
  assert (H : Forall (fun p => (0 <= fst p)%Z)
                (Data.fixed_periods two_allowances))
    by (repeat constructor; discriminate).
  pose proof (applicable_rate_by_period two_allowances 7 H) as [H7 _].
  pose proof (applicable_rate_by_period two_allowances 25 H) as [_ H25].
  split; [exact H|]. split.
  - exact (proj1 (H7 1%nat 1%Z 25%Z 0 eq_refl ltac:(lia))).
  - apply H25. right. vm_compute. discriminate.
Defined.

(** ** The returned lists (lines 407-416 and 428-444) *)

(** The nine tracking lists at the top of month [n], entry by entry. *)
Lemma tracking_state_at (d : Data.t) (n : nat) :
  tracking (state_at d n)
  = mkTracks
      (map (fun j => mortgage_balance (at_savings d j)) (seq 0 n))
      (map (fun j => cash_savings (at_savings d j)) (seq 0 n))
      (map (fun j => cumulative_overpayments (at_savings d j)) (seq 0 n))
      (map (fun j => inject_Z (Z.of_nat j) / 12) (seq 0 n))
      (map (fun j => monthly_income (at_savings d j)) (seq 0 n))
      (map (fun j => monthly_expenses (at_savings d j)) (seq 0 n))
      (map (fun j => current_overpayment (at_savings d j)
                     + lump_sum (at_savings d j)) (seq 0 n))
      (map (fun j => available_cash (at_savings d j)) (seq 0 n))
      (map (fun j => capital_repayment (at_savings d j)
                     + interest_payment (at_savings d j)) (seq 0 n)).
Proof.
  induction n as [|n IH]; [reflexivity|].
  rewrite tracking_step, IH. cbv zeta.
  cbn [mortgage_balances savings_balances total_overpayments_cumulative years
       monthly_incomes monthly_expenses_list overpayments available_cashes
       mortgage_payments].
  rewrite seq_S, !map_app. reflexivity.
Qed.

(** How the loop ends: [range] is exhausted, or the balance is found
    non-positive at the top of a month inside the horizon. *)
Lemma for_months_end (d : Data.t) :
  forall k n,
    runs_through d n = true -> (n + k = horizon d)%nat ->
    exists m,
      runs_through d m = true /\
      ((m = horizon d
        /\ for_months d k (Z.of_nat n) (state_at d n) = state_at d m)
       \/ ((m < horizon d)%nat
           /\ mortgage_balance (state_at d m) <= 0
           /\ for_months d k (Z.of_nat n) (state_at d n) = stopped_paid_off d m)).
Proof.
  induction k as [|k IH]; intros n Hrun Hk.
  - exists n. split; [exact Hrun|]. left. split; [lia | reflexivity].
  - cbn [for_months]. rewrite paid_off_state_at.
    destruct (Qle_bool (mortgage_balance (state_at d n)) 0) eqn:E.
    + exists n. split; [exact Hrun|]. right.
      split; [lia|]. split; [apply Qle_bool_iff, E | reflexivity].
    + assert (Hn : runs_through d (S n) = true).
      { rewrite runs_through_S, Hrun. unfold body_guard.
        rewrite paid_off_state_at, E.
        replace (n <? horizon d)%nat with true
          by (symmetry; apply Nat.ltb_lt; lia).
        reflexivity. }
      destruct (IH (S n) Hn ltac:(lia)) as (m & H1 & H2).
      exists m. split; [exact H1|].
      replace (Z.of_nat n + 1)%Z with (Z.of_nat (S n)) by lia.
      exact H2.
Qed.

Lemma months_free_state_at (d : Data.t) (n : nat) :
  months_to_mortgage_free (state_at d n) = None.
Proof.
  induction n as [|n IH]; [reflexivity|].
  cbn [state_at]. unfold month_body, after_savings, after_rule3,
    after_payment, after_rule2, after_rule1.
  rewrite months_free_track, months_free_accrual, months_free_rule3,
    months_free_regular, months_free_rule2, months_free_rule1,
    months_free_start.
  exact IH.
Qed.

(** Everything [run_simulation] returns but [interest_saved], read off the
    month [m] where the loop stops. *)
Lemma run_simulation_returns (d : Data.t) :
  exists m,
    runs_through d m = true /\ enters d m = false /\
    ((m = horizon d /\ Result.months_to_mortgage_free (run_simulation d) = None)
     \/ ((m < horizon d)%nat /\ mortgage_balance (state_at d m) <= 0
         /\ Result.months_to_mortgage_free (run_simulation d)
            = Some (Z.of_nat m))) /\
    let st := state_at d m in
    let t := tracking st in
    Result.mortgage_balances (run_simulation d) = mortgage_balances t
    /\ Result.savings_balances (run_simulation d) = savings_balances t
    /\ Result.total_overpayments_cumulative (run_simulation d)
       = total_overpayments_cumulative t
    /\ Result.years (run_simulation d) = years t
    /\ Result.monthly_incomes (run_simulation d) = monthly_incomes t
    /\ Result.monthly_expenses (run_simulation d) = monthly_expenses_list t
    /\ Result.overpayments (run_simulation d) = overpayments t
    /\ Result.available_cashes (run_simulation d) = available_cashes t
    /\ Result.mortgage_payments (run_simulation d) = mortgage_payments t
    /\ Result.overpayment_events (run_simulation d) = overpayment_events st
    /\ Result.total_overpayments (run_simulation d) = cumulative_overpayments st
    /\ Result.final_savings (run_simulation d) = cash_savings st
    /\ Result.total_interest_paid (run_simulation d) = total_interest_paid st.
Proof.
  destruct (for_months_end d (horizon d) 0 eq_refl eq_refl) as (m & Hrun & H).
  change (for_months d (horizon d) (Z.of_nat 0) (state_at d 0))
    with (final_state d) in H.
  exists m. split; [exact Hrun|].
  unfold run_simulation, result_of.
  cbn [Result.mortgage_balances Result.savings_balances
       Result.total_overpayments_cumulative Result.years
       Result.monthly_incomes Result.monthly_expenses Result.overpayments
       Result.available_cashes Result.mortgage_payments
       Result.overpayment_events Result.total_overpayments
       Result.final_savings Result.total_interest_paid
       Result.months_to_mortgage_free].
  destruct H as [[Hm ->]|(Hm & Hb & ->)].
  - split.
    { unfold enters. rewrite runs_through_S.
      replace (m <? horizon d)%nat with false
        by (symmetry; apply Nat.ltb_ge; lia).
      rewrite andb_false_r. reflexivity. }
    split; [left; split; [exact Hm | apply months_free_state_at]|].
    cbv zeta. repeat split.
  - split.
    { unfold enters. rewrite runs_through_S. unfold body_guard.
      rewrite (proj2 (Qle_bool_iff _ _) Hb). cbn [negb].
      rewrite !andb_false_r. reflexivity. }
    destruct (stopped_outputs d m) as (E1 & E2 & E3 & E4 & E5).
    split.
    { right. split; [exact Hm|]. split; [exact Hb|].
      unfold stopped_paid_off. generalize (state_at d m). intro s.
      reflexivity. }
    cbv zeta. rewrite E1, E2, E3, E4, E5. repeat split.
Qed.

(** X3. The nine returned lists grow in lockstep: they all have one entry per
    simulated month, never more than the horizon has months, and the
    [years] list counts the months in twelfths. *)
Theorem returned_lists_in_lockstep (d : Data.t) :
  let r := run_simulation d in
  let n := length (Result.mortgage_balances r) in
  (n <= horizon d)%nat
  /\ length (Result.savings_balances r) = n
  /\ length (Result.total_overpayments_cumulative r) = n
  /\ length (Result.monthly_incomes r) = n
  /\ length (Result.monthly_expenses r) = n
  /\ length (Result.overpayments r) = n
  /\ length (Result.available_cashes r) = n
  /\ length (Result.mortgage_payments r) = n
  /\ Result.years r = map (fun j => inject_Z (Z.of_nat j) / 12) (seq 0 n).
Proof.
  cbv zeta.
  destruct (run_simulation_returns d) as (m & Hrun & _ & _ & H).
  cbv zeta in H.
  destruct H as (-> & -> & -> & -> & -> & -> & -> & -> & -> & _).
  rewrite tracking_state_at.
  cbn [mortgage_balances savings_balances total_overpayments_cumulative years
       monthly_incomes monthly_expenses_list overpayments available_cashes
       mortgage_payments].
  rewrite !length_map, !length_seq.
  split; [apply runs_through_le, Hrun|]. repeat split.
Qed.

Lemma last_map_seq {A : Type} (f : nat -> A) (k : nat) (x : A) :
  last (map f (seq 0 (S k))) x = f k.
Proof. rewrite seq_S, map_app. cbn [map]. apply last_last. Qed.

(** The returned month of pay-off. *)
Lemma payoff_month_facts (d : Data.t) :
  let r := run_simulation d in
  let n := length (Result.mortgage_balances r) in
  match Result.months_to_mortgage_free r with
  | Some m =>
      m = Z.of_nat n /\ (n < horizon d)%nat
      /\ last (Result.mortgage_balances r) (Data.initial_mortgage d) <= 0
  | None => n = horizon d
  end.
Proof.
  cbv zeta.
  destruct (run_simulation_returns d) as (m & Hrun & Hstop & Hend & H).
  cbv zeta in H. destruct H as (-> & _).
  rewrite mortgage_balances_state_at, length_map, length_seq.
  assert (Hlast : last (map (fun j => mortgage_balance (at_savings d j)) (seq 0 m))
                    (Data.initial_mortgage d)
                  = mortgage_balance (state_at d m)).
  { destruct m as [|k]; [reflexivity|].
    rewrite last_map_seq. cbn [state_at]. unfold month_body, at_savings.
    rewrite balance_track. reflexivity. }
  destruct Hend as [[Hm ->]|(Hm & Hb & ->)]; [exact Hm|].
  split; [reflexivity|]. split; [exact Hm|]. rewrite Hlast. exact Hb.
Qed.

(** X4. The month of pay-off that is returned.  When it is a number, it is the
    number of monthly records, it lies inside the horizon, and the balance
    found at the top of that month -- the last recorded balance, or the
    principal when no month was simulated -- is not positive.  When it is
    [None] the run lasted the whole horizon.  In both cases every recorded
    balance but the last is strictly positive. *)
Theorem payoff_month_returned (d : Data.t) :
  let r := run_simulation d in
  let n := length (Result.mortgage_balances r) in
  match Result.months_to_mortgage_free r with
  | Some m =>
      m = Z.of_nat n /\ (n < horizon d)%nat
      /\ last (Result.mortgage_balances r) (Data.initial_mortgage d) <= 0
  | None => n = horizon d
  end
  /\ forall j b,
       (S j < n)%nat -> nth_error (Result.mortgage_balances r) j = Some b ->
       0 < b.
Proof.
  cbv zeta. split; [exact (payoff_month_facts d)|].
  destruct (run_simulation_returns d) as (m & Hrun & Hstop & Hend & H).
  cbv zeta in H. destruct H as (-> & _).
  rewrite mortgage_balances_state_at, length_map, length_seq.
  intros j b Hj Hnth. rewrite nth_error_map_seq in Hnth.
  replace (j <? m)%nat with true in Hnth
    by (symmetry; apply Nat.ltb_lt; lia).
  inversion Hnth; subst b.
  assert (He : enters d (S j) = true).
  { unfold enters. apply (runs_through_prev d m); [lia | exact Hrun]. }
  pose proof (enters_balance_pos d (S j) He) as Hpos.
  cbn [state_at] in Hpos. unfold month_body in Hpos.
  rewrite balance_track in Hpos. exact Hpos.
Qed.

(** ** Income and expenses (lines 322-325) *)

Lemma start_income (d : Data.t) (m : Z) (st : state) :
  monthly_income (after_start d m st)
  = if ((0 <? m)%Z && (m mod 12 =? 0)%Z)%bool
    then monthly_income st * (1 + Data.income_growth_rate d)
    else monthly_income st.
Proof. unfold after_start, start_of_month. block_cases; reflexivity. Qed.

Lemma start_expenses (d : Data.t) (m : Z) (st : state) :
  monthly_expenses (after_start d m st)
  = if ((0 <? m)%Z && (m mod 12 =? 0)%Z)%bool
    then monthly_expenses st * (1 + Data.expense_growth_rate d)
    else monthly_expenses st.
Proof. unfold after_start, start_of_month. block_cases; reflexivity. Qed.

Lemma income_at_savings (d : Data.t) (m : Z) (st : state) :
  monthly_income (after_savings d m st) = monthly_income (after_start d m st)
  /\ monthly_expenses (after_savings d m st)
     = monthly_expenses (after_start d m st).
Proof.
  unfold after_savings, after_rule3, after_payment, after_rule2, after_rule1.
  rewrite income_accrual, income_rule3, income_regular, income_rule2,
    income_rule1.
  rewrite expenses_accrual, expenses_rule3, expenses_regular, expenses_rule2,
    expenses_rule1.
  split; reflexivity.
Qed.

Lemma next_month_year (a : Z) :
  (0 <= a)%Z ->
  ((a + 1) / 12)%Z
  = if ((a + 1) mod 12 =? 0)%Z then (a / 12 + 1)%Z else (a / 12)%Z.
Proof.
  intro Ha. destruct (Z.eqb_spec ((a + 1) mod 12) 0) as [E|E].
  - pose proof (Z.div_mod (a + 1) 12 ltac:(lia)).
    pose proof (Z.div_mod a 12 ltac:(lia)).
    pose proof (Z.mod_pos_bound a 12 ltac:(lia)). lia.
  - pose proof (Z.div_mod (a + 1) 12 ltac:(lia)).
    pose proof (Z.div_mod a 12 ltac:(lia)).
    pose proof (Z.mod_pos_bound a 12 ltac:(lia)).
    pose proof (Z.mod_pos_bound (a + 1) 12 ltac:(lia)). lia.
Qed.

Lemma growth_by_month (g x0 : Q) (f : nat -> Q) :
  f 0%nat = x0 ->
  (forall n, f (S n)
             = if ((0 <? Z.of_nat (S n))%Z && (Z.of_nat (S n) mod 12 =? 0)%Z)%bool
               then f n * (1 + g) else f n) ->
  forall n, f n == x0 * (1 + g) ^ (Z.of_nat n / 12).
Proof.
  intros H0 HS. induction n as [|n IH].
  - rewrite H0. cbn. ring.
  - rewrite HS.
    replace (0 <? Z.of_nat (S n))%Z with true by (symmetry; apply Z.ltb_lt; lia).
    cbn [andb].
    replace (Z.of_nat (S n)) with (Z.of_nat n + 1)%Z by lia.
    rewrite (next_month_year (Z.of_nat n)) by lia.
    destruct ((Z.of_nat n + 1) mod 12 =? 0)%Z.
    + rewrite IH. rewrite Qpower_plus'.
      * rewrite Qpower_1_r. ring.
      * pose proof (Z.div_pos (Z.of_nat n) 12). lia.
    + exact IH.
Qed.

(** X5. Income and expenses grow geometrically, once per completed year: the
    income recorded for month [n] is the initial income times
    (1 + growth) to the power n // 12, and likewise for the expenses. *)
Theorem income_and_expenses_by_year (d : Data.t) (n : nat) (x y : Q) :
  nth_error (Result.monthly_incomes (run_simulation d)) n = Some x ->
  nth_error (Result.monthly_expenses (run_simulation d)) n = Some y ->
  x == Data.monthly_income d
       * (1 + Data.income_growth_rate d) ^ (Z.of_nat n / 12)
  /\ y == Data.monthly_expenses d
          * (1 + Data.expense_growth_rate d) ^ (Z.of_nat n / 12).
Proof.
  destruct (run_simulation_returns d) as (m & _ & _ & _ & H).
  cbv zeta in H. destruct H as (_ & _ & _ & _ & -> & -> & _).
  rewrite tracking_state_at. cbn [monthly_incomes monthly_expenses_list].
  rewrite !nth_error_map_seq. destruct (n <? m)%nat; [|discriminate].
  intros Hx Hy. inversion Hx; inversion Hy; subst x y. clear Hx Hy.
  split.
  - apply (growth_by_month _ _ (fun j => monthly_income (at_savings d j))).
    + unfold at_savings. rewrite (proj1 (income_at_savings d _ _)).
      rewrite start_income. reflexivity.
    + intro j. unfold at_savings.
      rewrite !(proj1 (income_at_savings d _ _)), start_income.
      cbn [state_at]. unfold month_body. rewrite income_track.
      rewrite (proj1 (income_at_savings d _ _)). reflexivity.
  - apply (growth_by_month _ _ (fun j => monthly_expenses (at_savings d j))).
    + unfold at_savings. rewrite (proj2 (income_at_savings d _ _)).
      rewrite start_expenses. reflexivity.
    + intro j. unfold at_savings.
      rewrite !(proj2 (income_at_savings d _ _)), start_expenses.
      cbn [state_at]. unfold month_body. rewrite expenses_track.
      rewrite (proj2 (income_at_savings d _ _)). reflexivity.
Qed.

Lemma income_and_expenses_by_year_witness :
  nth_error (Result.monthly_incomes (run_simulation swept_in_month_1)) 1
  = Some 1000
  /\ nth_error (Result.monthly_expenses (run_simulation swept_in_month_1)) 1
     = Some 500
  /\ 1000 == 1000 * (1 + 0) ^ (1 / 12)
  /\ 500 == 500 * (1 + 0) ^ (1 / 12).
Proof.
  assert (Hx : nth_error (Result.monthly_incomes
                            (run_simulation swept_in_month_1)) 1 = Some 1000)
    by (vm_compute; reflexivity).
  assert (Hy : nth_error (Result.monthly_expenses
                            (run_simulation swept_in_month_1)) 1 = Some 500)
    by (vm_compute; reflexivity).
  split; [exact Hx|]. split; [exact Hy|].
  exact (income_and_expenses_by_year swept_in_month_1 1 1000 500 Hx Hy).
Defined.

(** ** The monthly payment and the cash left (lines 374-382 and 414-416) *)

Lemma regular_parts (d : Data.t) (m : Z) (s : state) :
  capital_repayment (regular_payment d m s)
  + interest_payment (regular_payment d m s)
  == standard_monthly_payment s.
Proof.
  change (capital_repayment (regular_payment d m s))
    with (standard_monthly_payment s
          - mortgage_balance s * (applicable_rate d m / 12)).
  change (interest_payment (regular_payment d m s))
    with (mortgage_balance s * (applicable_rate d m / 12)).
  ring.
Qed.

(** What a month records about its payment and its cash, in terms of the
    state left by rule 2. *)
Lemma month_payment_records (d : Data.t) (m : Z) (st : state) :
  let s2 := after_rule2 d m st in
  let s := after_savings d m st in
  capital_repayment s + interest_payment s == standard_monthly_payment s2
  /\ available_cash s
     = monthly_income s - monthly_expenses s - standard_monthly_payment s2
  /\ standard_monthly_payment s = standard_monthly_payment s2.
Proof.
  cbv zeta. unfold after_savings, after_rule3, after_payment.
  rewrite capital_accrual, interest_accrual, capital_rule3, interest_rule3.
  rewrite available_accrual, available_rule3, regular_available.
  rewrite income_accrual, income_rule3, income_regular.
  rewrite expenses_accrual, expenses_rule3, expenses_regular.
  rewrite payment_accrual, payment_rule3, payment_regular.
  split; [apply regular_parts|]. split; [|reflexivity].
  unfold after_rule2.
  rewrite available_rule2, income_rule2, expenses_rule2.
  unfold after_rule1.
  rewrite available_rule1, income_rule1, expenses_rule1.
  rewrite start_available. reflexivity.
Qed.

(** X6. In every monthly record the net available cash is the income less the
    expenses less the mortgage payment of the month (interest plus
    capital), and that payment is the standard monthly payment in force at
    the end of the month. *)
Theorem recorded_cash_is_income_less_outgoings (d : Data.t) (n : nat)
    (c i e p : Q) :
  nth_error (Result.available_cashes (run_simulation d)) n = Some c ->
  nth_error (Result.monthly_incomes (run_simulation d)) n = Some i ->
  nth_error (Result.monthly_expenses (run_simulation d)) n = Some e ->
  nth_error (Result.mortgage_payments (run_simulation d)) n = Some p ->
  c == i - e - p
  /\ p == standard_monthly_payment (state_at d (S n)).
Proof.
  destruct (run_simulation_returns d) as (m & _ & _ & _ & H).
  cbv zeta in H.
  destruct H as (_ & _ & _ & _ & -> & -> & _ & -> & -> & _).
  rewrite tracking_state_at.
  cbn [monthly_incomes monthly_expenses_list available_cashes mortgage_payments].
  rewrite !nth_error_map_seq. destruct (n <? m)%nat; [|discriminate].
  intros Hc Hi He Hp. inversion Hc; inversion Hi; inversion He; inversion Hp.
  subst c i e p. clear Hc Hi He Hp.
  destruct (month_payment_records d (Z.of_nat n) (state_at d n))
    as (H1 & H2 & H3).
  unfold at_savings. cbn [state_at]. unfold month_body.
  rewrite payment_track, H3, H2, H1. split; [ring | reflexivity].
Qed.

Lemma recorded_cash_is_income_less_outgoings_witness :
  exists c i e p,
    nth_error (Result.available_cashes (run_simulation swept_in_month_1)) 0
    = Some c
    /\ nth_error (Result.monthly_incomes (run_simulation swept_in_month_1)) 0
       = Some i
    /\ nth_error (Result.monthly_expenses (run_simulation swept_in_month_1)) 0
       = Some e
    /\ nth_error (Result.mortgage_payments (run_simulation swept_in_month_1)) 0
       = Some p
    /\ c == i - e - p.
Proof.
  eexists _, _, _, _.
  assert (Hc : nth_error (Result.available_cashes
                            (run_simulation swept_in_month_1)) 0
               = Some (available_cash (at_savings swept_in_month_1 0)))
    by (vm_compute; reflexivity).
  assert (Hi : nth_error (Result.monthly_incomes
                            (run_simulation swept_in_month_1)) 0
               = Some (monthly_income (at_savings swept_in_month_1 0)))
    by (vm_compute; reflexivity).
  assert (He : nth_error (Result.monthly_expenses
                            (run_simulation swept_in_month_1)) 0
               = Some (monthly_expenses (at_savings swept_in_month_1 0)))
    by (vm_compute; reflexivity).
  assert (Hp : nth_error (Result.mortgage_payments
                            (run_simulation swept_in_month_1)) 0
               = Some (capital_repayment (at_savings swept_in_month_1 0)
                       + interest_payment (at_savings swept_in_month_1 0)))
    by (vm_compute; reflexivity).
  split; [exact Hc|]. split; [exact Hi|]. split; [exact He|].
  split; [exact Hp|].
  exact (proj1 (recorded_cash_is_income_less_outgoings
                  swept_in_month_1 0 _ _ _ _ Hc Hi He Hp)).
Defined.

(** ** The books balance (lines 338, 364, 377-381 and 391) *)

Lemma sum_list_app (l : list Q) (x : Q) : sum_list (l ++ [x]) = sum_list l + x.
Proof. unfold sum_list. rewrite fold_left_app. reflexivity. Qed.

Lemma untouched_books (s s' : state) :
  untouched s s' ->
  mortgage_balance s' + cumulative_overpayments s'
  == mortgage_balance s + cumulative_overpayments s.
Proof. intros (-> & _ & -> & _). reflexivity. Qed.

Lemma overpays_books (m : Z) (x : Q) (k : Event.kind) (s s' : state) :
  overpays m x k s s' ->
  mortgage_balance s' + cumulative_overpayments s'
  == mortgage_balance s + cumulative_overpayments s.
Proof. intros (-> & _ & -> & _). ring. Qed.

(** Over a month, what leaves the balance is what is paid: overpayments go
    to the running total, and the regular payment less the interest
    charged goes to capital. *)
Lemma books_month (d : Data.t) (m : Z) (st : state) :
  let s := after_savings d m st in
  mortgage_balance s + cumulative_overpayments s
  + (capital_repayment s + interest_payment s)
  - total_interest_paid s
  == mortgage_balance st + cumulative_overpayments st - total_interest_paid st.
Proof.
  cbv zeta.
  assert (H0 : mortgage_balance (after_start d m st)
               + cumulative_overpayments (after_start d m st)
               == mortgage_balance st + cumulative_overpayments st)
    by (rewrite balance_start, cumulative_start; reflexivity).
  assert (H1 : mortgage_balance (after_rule1 d m st)
               + cumulative_overpayments (after_rule1 d m st)
               == mortgage_balance st + cumulative_overpayments st).
  { rewrite <- H0.
    destruct (rule1_outcome d m st) as [[U _]|(i & _ & O & _)].
    - exact (untouched_books _ _ U).
    - exact (overpays_books _ _ _ _ _ O). }
  assert (T1 : total_interest_paid (after_rule1 d m st) = total_interest_paid st)
    by (unfold after_rule1; rewrite interest_paid_rule1;
        apply interest_paid_start).
  clear H0. rewrite <- H1, <- T1. clear H1 T1.
  unfold after_savings, after_rule3, after_payment, after_rule2.
  rewrite balance_accrual, cumulative_accrual, capital_accrual,
    interest_accrual, interest_paid_accrual.
  generalize (after_rule1 d m st). intro s1.
  assert (H2 : mortgage_balance (variable_rate_overpayment d m s1)
               + cumulative_overpayments (variable_rate_overpayment d m s1)
               == mortgage_balance s1 + cumulative_overpayments s1).
  { destruct (rule2_outcome d m s1) as [U|(_ & _ & _ & O)].
    - exact (untouched_books _ _ U).
    - exact (overpays_books _ _ _ _ _ O). }
  rewrite <- H2, <- (interest_paid_rule2 d m s1). clear H2.
  generalize (variable_rate_overpayment d m s1). intro s2.
  rewrite capital_rule3, interest_rule3, interest_paid_rule3.
  assert (H3 : mortgage_balance (annual_overpayment d m (regular_payment d m s2))
               + cumulative_overpayments
                   (annual_overpayment d m (regular_payment d m s2))
               == mortgage_balance (regular_payment d m s2)
                  + cumulative_overpayments (regular_payment d m s2)).
  { destruct (rule3_outcome d m (regular_payment d m s2))
      as [[U _]|(_ & _ & _ & _ & O & _)].
    - exact (untouched_books _ _ U).
    - exact (overpays_books _ _ _ _ _ O). }
  rewrite H3. rewrite regular_parts, regular_balance, regular_interest_paid,
    cumulative_regular.
  ring.
Qed.

Lemma books_state_at (d : Data.t) (n : nat) :
  mortgage_balance (state_at d n) + cumulative_overpayments (state_at d n)
  + sum_list (mortgage_payments (tracking (state_at d n)))
  == Data.initial_mortgage d + total_interest_paid (state_at d n).
Proof.
  induction n as [|n IH].
  - cbn. ring.
  - rewrite tracking_step. cbv zeta. cbn [mortgage_payments].
    rewrite sum_list_app.
    cbn [state_at]. unfold month_body, at_savings.
    rewrite balance_track, cumulative_track, interest_paid_track.
    pose proof (books_month d (Z.of_nat n) (state_at d n)) as H.
    cbv zeta in H.
    generalize dependent (after_savings d (Z.of_nat n) (state_at d n)).
    intros s H. lra.
Qed.


(** ** The overpayment of a month and the events of that month
       (lines 307, 335-346, 361-372, 385-400 and 414) *)

Lemma lump_start (d : Data.t) (m : Z) (st : state) :
  lump_sum (after_start d m st) = 0.
Proof. unfold after_start, start_of_month. block_cases; reflexivity. Qed.

Lemma sweep_lump (d : Data.t) (m i : Z) (s : state) :
  lump_sum (sweep_at_period_end d m i s)
  = if Qltb 0 (cash_savings s - Data.emergency_buffer d)
    then py_min (cash_savings s - Data.emergency_buffer d) (mortgage_balance s)
    else 0.
Proof.
  unfold sweep_at_period_end, py_max.
  block_cases; try congruence; try discriminate; reflexivity.
Qed.

(** Rule 1 with the lump sum it leaves: 0 when nothing is swept, the amount
    of the sweep otherwise. *)
Lemma rule1_lump (d : Data.t) (m : Z) (st : state) :
  let s := after_start d m st in
  let s' := after_rule1 d m st in
  (untouched s s' /\ lump_sum s' = 0)
  \/ (exists i x,
        overpays m x (Event.End_of_fixed_period (i + 1)) s s'
        /\ lump_sum s' = x
        /\ end_of_fixed_period s' = true
        /\ 0 < cash_savings s - Data.emergency_buffer d
        /\ x = py_min (cash_savings s - Data.emergency_buffer d)
                 (mortgage_balance s)).
Proof.
  cbv zeta. pose proof (lump_start d m st) as L0.
  destruct (rule1_cases d m st) as [[-> _]|(i & -> & _)];
    generalize dependent (after_start d m st); intros s L0.
  - left. split; [repeat split | exact L0].
  - pose proof (sweep_lump d m i (set_end_of_fixed_period false s)) as HL.
    destruct (sweep_outcome d m i (set_end_of_fixed_period false s))
      as [(Hs & U & _)|(Hs & O & _)].
    + left. split; [exact U|]. rewrite HL.
      rewrite (proj2 (Qltb_false _ _) Hs). reflexivity.
    + right. exists i. eexists. split; [exact O|].
      split; [|split; [apply sweep_end_flag | split; [exact Hs | reflexivity]]].
      rewrite HL. rewrite (proj2 (Qltb_true _ _) Hs). reflexivity.
Qed.

(** Rule 2 with the lump sum: untouched when it does not fire, the amount
    paid when it does, which needs the flag of rule 1 down. *)
Lemma rule2_lump (d : Data.t) (m : Z) (s : state) :
  let s' := variable_rate_overpayment d m s in
  let lump := py_max 0 (cash_savings s - Data.emergency_buffer d) in
  (untouched s s' /\ lump_sum s' = lump_sum s)
  \/ (end_of_fixed_period s = false
      /\ overpays m (py_min lump (mortgage_balance s))
           Event.Variable_rate_period s s'
      /\ lump_sum s' = py_min lump (mortgage_balance s)).
Proof.
  cbv zeta. unfold variable_rate_overpayment, overpays, untouched.
  destruct (end_of_fixed_period s) eqn:E1; [left; repeat split|].
  destruct (fixed_period_schedule d) as [|p sched] eqn:E2;
    [left; repeat split|].
  destruct (last_fixed_period_end (p :: sched) <? m)%Z;
    [|left; repeat split].
  destruct (Qle_bool (Data.min_overpayment_threshold d)
              (py_max 0 (cash_savings s - Data.emergency_buffer d)));
    [|left; repeat split].
  right. repeat split.
Qed.

(** Rule 3 with the overpayment of the month it leaves. *)
Lemma rule3_current (d : Data.t) (m : Z) (s : state) :
  let s' := annual_overpayment d m s in
  let x := py_min3 (cash_savings s - Data.emergency_buffer d)
             (yearly_overpayment_limit s) (mortgage_balance s) in
  (untouched s s' /\ current_overpayment s' = 0)
  \/ (Data.emergency_buffer d < cash_savings s /\ 0 < x
      /\ overpays m x (Event.Annual_overpayment (current_year s + 1)) s s'
      /\ current_overpayment s' = x).
Proof.
  cbv zeta. unfold annual_overpayment, overpays, untouched. proj_simpl.
  destruct (overpayment_made_this_year s); cbn [negb andb];
    [left; repeat split|].
  destruct (Qltb (Data.emergency_buffer d) (cash_savings s)) eqn:E2;
    [|left; repeat split].
  destruct (Qle_bool (Data.min_overpayment_threshold d)
              (cash_savings s - Data.emergency_buffer d));
    [|left; repeat split].
  destruct (Qltb 0 (py_min3 (cash_savings s - Data.emergency_buffer d)
                      (yearly_overpayment_limit s) (mortgage_balance s)))
    eqn:E4; [|left; repeat split].
  apply Qltb_true in E2, E4. right. proj_simpl. repeat split; assumption.
Qed.

Lemma sum_amounts_from (l : list Event.t) (a : Q) :
  fold_left (fun acc e => acc + Event.amount e) l a == a + sum_amounts l.
Proof.
  unfold sum_amounts. revert a.
  induction l as [|e l IH]; intro a; cbn [fold_left]; [ring|].
  rewrite (IH (a + Event.amount e)), (IH (0 + Event.amount e)). ring.
Qed.

Lemma sum_amounts_concat (l l' : list Event.t) :
  sum_amounts (l ++ l') == sum_amounts l + sum_amounts l'.
Proof.
  unfold sum_amounts at 1. rewrite fold_left_app.
  rewrite sum_amounts_from. reflexivity.
Qed.

(** The events of a month, rule by rule, with the amounts the month
    records. *)
Lemma month_detail (d : Data.t) (m : Z) (st : state) :
  exists l1 l2 l3,
    overpayment_events (after_rule1 d m st) = overpayment_events st ++ l1
    /\ overpayment_events (after_rule2 d m st)
       = overpayment_events (after_rule1 d m st) ++ l2
    /\ overpayment_events (after_savings d m st)
       = overpayment_events (after_rule2 d m st) ++ l3
    /\ Forall (fun e => Event.month e = m) (l1 ++ l2 ++ l3)
    /\ lump_sum (after_savings d m st) == sum_amounts (l1 ++ l2)
    /\ current_overpayment (after_savings d m st) == sum_amounts l3
    /\ (0 < mortgage_balance st ->
        0 <= standard_monthly_payment (after_rule2 d m st) ->
        (length (l1 ++ l2 ++ l3) <= 1)%nat).
Proof.
  pose proof (rule1_lump d m st) as R1.
  pose proof (rule2_lump d m (after_rule1 d m st)) as R2.
  pose proof (rule3_current d m (after_payment d m st)) as R3.
  cbv zeta in R1, R2, R3.
  change (variable_rate_overpayment d m (after_rule1 d m st))
    with (after_rule2 d m st) in R2.
  change (annual_overpayment d m (after_payment d m st))
    with (after_rule3 d m st) in R3.
  assert (E0 : overpayment_events (after_start d m st) = overpayment_events st)
    by apply events_start.
  assert (B0 : mortgage_balance (after_start d m st) = mortgage_balance st)
    by apply balance_start.
  assert (E3 : overpayment_events (after_payment d m st)
               = overpayment_events (after_rule2 d m st))
    by (unfold after_payment; apply events_regular).
  assert (S3 : cash_savings (after_payment d m st)
               = cash_savings (after_rule2 d m st))
    by (unfold after_payment; apply savings_regular).
  assert (B3 : mortgage_balance (after_payment d m st)
               = mortgage_balance (after_rule2 d m st)
                 - (standard_monthly_payment (after_rule2 d m st)
                    - mortgage_balance (after_rule2 d m st)
                      * (applicable_rate d m / 12)))
    by (unfold after_payment; apply regular_balance).
  assert (E5 : overpayment_events (after_savings d m st)
               = overpayment_events (after_rule3 d m st))
    by (unfold after_savings; apply events_accrual).
  assert (L5 : lump_sum (after_savings d m st) = lump_sum (after_rule2 d m st)).
  { unfold after_savings, after_rule3, after_payment.
    rewrite lump_accrual, lump_rule3, lump_regular. reflexivity. }
  assert (C5 : current_overpayment (after_savings d m st)
               = current_overpayment (after_rule3 d m st))
    by (unfold after_savings; apply current_accrual).
  rewrite E5, L5, C5. clear E5 L5 C5.
  generalize dependent (after_rule3 d m st). intros s4 R3.
  generalize dependent (after_payment d m st). intros s3 E3 S3 B3 R3.
  generalize dependent (after_rule2 d m st). intros s2 R2 E3 S3 B3.
  generalize dependent (after_rule1 d m st). intros s1 R1 R2.
  generalize dependent (after_start d m st). intros s0 E0 B0 R1.
  assert (Sum1 : forall e : Event.t, sum_amounts [e] == Event.amount e)
    by (intro e; unfold sum_amounts; cbn [fold_left]; ring).
  assert (Sum0 : sum_amounts [] == 0) by reflexivity.
  destruct R1 as [[U1 L1]|(i & x1 & O1 & L1 & F1 & Hs1 & Hx1)].
  - (* rule 1 logs nothing *)
    destruct U1 as (Ub1 & Us1 & _ & Ue1). rewrite E0 in Ue1.
    destruct R2 as [[U2 L2]|(F2 & O2 & L2)].
    + destruct U2 as (Ub2 & Us2 & _ & Ue2).
      destruct R3 as [[U3 C3]|(Hb3 & Hx3 & O3 & C3)].
      * destruct U3 as (_ & _ & _ & Ue3). rewrite E3 in Ue3.
        exists [], [], []. cbn [app length]. rewrite !app_nil_r.
        split; [exact Ue1|]. split; [exact Ue2|]. split; [exact Ue3|].
        split; [constructor|].
        split; [rewrite L2, L1; reflexivity|].
        split; [rewrite C3; reflexivity | intros; lia].
      * destruct O3 as (_ & _ & _ & Oe3). rewrite E3 in Oe3.
        eexists [], [], [_]. cbn [app length]. rewrite !app_nil_r.
        split; [exact Ue1|]. split; [exact Ue2|]. split; [exact Oe3|].
        split; [constructor; [reflexivity | constructor]|].
        split; [rewrite L2, L1; reflexivity|].
        split; [rewrite C3, Sum1; reflexivity | intros; lia].
    + destruct O2 as (Ob2 & Os2 & _ & Oe2).
      destruct R3 as [[U3 C3]|(Hb3 & Hx3 & O3 & C3)].
      * destruct U3 as (_ & _ & _ & Ue3). rewrite E3 in Ue3.
        eexists [], [_], []. cbn [app length]. rewrite !app_nil_r.
        split; [exact Ue1|]. split; [exact Oe2|]. split; [exact Ue3|].
        split; [constructor; [reflexivity | constructor]|].
        split; [rewrite L2, Sum1; reflexivity|].
        split; [rewrite C3; reflexivity | intros; lia].
      * destruct O3 as (_ & _ & _ & Oe3). rewrite E3 in Oe3.
        eexists [], [_], [_]. cbn [app length]. rewrite !app_nil_r.
        split; [exact Ue1|]. split; [exact Oe2|]. split; [exact Oe3|].
        split; [constructor; [reflexivity|];
                constructor; [reflexivity | constructor]|].
        split; [rewrite L2, Sum1; reflexivity|].
        split; [rewrite C3, Sum1; reflexivity|].
        intros Hpos Hp. exfalso.
        pose proof (py_min3_le_3 (cash_savings s3 - Data.emergency_buffer d)
                      (yearly_overpayment_limit s3) (mortgage_balance s3)) as H.
        rewrite S3, Os2 in Hb3. rewrite B3, Ob2 in H.
        rewrite B3, Ob2 in Hx3. clear Oe2 L2 Ob2 Os2.
        rewrite <- B0, <- Ub1 in Hpos.
        destruct (py_min_cases
                    (py_max 0 (cash_savings s1 - Data.emergency_buffer d))
                    (mortgage_balance s1)) as [[Hc Hm]|[Hc Hm]];
          destruct (py_max_cases 0 (cash_savings s1 - Data.emergency_buffer d))
            as [[Hd Hl]|[Hd Hl]];
          rewrite Hm in *; try rewrite Hl in *; lra.
  - (* rule 1 sweeps *)
    destruct O1 as (Ob1 & Os1 & _ & Oe1). rewrite E0 in Oe1.
    destruct R2 as [[U2 L2]|(F2 & _)]; [|congruence].
    destruct U2 as (Ub2 & Us2 & _ & Ue2).
    destruct R3 as [[U3 C3]|(Hb3 & Hx3 & O3 & C3)].
    + destruct U3 as (_ & _ & _ & Ue3). rewrite E3 in Ue3.
      eexists [_], [], []. cbn [app length]. rewrite !app_nil_r.
      split; [exact Oe1|]. split; [exact Ue2|]. split; [exact Ue3|].
      split; [constructor; [reflexivity | constructor]|].
      split; [rewrite L2, L1, Sum1; reflexivity|].
      split; [rewrite C3; reflexivity | intros; lia].
    + destruct O3 as (_ & _ & _ & Oe3). rewrite E3 in Oe3.
      eexists [_], [], [_]. cbn [app length]. rewrite !app_nil_r.
      split; [exact Oe1|]. split; [exact Ue2|]. split; [exact Oe3|].
      split; [constructor; [reflexivity|];
              constructor; [reflexivity | constructor]|].
      split; [rewrite L2, L1, Sum1; reflexivity|].
      split; [rewrite C3, Sum1; reflexivity|].
      intros Hpos Hp. exfalso.
      pose proof (py_min3_le_3 (cash_savings s3 - Data.emergency_buffer d)
                    (yearly_overpayment_limit s3) (mortgage_balance s3)) as H.
      rewrite S3, Us2, Os1 in Hb3. rewrite B3, Ub2, Ob1 in H.
      rewrite B3, Ub2, Ob1 in Hx3.
      destruct (py_min_cases (cash_savings s0 - Data.emergency_buffer d)
                  (mortgage_balance s0)) as [[Hc Hm]|[Hc Hm]];
        rewrite <- Hx1 in Hm; rewrite Hm in *; lra.
Qed.

(** The events dated month [n] in a later log are those the month added. *)
Lemma events_of_month_state (d : Data.t) (n M : nat) (l : list Event.t) :
  (S n <= M)%nat ->
  overpayment_events (state_at d (S n)) = overpayment_events (state_at d n) ++ l ->
  Forall (fun e => Event.month e = Z.of_nat n) l ->
  events_of_month (Z.of_nat n) (overpayment_events (state_at d M)) = l.
Proof.
  intros HM El Fl. replace M with (S n + (M - S n))%nat by lia.
  destruct (events_extend d (S n) (M - S n)) as (later & -> & Hlater).
  rewrite El. unfold events_of_month. rewrite !filter_app.
  rewrite (filter_none _ (overpayment_events (state_at d n))),
    (filter_all _ l), (filter_none _ later).
  - rewrite app_nil_r. reflexivity.
  - eapply Forall_impl; [|exact Hlater]. cbv beta. intros e He.
    apply Z.eqb_neq. lia.
  - eapply Forall_impl; [|exact Fl]. cbv beta. intros e He.
    apply Z.eqb_eq. exact He.
  - eapply Forall_impl; [|exact (events_before d n)]. cbv beta. intros e He.
    apply Z.eqb_neq. lia.
Qed.

(** What a simulated month adds to the log, what it records as its
    overpayment, and how many events it can add. *)
Lemma month_summary (d : Data.t) (n M : nat) :
  (S n <= M)%nat ->
  let l := events_of_month (Z.of_nat n) (overpayment_events (state_at d M)) in
  current_overpayment (at_savings d n) + lump_sum (at_savings d n)
  == sum_amounts l
  /\ (0 < mortgage_balance (state_at d n) ->
      0 <= standard_monthly_payment (after_rule2 d (Z.of_nat n) (state_at d n)) ->
      (length l <= 1)%nat).
Proof.
  intro HM. cbv zeta.
  destruct (month_detail d (Z.of_nat n) (state_at d n))
    as (l1 & l2 & l3 & E1 & E2 & E3 & Fl & Hlump & Hcur & Hone).
  assert (El : overpayment_events (state_at d (S n))
               = overpayment_events (state_at d n) ++ (l1 ++ l2 ++ l3)).
  { cbn [state_at]. unfold month_body. rewrite events_track, E3, E2, E1.
    rewrite <- !app_assoc. reflexivity. }
  rewrite (events_of_month_state d n M _ HM El Fl).
  split; [|exact Hone].
  unfold at_savings. rewrite Hlump, Hcur, !sum_amounts_concat. ring.
Qed.

(** X8. The overpayment recorded for a month is the sum of the amounts of the
    events of the returned log dated that month. *)
Theorem monthly_overpayment_is_sum_of_events (d : Data.t) (n : nat) (x : Q) :
  nth_error (Result.overpayments (run_simulation d)) n = Some x ->
  x == sum_amounts
         (events_of_month (Z.of_nat n)
            (Result.overpayment_events (run_simulation d))).
Proof.
  destruct (run_simulation_returns d) as (m & _ & _ & _ & H).
  cbv zeta in H.
  destruct H as (_ & _ & _ & _ & _ & _ & -> & _ & _ & -> & _).
  rewrite tracking_state_at. cbn [overpayments].
  rewrite nth_error_map_seq. destruct (Nat.ltb_spec n m) as [Hn|Hn];
    [|discriminate].
  intro Hx. inversion Hx; subst x. clear Hx.
  exact (proj1 (month_summary d n m Hn)).
Qed.

Lemma monthly_overpayment_is_sum_of_events_witness :
  exists x,
    nth_error (Result.overpayments (run_simulation swept_in_month_1)) 1 = Some x
    /\ x == sum_amounts
              (events_of_month 1
                 (Result.overpayment_events (run_simulation swept_in_month_1))).
Proof.
  assert (Hx : nth_error (Result.overpayments
                            (run_simulation swept_in_month_1)) 1
               = Some (current_overpayment (at_savings swept_in_month_1 1)
                       + lump_sum (at_savings swept_in_month_1 1)))
    by (vm_compute; reflexivity).
  eexists. split; [exact Hx|].
  exact (monthly_overpayment_is_sum_of_events swept_in_month_1 1 _ Hx).
Defined.

(** The events a month adds to the log: at most one from rule 1 or rule 2,
    which exclude one another, then at most one from rule 3. *)
Lemma month_shape (d : Data.t) (m : Z) (st : state) :
  exists l12 l3,
    overpayment_events (month_body d m st) = overpayment_events st ++ l12 ++ l3
    /\ Forall (fun e => Event.month e = m) (l12 ++ l3)
    /\ (length l12 <= 1)%nat /\ (length l3 <= 1)%nat
    /\ Forall (fun e => Event.is_annual e = false) l12
    /\ Forall (fun e => Event.is_annual e = true) l3.
Proof.
  pose proof (rule1_outcome d m st) as R1.
  pose proof (rule2_outcome d m (after_rule1 d m st)) as R2.
  pose proof (rule3_outcome d m (after_payment d m st)) as R3.
  cbv zeta in R1, R2, R3.
  change (variable_rate_overpayment d m (after_rule1 d m st))
    with (after_rule2 d m st) in R2.
  change (annual_overpayment d m (after_payment d m st))
    with (after_rule3 d m st) in R3.
  assert (E0 : overpayment_events (after_start d m st) = overpayment_events st)
    by apply events_start.
  assert (E3 : overpayment_events (after_payment d m st)
               = overpayment_events (after_rule2 d m st))
    by (unfold after_payment; apply events_regular).
  assert (E5 : overpayment_events (month_body d m st)
               = overpayment_events (after_rule3 d m st)).
  { unfold month_body, after_savings. rewrite events_track, events_accrual.
    reflexivity. }
  rewrite E5. clear E5.
  assert (H12 : exists l12,
            overpayment_events (after_rule2 d m st) = overpayment_events st ++ l12
            /\ Forall (fun e => Event.month e = m) l12
            /\ (length l12 <= 1)%nat
            /\ Forall (fun e => Event.is_annual e = false) l12).
  { destruct R1 as [[U1 _]|(i & _ & O1 & _ & F1)].
    - destruct R2 as [U2|(_ & _ & _ & O2)].
      + exists []. rewrite (untouched_events _ _ U2), (untouched_events _ _ U1), E0.
        rewrite app_nil_r. split; [reflexivity|]. split; [constructor|].
        split; [cbn [length]; lia | constructor].
      + eexists [_]. rewrite (overpays_events _ _ _ _ _ O2),
          (untouched_events _ _ U1), E0.
        split; [reflexivity|].
        split; [constructor; [reflexivity | constructor]|].
        split; [cbn [length]; lia|].
        constructor; [reflexivity | constructor].
    - destruct R2 as [U2|(F2 & _)]; [|rewrite F1 in F2; discriminate].
      eexists [_]. rewrite (untouched_events _ _ U2),
        (overpays_events _ _ _ _ _ O1), E0.
      split; [reflexivity|].
      split; [constructor; [reflexivity | constructor]|].
      split; [cbn [length]; lia|].
      constructor; [reflexivity | constructor]. }
  destruct H12 as (l12 & E12 & F12 & L12 & K12).
  exists l12.
  destruct R3 as [[U3 _]|(_ & _ & _ & _ & O3 & _)].
  - exists []. rewrite (untouched_events _ _ U3), E3, E12, !app_nil_r.
    split; [reflexivity|]. split; [exact F12|]. split; [exact L12|].
    split; [cbn [length]; lia|]. split; [exact K12 | constructor].
  - eexists [_]. rewrite (overpays_events _ _ _ _ _ O3), E3, E12.
    rewrite <- app_assoc.
    split; [reflexivity|].
    split; [apply Forall_app; split;
            [exact F12 | constructor; [reflexivity | constructor]]|].
    split; [exact L12|]. split; [cbn [length]; lia|].
    split; [exact K12 | constructor; [reflexivity | constructor]].
Qed.

(** The same for the events of a month in the returned log. *)
Lemma returned_month_shape (d : Data.t) (n : nat) :
  exists l12 l3,
    events_of_month (Z.of_nat n) (Result.overpayment_events (run_simulation d))
    = l12 ++ l3
    /\ (length l12 <= 1)%nat /\ (length l3 <= 1)%nat
    /\ Forall (fun e => Event.is_annual e = false) l12
    /\ Forall (fun e => Event.is_annual e = true) l3.
Proof.
  destruct (run_simulation_returns d) as (m & _ & _ & _ & H).
  cbv zeta in H.
  destruct H as (_ & _ & _ & _ & _ & _ & _ & _ & _ & -> & _).
  destruct (Nat.ltb_spec n m) as [Hn|Hn].
  - destruct (month_shape d (Z.of_nat n) (state_at d n))
      as (l12 & l3 & E & Fm & L12 & L3 & K12 & K3).
    exists l12, l3.
    rewrite (events_of_month_state d n m (l12 ++ l3) Hn E Fm).
    repeat split; assumption.
  - exists [], []. unfold events_of_month. rewrite filter_none.
    + repeat split; try constructor; cbn [length]; lia.
    + eapply Forall_impl; [|exact (events_before d m)]. cbv beta.
      intros e He. apply Z.eqb_neq. lia.
Qed.

(** X9. The events of the returned log that are dated the same month are at
    most two: at most one logged by rule 1 or rule 2 (an end-of-fixed-period
    or a variable-rate overpayment; the two rules exclude one another) and
    at most one annual overpayment; when there are two, the annual
    overpayment is the second. *)
Theorem at_most_two_overpayments_a_month (d : Data.t) (n : nat) :
  let l := events_of_month (Z.of_nat n)
             (Result.overpayment_events (run_simulation d)) in
  (length l <= 2)%nat
  /\ (length (filter Event.is_annual l) <= 1)%nat
  /\ (length (filter (fun e => negb (Event.is_annual e)) l) <= 1)%nat
  /\ forall e1 e2,
       l = [e1; e2] -> Event.is_annual e1 = false /\ Event.is_annual e2 = true.
Proof.
  cbv zeta.
  destruct (returned_month_shape d n) as (l12 & l3 & -> & L12 & L3 & K12 & K3).
  destruct l12 as [|a [|a' l12]]; [| |cbn [length] in L12; lia];
    destruct l3 as [|b [|b' l3]]; try (cbn [length] in L3; lia);
    cbn [app].
  - cbn [length filter].
    split; [lia|]. split; [lia|]. split; [lia|].
    intros e1 e2 H; discriminate.
  - inversion K3 as [|? ? Hb _]; subst.
    cbn [filter]. rewrite Hb. cbn [negb length].
    split; [lia|]. split; [lia|]. split; [lia|].
    intros e1 e2 H; discriminate.
  - inversion K12 as [|? ? Ha _]; subst.
    cbn [filter]. rewrite Ha. cbn [negb length].
    split; [lia|]. split; [lia|]. split; [lia|].
    intros e1 e2 H; discriminate.
  - inversion K12 as [|? ? Ha _]; subst.
    inversion K3 as [|? ? Hb _]; subst.
    cbn [filter]. rewrite Ha, Hb. cbn [negb length].
    split; [lia|]. split; [lia|]. split; [lia|].
    intros e1 e2 H. inversion H; subst. split; assumption.
Qed.

(** ** Amortisation (lines 273-280 and 374-380) *)

(** A list that is extended and stays empty was extended by nothing. *)
Lemma quiet_step (s s' : state) :
  overpayment_events s' = overpayment_events s ->
  untouched s s' \/ (exists m x k, overpays m x k s s') ->
  mortgage_balance s' = mortgage_balance s.
Proof.
  intros He [U|(m & x & k & O)]; [exact (proj1 U)|].
  destruct O as (_ & _ & _ & Oe). rewrite He in Oe.
  apply (f_equal (@length Event.t)) in Oe. rewrite length_app in Oe.
  cbn [length] in Oe. lia.
Qed.

(** In a month that adds nothing to the log the balance moves by the
    regular payment alone. *)
Lemma quiet_month (d : Data.t) (m : Z) (st : state) :
  overpayment_events (month_body d m st) = overpayment_events st ->
  mortgage_balance (month_body d m st)
  = mortgage_balance st
    - (standard_monthly_payment (after_rule1 d m st)
       - mortgage_balance st * (applicable_rate d m / 12)).
Proof.
  intro Hq.
  destruct (month_detail d m st)
    as (l1 & l2 & l3 & E1 & E2 & E3 & _).
  assert (Hl : l1 = [] /\ l2 = [] /\ l3 = []).
  { unfold month_body in Hq. rewrite events_track, E3, E2, E1 in Hq.
    apply (f_equal (@length Event.t)) in Hq. rewrite !length_app in Hq.
    destruct l1, l2, l3; cbn [length] in Hq; try lia. repeat split. }
  destruct Hl as (-> & -> & ->). rewrite app_nil_r in E1, E2, E3.
  assert (B1 : mortgage_balance (after_rule1 d m st) = mortgage_balance st).
  { rewrite <- (balance_start d m st). apply quiet_step.
    - rewrite E1. symmetry. apply events_start.
    - destruct (rule1_outcome d m st) as [[U _]|(i & _ & O & _)];
        [left; exact U | right; eexists _, _, _; exact O]. }
  assert (B2 : mortgage_balance (after_rule2 d m st) = mortgage_balance st).
  { rewrite <- B1. apply quiet_step; [exact E2|].
    destruct (rule2_outcome d m (after_rule1 d m st)) as [U|(_ & _ & _ & O)];
      [left; exact U | right; eexists _, _, _; exact O]. }
  assert (P2 : standard_monthly_payment (after_rule2 d m st)
               = standard_monthly_payment (after_rule1 d m st))
    by (unfold after_rule2; apply payment_rule2).
  unfold month_body, after_savings. rewrite balance_track, balance_accrual.
  unfold after_savings in E3. rewrite events_accrual in E3.
  assert (B4 : mortgage_balance (after_rule3 d m st)
               = mortgage_balance (after_payment d m st)).
  { apply quiet_step.
    - rewrite E3. unfold after_payment. symmetry. apply events_regular.
    - destruct (rule3_outcome d m (after_payment d m st))
        as [[U _]|(_ & _ & _ & _ & O & _)];
        [left; exact U | right; eexists _, _, _; exact O]. }
  rewrite B4. unfold after_payment. rewrite regular_balance, B2, P2.
  reflexivity.
Qed.

Section Amortisation.

Variable d : Data.t.
Hypothesis no_fixed_period : Data.fixed_periods d = [].

Lemma rate_without_fixed_period (m : Z) :
  applicable_rate d m = Data.mortgage_rate_after_fixed d.
Proof.
  unfold applicable_rate, fixed_period_schedule. rewrite no_fixed_period.
  reflexivity.
Qed.

Lemma payment_without_fixed_period (n : nat) :
  standard_monthly_payment (state_at d n)
  = pmt (Data.mortgage_rate_after_fixed d / 12) (n_payments_total d)
        (- Data.initial_mortgage d).
Proof.
  induction n as [|n IH].
  - cbn [state_at initial_state standard_monthly_payment].
    unfold current_rate, fixed_period_schedule. rewrite no_fixed_period.
    reflexivity.
  - cbn [state_at]. rewrite payment_after_rule1.
    rewrite (proj1 (payment_rule1 d (Z.of_nat n) (state_at d n))); [exact IH|].
    unfold fixed_period_schedule. rewrite no_fixed_period. intros p [].
Qed.

(** As long as the log is empty the balance follows the recurrence of the
    annuity. *)
Lemma quiet_balance_step (n : nat) :
  overpayment_events (state_at d (S n)) = [] ->
  overpayment_events (state_at d n) = []
  /\ mortgage_balance (state_at d (S n))
     = mortgage_balance (state_at d n)
       - (pmt (Data.mortgage_rate_after_fixed d / 12) (n_payments_total d)
              (- Data.initial_mortgage d)
          - mortgage_balance (state_at d n)
            * (Data.mortgage_rate_after_fixed d / 12)).
Proof.
  intro Hq.
  assert (H0 : overpayment_events (state_at d n) = []).
  { destruct (events_step d n) as (l & El & _). rewrite El in Hq.
    apply app_eq_nil in Hq. exact (proj1 Hq). }
  split; [exact H0|].
  cbn [state_at] in *. rewrite quiet_month by (rewrite Hq, H0; reflexivity).
  rewrite rate_without_fixed_period.
  rewrite <- payment_without_fixed_period with (n := S n).
  cbn [state_at]. rewrite payment_after_rule1. reflexivity.
Qed.

End Amortisation.

Lemma Qeq_bool_false (x y : Q) : ~ x == y -> Qeq_bool x y = false.
Proof.
  intro H. destruct (Qeq_bool x y) eqn:E; [|reflexivity].
  destruct (H (Qeq_bool_eq _ _ E)).
Qed.

(** The closed form of the annuity recurrence at a non-zero rate. *)
Lemma annuity_closed_form (P p i : Q) (f : nat -> Q) (K : nat) :
  ~ i == 0 -> f 0%nat == P ->
  (forall k, (k < K)%nat -> f (S k) == f k - (p - f k * i)) ->
  forall k, (k <= K)%nat ->
    f k == P * (1 + i) ^ Z.of_nat k - p * ((1 + i) ^ Z.of_nat k - 1) / i.
Proof.
  intros Hi H0 HS. induction k as [|k IH]; intro Hk.
  - rewrite H0. cbn [Z.of_nat Qpower]. field. exact Hi.
  - rewrite (HS k) by lia. rewrite (IH ltac:(lia)).
    replace (Z.of_nat (S k)) with (Z.of_nat k + 1)%Z by lia.
    rewrite Qpower_plus' by lia. rewrite Qpower_1_r.
    field. exact Hi.
Qed.

(** At a zero rate the balance goes down by the payment each month. *)
Lemma linear_closed_form (P p i : Q) (f : nat -> Q) (K : nat) :
  i == 0 -> f 0%nat == P ->
  (forall k, (k < K)%nat -> f (S k) == f k - (p - f k * i)) ->
  forall k, (k <= K)%nat -> f k == P - inject_Z (Z.of_nat k) * p.
Proof.
  intros Hi H0 HS. induction k as [|k IH]; intro Hk.
  - rewrite H0. cbn [Z.of_nat]. change (inject_Z 0) with 0. ring.
  - rewrite (HS k) by lia. rewrite (IH ltac:(lia)), Hi.
    rewrite Nat2Z.inj_succ. unfold Z.succ. rewrite inject_Z_plus.
    change (inject_Z 1) with 1. ring.
Qed.

(** Before the last payment of the term the closed form is positive, when
    the rate is not negative and the principal is positive. *)
Lemma scheduled_balance_positive (P i : Q) (N : Z) (k : nat) :
  0 <= i -> 0 < P -> (Z.of_nat k < N)%Z ->
  0 < (if Qeq_bool i 0
       then P - inject_Z (Z.of_nat k) * pmt i N (- P)
       else P * (1 + i) ^ Z.of_nat k
            - pmt i N (- P) * ((1 + i) ^ Z.of_nat k - 1) / i).
Proof.
  intros Hi HP Hk.
  assert (HN : (0 < N)%Z) by lia.
  destruct (Qeq_dec i 0) as [Hz|Hnz].
  - rewrite (Qeq_eq_bool _ _ Hz). rewrite (pmt_zero_rate _ _ _ Hz).
    assert (Hk' : inject_Z (Z.of_nat k) < inject_Z N)
      by (rewrite <- Zlt_Qlt; exact Hk).
    assert (HN' : inject_Z 0 < inject_Z N) by (rewrite <- Zlt_Qlt; exact HN).
    change (inject_Z 0) with 0 in HN'.
    set (b := inject_Z N) in Hk', HN' |- *.
    set (a := inject_Z (Z.of_nat k)) in Hk' |- *.
    clearbody a b.
    setoid_replace (P - a * (- - P / b)) with (P * ((b - a) * / b))
      by (field; lra).
    apply Qmult_lt_0_compat; [exact HP|].
    apply Qmult_lt_0_compat; [lra | apply Qinv_lt_0_compat; exact HN'].
  - rewrite (Qeq_bool_false _ _ Hnz).
    assert (Hpos : 0 < i) by lra.
    unfold pmt. rewrite (Qeq_bool_false _ _ Hnz).
    assert (Ht : (1 + i) ^ Z.of_nat k < (1 + i) ^ N)
      by (apply Qpower_lt_compat_l; [exact Hk | lra]).
    assert (HT : 1 < (1 + i) ^ N) by (apply Qpower_1_lt; [lra | exact HN]).
    set (T := (1 + i) ^ N) in Ht, HT |- *.
    set (t := (1 + i) ^ Z.of_nat k) in Ht |- *.
    clearbody T t.
    setoid_replace
      (P * t - - (0 + - P * T) / ((1 + i * 0) * (T - 1) / i) * (t - 1) / i)
      with (P * ((T - t) * / (T - 1)))
      by (field; split; lra).
    apply Qmult_lt_0_compat; [exact HP|].
    apply Qmult_lt_0_compat; [lra | apply Qinv_lt_0_compat; lra].
Qed.

(** X10. Without fixed periods and at a variable rate that is not negative, a
    run keeps to the repayment schedule as long as it makes no overpayment.
    If nothing is logged up to month [n], a month before the last payment
    of the term, the balance recorded for month [n] is the balance of the
    standard schedule after [n + 1] payments of [pmt]: the principal less
    [n + 1] payments at a zero rate, and
    [P (1 + i)^(n+1) - p ((1 + i)^(n+1) - 1) / i] at a monthly rate [i]
    that is positive.  When the principal is positive that balance is
    strictly positive: without overpayments the mortgage is not cleared
    before the last payment of its term. *)
Theorem balance_follows_the_schedule (d : Data.t) (n : nat) (b : Q) :
  Data.fixed_periods d = [] ->
  0 <= Data.mortgage_rate_after_fixed d ->
  (Z.of_nat (S n) < n_payments_total d)%Z ->
  events_up_to (Z.of_nat n) (Result.overpayment_events (run_simulation d)) = [] ->
  nth_error (Result.mortgage_balances (run_simulation d)) n = Some b ->
  let i := Data.mortgage_rate_after_fixed d / 12 in
  let p := pmt i (n_payments_total d) (- Data.initial_mortgage d) in
  let k := Z.of_nat (S n) in
  b == (if Qeq_bool i 0
        then Data.initial_mortgage d - inject_Z k * p
        else Data.initial_mortgage d * (1 + i) ^ k - p * ((1 + i) ^ k - 1) / i)
  /\ (0 < Data.initial_mortgage d -> 0 < b).
Proof.
  intros Hfix Hrate Hterm Hquiet Hb. cbv zeta.
  destruct (run_simulation_returns d) as (m & _ & _ & _ & H).
  cbv zeta in H.
  destruct H as (Eb & _ & _ & _ & _ & _ & _ & _ & _ & Ee & _).
  rewrite Eb, mortgage_balances_state_at, nth_error_map_seq in Hb.
  destruct (Nat.ltb_spec n m) as [Hn|Hn]; [|discriminate].
  inversion Hb; subst b. clear Hb.
  rewrite Ee, events_up_to_state in Hquiet by lia.
  assert (Hall : forall k, (k <= S n)%nat ->
                   overpayment_events (state_at d k) = []).
  { intros k Hk. replace (S n) with (k + (S n - k))%nat in Hquiet by lia.
    destruct (events_extend d k (S n - k)) as (l & El & _).
    rewrite El in Hquiet. apply app_eq_nil in Hquiet. exact (proj1 Hquiet). }
  assert (Hstep : forall k, (k < S n)%nat ->
            mortgage_balance (state_at d (S k))
            == mortgage_balance (state_at d k)
               - (pmt (Data.mortgage_rate_after_fixed d / 12)
                      (n_payments_total d) (- Data.initial_mortgage d)
                  - mortgage_balance (state_at d k)
                    * (Data.mortgage_rate_after_fixed d / 12))).
  { intros k Hk.
    rewrite (proj2 (quiet_balance_step d Hfix k (Hall (S k) ltac:(lia)))).
    reflexivity. }
  assert (Hnow : mortgage_balance (at_savings d n)
                 = mortgage_balance (state_at d (S n))).
  { cbn [state_at]. unfold month_body, at_savings. rewrite balance_track.
    reflexivity. }
  rewrite Hnow.
  assert (H0 : mortgage_balance (state_at d 0) == Data.initial_mortgage d)
    by reflexivity.
  assert (Hform :
    mortgage_balance (state_at d (S n))
    == (if Qeq_bool (Data.mortgage_rate_after_fixed d / 12) 0
        then Data.initial_mortgage d
             - inject_Z (Z.of_nat (S n))
               * pmt (Data.mortgage_rate_after_fixed d / 12)
                     (n_payments_total d) (- Data.initial_mortgage d)
        else Data.initial_mortgage d
             * (1 + Data.mortgage_rate_after_fixed d / 12) ^ Z.of_nat (S n)
             - pmt (Data.mortgage_rate_after_fixed d / 12)
                   (n_payments_total d) (- Data.initial_mortgage d)
               * ((1 + Data.mortgage_rate_after_fixed d / 12) ^ Z.of_nat (S n)
                  - 1)
               / (Data.mortgage_rate_after_fixed d / 12))).
  { destruct (Qeq_dec (Data.mortgage_rate_after_fixed d / 12) 0) as [Hz|Hnz].
    - rewrite (Qeq_eq_bool _ _ Hz).
      exact (linear_closed_form _ _ _
               (fun k => mortgage_balance (state_at d k))
               (S n) Hz H0 Hstep (S n) (le_n _)).
    - rewrite (Qeq_bool_false _ _ Hnz).
      exact (annuity_closed_form _ _ _
               (fun k => mortgage_balance (state_at d k))
               (S n) Hnz H0 Hstep (S n) (le_n _)). }
  split; [exact Hform|].
  intros HP. rewrite Hform.
  apply scheduled_balance_positive; [|exact HP | exact Hterm].
  apply Qle_shift_div_l; [reflexivity | lra].
Qed.

Lemma balance_follows_the_schedule_witness :
  Data.fixed_periods baseline_household = []
  /\ 0 <= Data.mortgage_rate_after_fixed baseline_household
  /\ (Z.of_nat 1 < n_payments_total baseline_household)%Z
  /\ events_up_to (Z.of_nat 0)
       (Result.overpayment_events (run_simulation baseline_household)) = []
  /\ exists b,
       nth_error (Result.mortgage_balances (run_simulation baseline_household))
         0 = Some b
       /\ 0 < b.
Proof.
  assert (Hfix : Data.fixed_periods baseline_household = []) by reflexivity.
  assert (Hrate : 0 <= Data.mortgage_rate_after_fixed baseline_household)
    by (vm_compute; discriminate).
  assert (Hterm : (Z.of_nat 1 < n_payments_total baseline_household)%Z)
    by reflexivity.
  assert (He : enters baseline_household 0 = true) by (vm_compute; reflexivity).
  assert (Hq : events_up_to (Z.of_nat 0)
                 (Result.overpayment_events (run_simulation baseline_household))
               = []).
  { destruct (run_simulation_returns baseline_household)
      as (m & Hrun & Hstop & _ & H).
    cbv zeta in H.
    destruct H as (_ & _ & _ & _ & _ & _ & _ & _ & _ & -> & _).
    assert (Hm : (0 < m)%nat)
      by (apply (enters_iff_before_stop baseline_household m 0 Hrun Hstop);
          exact He).
    rewrite (events_up_to_state baseline_household 0 m Hm).
    vm_compute. reflexivity. }
  assert (Hb : nth_error (Result.mortgage_balances
                            (run_simulation baseline_household)) 0
               = Some (mortgage_balance (at_savings baseline_household 0))).
  { rewrite (recorded_balance baseline_household 0). rewrite He. reflexivity. }
  split; [exact Hfix|]. split; [exact Hrate|]. split; [exact Hterm|].
  split; [exact Hq|].
  exists (mortgage_balance (at_savings baseline_household 0)).
  split; [exact Hb|].
  apply (proj2 (balance_follows_the_schedule baseline_household 0 _
                  Hfix Hrate Hterm Hq Hb)).
  reflexivity.
Defined.

(** ** A household with no spare cash (lines 327-405) *)

Lemma rule2_without_schedule (d : Data.t) (m : Z) (s : state) :
  fixed_period_schedule d = [] -> variable_rate_overpayment d m s = s.
Proof.
  intro H. unfold variable_rate_overpayment. rewrite H.
  destruct (end_of_fixed_period s); reflexivity.
Qed.

Lemma rule3_under_buffer (d : Data.t) (m : Z) (s : state) :
  cash_savings s <= Data.emergency_buffer d ->
  untouched s (annual_overpayment d m s).
Proof.
  intro H. destruct (rule3_current d m s) as [[U _]|(Hb & _)]; [exact U|].
  lra.
Qed.

Section Baseline.

Variable d : Data.t.
Hypothesis no_fixed_period : Data.fixed_periods d = [].
Hypothesis savings_under_buffer :
  Data.initial_savings d <= Data.emergency_buffer d.
Hypothesis no_income_growth : Data.income_growth_rate d == 0.
Hypothesis no_expense_growth : Data.expense_growth_rate d == 0.
Hypothesis no_spare_cash_left :
  Data.monthly_income d - Data.monthly_expenses d
  <= pmt (Data.mortgage_rate_after_fixed d / 12) (n_payments_total d)
         (- Data.initial_mortgage d).

Lemma no_schedule : fixed_period_schedule d = [].
Proof. unfold fixed_period_schedule. rewrite no_fixed_period. reflexivity. Qed.

Lemma rule1_without_schedule (m : Z) (st : state) :
  after_rule1 d m st = set_end_of_fixed_period false (after_start d m st).
Proof.
  destruct (rule1_cases d m st) as [[E _]|(j & _ & p & Hin & _)]; [exact E|].
  rewrite no_schedule in Hin. destruct Hin.
Qed.

(** A month that starts with the savings under the buffer and leaves no
    cash after the payment changes neither the log nor the savings. *)
Lemma baseline_month (m : Z) (st : state) :
  cash_savings st <= Data.emergency_buffer d ->
  available_cash (after_rule3 d m st) <= 0 ->
  overpayment_events (month_body d m st) = overpayment_events st
  /\ cash_savings (month_body d m st) = cash_savings st.
Proof.
  intros Hs Ha. unfold month_body, after_savings.
  rewrite events_track, savings_track, events_accrual, accrual_savings.
  rewrite (proj2 (Qltb_false _ _) Ha). clear Ha.
  unfold after_rule3, after_payment, after_rule2.
  rewrite (rule2_without_schedule d _ _ no_schedule), rule1_without_schedule.
  assert (S0 : cash_savings (set_end_of_fixed_period false (after_start d m st))
               = cash_savings st).
  { rewrite <- (savings_start d m st).
    generalize (after_start d m st). intro s. reflexivity. }
  assert (E0 : overpayment_events
                 (set_end_of_fixed_period false (after_start d m st))
               = overpayment_events st).
  { rewrite <- (events_start d m st).
    generalize (after_start d m st). intro s. reflexivity. }
  generalize dependent (set_end_of_fixed_period false (after_start d m st)).
  intros s1 S0 E0.
  destruct (rule3_under_buffer d m (regular_payment d m s1))
    as (_ & -> & _ & ->).
  - rewrite savings_regular, S0. exact Hs.
  - rewrite events_regular, savings_regular. split; assumption.
Qed.

(** Such a household never overpays: month after month the log stays
    empty, the savings stay what they were, and so do income and
    expenses. *)
Lemma baseline_invariant (k : nat) :
  overpayment_events (state_at d k) = []
  /\ cash_savings (state_at d k) = Data.initial_savings d
  /\ monthly_income (state_at d k) == Data.monthly_income d
  /\ monthly_expenses (state_at d k) == Data.monthly_expenses d.
Proof.
  induction k as [|k (He & Hs & Hi & Hx)].
  - repeat split; reflexivity.
  - assert (Hi3 : monthly_income (after_rule3 d (Z.of_nat k) (state_at d k))
                  == Data.monthly_income d).
    { unfold after_rule3, after_payment, after_rule2, after_rule1.
      rewrite income_rule3, income_regular, income_rule2, income_rule1,
        start_income.
      destruct ((0 <? Z.of_nat k)%Z && (Z.of_nat k mod 12 =? 0)%Z)%bool;
        rewrite Hi; [rewrite no_income_growth; ring | reflexivity]. }
    assert (Hx3 : monthly_expenses (after_rule3 d (Z.of_nat k) (state_at d k))
                  == Data.monthly_expenses d).
    { unfold after_rule3, after_payment, after_rule2, after_rule1.
      rewrite expenses_rule3, expenses_regular, expenses_rule2, expenses_rule1,
        start_expenses.
      destruct ((0 <? Z.of_nat k)%Z && (Z.of_nat k mod 12 =? 0)%Z)%bool;
        rewrite Hx; [rewrite no_expense_growth; ring | reflexivity]. }
    assert (Hp3 : standard_monthly_payment
                    (after_rule3 d (Z.of_nat k) (state_at d k))
                  = pmt (Data.mortgage_rate_after_fixed d / 12)
                        (n_payments_total d) (- Data.initial_mortgage d)).
    { rewrite <- (payment_without_fixed_period d no_fixed_period (S k)).
      cbn [state_at]. rewrite payment_after_rule1.
      unfold after_rule3, after_payment, after_rule2.
      rewrite payment_rule3, payment_regular, payment_rule2. reflexivity. }
    assert (Hav : available_cash (after_rule3 d (Z.of_nat k) (state_at d k)) <= 0).
    { rewrite (available_after_rule3 d (Z.of_nat k) (state_at d k)).
      rewrite Hp3, Hi3, Hx3. lra. }
    destruct (baseline_month (Z.of_nat k) (state_at d k)) as [E S];
      [rewrite Hs; exact savings_under_buffer | exact Hav |].
    cbn [state_at]. rewrite E, S. split; [exact He|]. split; [exact Hs|].
    unfold month_body, after_savings.
    rewrite income_track, income_accrual, expenses_track, expenses_accrual.
    split; [exact Hi3 | exact Hx3].
Qed.

(** And no month leaves it any cash after the payment. *)
Lemma baseline_available (k : nat) : available_cash (at_savings d k) <= 0.
Proof.
  destruct (baseline_invariant k) as (_ & _ & Hi & Hx).
  unfold at_savings, after_savings. rewrite available_accrual.
  rewrite (available_after_rule3 d (Z.of_nat k) (state_at d k)).
  assert (Hi3 : monthly_income (after_rule3 d (Z.of_nat k) (state_at d k))
                == Data.monthly_income d).
  { unfold after_rule3, after_payment, after_rule2, after_rule1.
    rewrite income_rule3, income_regular, income_rule2, income_rule1,
      start_income.
    destruct ((0 <? Z.of_nat k)%Z && (Z.of_nat k mod 12 =? 0)%Z)%bool;
      rewrite Hi; [rewrite no_income_growth; ring | reflexivity]. }
  assert (Hx3 : monthly_expenses (after_rule3 d (Z.of_nat k) (state_at d k))
                == Data.monthly_expenses d).
  { unfold after_rule3, after_payment, after_rule2, after_rule1.
    rewrite expenses_rule3, expenses_regular, expenses_rule2, expenses_rule1,
      start_expenses.
    destruct ((0 <? Z.of_nat k)%Z && (Z.of_nat k mod 12 =? 0)%Z)%bool;
      rewrite Hx; [rewrite no_expense_growth; ring | reflexivity]. }
  assert (Hp3 : standard_monthly_payment
                  (after_rule3 d (Z.of_nat k) (state_at d k))
                = pmt (Data.mortgage_rate_after_fixed d / 12)
                      (n_payments_total d) (- Data.initial_mortgage d)).
  { rewrite <- (payment_without_fixed_period d no_fixed_period (S k)).
    cbn [state_at]. rewrite payment_after_rule1.
    unfold after_rule3, after_payment, after_rule2.
    rewrite payment_rule3, payment_regular, payment_rule2. reflexivity. }
  rewrite Hp3, Hi3, Hx3. lra.
Qed.

End Baseline.

(** A month that finds the savings at or under the buffer and leaves no cash
    after the payment changes neither the log nor the savings, when there
    is no fixed period or the threshold is positive. *)
Lemma no_spare_month (d : Data.t) (m : Z) (st : state) :
  fixed_period_schedule d = [] \/ 0 < Data.min_overpayment_threshold d ->
  cash_savings st <= Data.emergency_buffer d ->
  available_cash (after_savings d m st) <= 0 ->
  overpayment_events (month_body d m st) = overpayment_events st
  /\ cash_savings (month_body d m st) = cash_savings st.
Proof.
  intros Hcfg Hs Ha.
  unfold after_savings in Ha. rewrite available_accrual in Ha.
  unfold month_body, after_savings.
  rewrite events_track, savings_track, events_accrual, accrual_savings.
  rewrite (proj2 (Qltb_false _ _) Ha). clear Ha.
  assert (H1 : overpayment_events (after_rule1 d m st) = overpayment_events st
               /\ cash_savings (after_rule1 d m st) = cash_savings st).
  { destruct (rule1_outcome d m st) as [[U _]|(i & Hpos & _)].
    - destruct U as (_ & Us & _ & Ue).
      rewrite Ue, Us, events_start, savings_start. split; reflexivity.
    - rewrite savings_start in Hpos. exfalso. lra. }
  destruct H1 as [E1 S1].
  assert (H2 : overpayment_events (after_rule2 d m st) = overpayment_events st
               /\ cash_savings (after_rule2 d m st) = cash_savings st).
  { unfold after_rule2.
    destruct (rule2_outcome d m (after_rule1 d m st))
      as [U|(_ & _ & Hth & O)].
    - destruct U as (_ & Us & _ & Ue). rewrite Ue, Us. split; assumption.
    - exfalso. destruct Hcfg as [Hnil|Hpos].
      + apply (applied_untouched _ _ _ (overpays_applied _ _ _ _ _ O)).
        rewrite (rule2_without_schedule d m _ Hnil). repeat split.
      + rewrite S1 in Hth.
        destruct (py_max_cases 0 (cash_savings st - Data.emergency_buffer d))
          as [[Hd _]|[_ Hx]]; [|rewrite Hx in Hth]; lra. }
  destruct H2 as [E2 S2].
  unfold after_rule3, after_payment.
  destruct (rule3_under_buffer d m (regular_payment d m (after_rule2 d m st)))
    as (_ & -> & _ & ->).
  - rewrite savings_regular, S2. exact Hs.
  - rewrite events_regular, savings_regular. split; assumption.
Qed.

(** X11. A household with no spare cash never overpays.  When the initial
    savings do not exceed the emergency buffer, no month of the run records
    a positive available cash, and there is no fixed period or the minimum
    overpayment threshold is positive, then the event log is empty, the
    total overpaid is 0, every month records an overpayment of 0 and the
    initial savings as savings balance, and the final savings are the
    initial savings. *)
Theorem no_spare_cash_no_overpayment (d : Data.t) :
  Data.initial_savings d <= Data.emergency_buffer d ->
  Data.fixed_periods d = [] \/ 0 < Data.min_overpayment_threshold d ->
  Forall (fun a => a <= 0) (Result.available_cashes (run_simulation d)) ->
  let r := run_simulation d in
  Result.overpayment_events r = []
  /\ Result.total_overpayments r == 0
  /\ Forall (fun x => x == 0) (Result.overpayments r)
  /\ Forall (fun x => x = Data.initial_savings d) (Result.savings_balances r)
  /\ Result.final_savings r = Data.initial_savings d.
Proof.
  intros Hs Hcfg Hav. cbv zeta.
  destruct (run_simulation_returns d) as (m & _ & _ & _ & H).
  cbv zeta in H.
  destruct H as (_ & Es & _ & _ & _ & _ & Eo & Ea & _ & Ee & Et & Ef & _).
  rewrite Ea, tracking_state_at in Hav. cbn [available_cashes] in Hav.
  rewrite Forall_forall in Hav.
  assert (Hcfg' : fixed_period_schedule d = []
                  \/ 0 < Data.min_overpayment_threshold d).
  { destruct Hcfg as [Hnil|Hpos]; [left | right; exact Hpos].
    unfold fixed_period_schedule. rewrite Hnil. reflexivity. }
  assert (Hinv : forall k, (k <= m)%nat ->
                   overpayment_events (state_at d k) = []
                   /\ cash_savings (state_at d k) = Data.initial_savings d).
  { induction k as [|k IH]; intro Hk; [split; reflexivity|].
    destruct (IH ltac:(lia)) as [He Hc].
    destruct (no_spare_month d (Z.of_nat k) (state_at d k) Hcfg') as [E S].
    - rewrite Hc. exact Hs.
    - apply Hav. apply in_map_iff. exists k. split; [reflexivity|].
      apply in_seq. lia.
    - cbn [state_at]. rewrite E, S. split; assumption. }
  destruct (Hinv m (le_n _)) as [Hem Hcm].
  rewrite Ee, Et, Eo, Es, Ef, tracking_state_at.
  cbn [overpayments savings_balances].
  split; [exact Hem|].
  split; [rewrite (total_state_at d m), Hem; reflexivity|].
  split; [|split; [|exact Hcm]].
  - apply Forall_forall. intros x Hx. apply in_map_iff in Hx.
    destruct Hx as (j & <- & Hj). apply in_seq in Hj.
    rewrite (proj1 (month_summary d j m ltac:(lia))). rewrite Hem.
    reflexivity.
  - apply Forall_forall. intros x Hx. apply in_map_iff in Hx.
    destruct Hx as (j & <- & Hj). apply in_seq in Hj.
    destruct (Hinv (S j) ltac:(lia)) as [_ Hc]. rewrite <- Hc.
    cbn [state_at]. unfold month_body, at_savings. rewrite savings_track.
    reflexivity.
Qed.

Lemma no_spare_cash_no_overpayment_witness :
  Data.initial_savings baseline_household
  <= Data.emergency_buffer baseline_household
  /\ Data.fixed_periods baseline_household = []
  /\ Forall (fun a => a <= 0)
       (Result.available_cashes (run_simulation baseline_household))
  /\ Result.overpayment_events (run_simulation baseline_household) = []
  /\ Result.final_savings (run_simulation baseline_household)
     = Data.initial_savings baseline_household.
Proof.
  assert (Hs : Data.initial_savings baseline_household
               <= Data.emergency_buffer baseline_household)
    by (vm_compute; discriminate).
  assert (Hfix : Data.fixed_periods baseline_household = []) by reflexivity.
  assert (Hav : Forall (fun a => a <= 0)
                  (Result.available_cashes (run_simulation baseline_household))).
  { destruct (run_simulation_returns baseline_household)
      as (m & _ & _ & _ & H).
    cbv zeta in H.
    destruct H as (_ & _ & _ & _ & _ & _ & _ & -> & _).
    rewrite tracking_state_at. cbn [available_cashes].
    apply Forall_forall. intros x Hx. apply in_map_iff in Hx.
    destruct Hx as (j & <- & _).
    apply (baseline_available baseline_household Hfix Hs).
    - reflexivity.
    - reflexivity.
    - vm_compute; discriminate. }
  split; [exact Hs|]. split; [exact Hfix|]. split; [exact Hav|].
  destruct (no_spare_cash_no_overpayment baseline_household Hs
              (or_introl Hfix) Hav) as (He & _ & _ & _ & Hf).
  split; [exact He | exact Hf].
Defined.

(** ** Runs started from the input form (lines 66-225) *)

Lemma inject_Z_le_0 (z : Z) : (0 <= z)%Z -> 0 <= inject_Z z.
Proof. intro H. change 0 with (inject_Z 0). rewrite <- Zle_Qle. exact H. Qed.

Lemma inject_Z_lt_0 (z : Z) : (0 < z)%Z -> 0 < inject_Z z.
Proof. intro H. change 0 with (inject_Z 0). rewrite <- Zlt_Qlt. exact H. Qed.

(** What the bounds of the widgets give the engine. *)
Lemma form_data_sound (f : Form.t) :
  Form.in_bounds f ->
  let d := Form.data f in
  0 < Data.initial_mortgage d
  /\ (0 < Data.total_years_to_simulate d)%Z
  /\ 0 <= Data.initial_savings d
  /\ 1000 <= Data.emergency_buffer d
  /\ 0 <= Data.savings_rate d
  /\ Data.savings_tax_rate d <= 1
  /\ 0 < Data.min_overpayment_threshold d.
Proof.
  intros (Hb & _ & _ & _ & _ & Hi & _ & _ & _ & Hs & Hr & Ht & He & Hm & Hy).
  cbv zeta. unfold Form.data.
  cbn [Data.initial_mortgage Data.total_years_to_simulate Data.initial_savings
       Data.emergency_buffer Data.savings_rate Data.savings_tax_rate
       Data.min_overpayment_threshold].
  split; [apply inject_Z_lt_0; lia|]. split; [lia|].
  split; [apply inject_Z_le_0; exact Hs|].
  split.
  { assert (H1 : 1000 <= inject_Z (Form.monthly_income f)).
    { change 1000 with (inject_Z 1000). rewrite <- Zle_Qle. exact Hi. }
    assert (H2 : 0 <= (inject_Z (Form.monthly_income f) - 1000)
                      * (Form.emergency_months f - 1))
      by (apply Qmult_le_0_compat; lra).
    lra. }
  split; [apply Qle_shift_div_l; [reflexivity | lra]|].
  split; [apply Qle_shift_div_r; [reflexivity | lra]|].
  apply inject_Z_lt_0. lia.
Qed.

(** X12. For every configuration the input form can produce: the run simulates
    at least one month; every overpayment event it returns has a strictly
    positive amount, which is at most the balance outstanding just before
    it and at most the spare cash [cash_savings - emergency_buffer] that
    the rule computes, and is made from savings above the emergency buffer,
    which it lowers by that amount; and every recorded savings balance is
    at least 0. *)
Theorem runs_from_the_form (f : Form.t) :
  Form.in_bounds f ->
  let r := run_simulation (Form.data f) in
  Result.mortgage_balances r <> []
  /\ (forall e, In e (Result.overpayment_events r) ->
        exists n s s',
          enters (Form.data f) n = true /\ logs (Form.data f) n e s s'
          /\ 0 < Event.amount e
          /\ Event.amount e <= mortgage_balance s
          /\ Data.emergency_buffer (Form.data f) < cash_savings s
          /\ Event.amount e
             <= cash_savings s - Data.emergency_buffer (Form.data f)
          /\ cash_savings s' = cash_savings s - Event.amount e)
  /\ Forall (fun x => 0 <= x) (Result.savings_balances r).
Proof.
  intro Hf. cbv zeta.
  destruct (form_data_sound f Hf) as (Hp & Hy & Hs & Hb & Hr & Ht & Hm).
  cbv zeta in *.
  split; [|split].
  - intro Hnil. apply no_records_iff in Hnil. destruct Hnil; [lra | lia].
  - intros e Hin. apply returned_events in Hin.
    destruct Hin as (n & s & s' & He & L).
    destruct (logs_facts _ n e s s' He L) as (_ & _ & H2 & _ & H4 & _).
    exists n, s, s'. split; [exact He|]. split; [exact L|].
    split; [exact (H4 Hm)|]. split; [exact H2|].
    exact (logs_spare _ n e s s' L (H4 Hm)).
  - destruct (run_simulation_outputs (Form.data f)) as (m & _ & _ & H).
    cbv zeta in H. destruct H as (_ & -> & _).
    rewrite savings_balances_state_at. apply Forall_forall.
    intros x Hx. apply in_map_iff in Hx. destruct Hx as (j & <- & _).
    unfold at_savings.
    apply savings_nonneg_month; try assumption; [lra|].
    apply savings_nonneg_state_at; try assumption. lra.
Qed.

Lemma form_defaults_in_bounds : Form.in_bounds Form.defaults.
Proof.
  unfold Form.in_bounds, Form.defaults.
  cbn [Form.current_balance Form.original_term Form.fixed_periods
       Form.svr_rate Form.monthly_income Form.monthly_expenses
       Form.income_growth Form.expense_growth Form.current_savings
       Form.savings_rate Form.savings_tax Form.emergency_months
       Form.min_threshold Form.simulation_years length].
  repeat split; try lia; try (vm_compute; discriminate).
  repeat constructor; cbn [fst snd]; try lia; vm_compute; discriminate.
Qed.

Lemma runs_from_the_form_witness :
  Form.in_bounds Form.defaults
  /\ Result.mortgage_balances (run_simulation (Form.data Form.defaults)) <> []
  /\ Forall (fun x => 0 <= x)
       (Result.savings_balances (run_simulation (Form.data Form.defaults))).
Proof.
  split; [exact form_defaults_in_bounds|].
  destruct (runs_from_the_form Form.defaults form_defaults_in_bounds)
    as (H1 & _ & H3).
  split; [exact H1 | exact H3].
Defined.

(** ** The pay-off metric (lines 455-465) *)

(** X13. The first metric shown for a run reads back the run: when it shows a
    time to pay-off, years times 12 plus months is the number of monthly
    records, the months lie between 0 and 11 and at least one month was
    simulated; when the principal handed to the engine is not positive the
    run is paid off at month 0 and the metric shows it as not paid off. *)
Theorem first_metric_reads_back (d : Data.t) :
  let r := run_simulation d in
  let n := Z.of_nat (length (Result.mortgage_balances r)) in
  match first_metric r d with
  | Mortgage_free_in y mo delta =>
      (12 * y + mo = n)%Z /\ (0 <= mo < 12)%Z /\ (0 < n)%Z
      /\ (delta = Data.mortgage_term_years d - y)%Z
      /\ Result.months_to_mortgage_free r = Some n
  | Not_paid_off ys =>
      ys = Data.total_years_to_simulate d
      /\ (Result.months_to_mortgage_free r = None
          \/ (Result.months_to_mortgage_free r = Some 0%Z
              /\ Data.initial_mortgage d <= 0
              /\ Result.mortgage_balances r = []))
  end.
Proof.
  cbv zeta. pose proof (payoff_month_facts d) as H. cbv zeta in H.
  unfold first_metric.
  destruct (Result.months_to_mortgage_free (run_simulation d)) as [m|];
    [|split; [reflexivity | left; reflexivity]].
  destruct H as (Hm & _ & Hlast).
  destruct (Z.eqb_spec m 0) as [E|E].
  - split; [reflexivity|]. right.
    destruct (Result.mortgage_balances (run_simulation d)) as [|b l] eqn:El;
      [|cbn [length] in Hm; lia].
    cbn [last] in Hlast. rewrite E.
    split; [reflexivity|]. split; [exact Hlast | reflexivity].
  - pose proof (Z.div_mod m 12 ltac:(lia)).
    pose proof (Z.mod_pos_bound m 12 ltac:(lia)).
    rewrite <- Hm. repeat split; lia.
Qed.

(** ** The annual allowance of a year (lines 316-321, 347 and 384-400) *)

(** X14. In every calendar year that a run enters, with [L] a tenth of the
    balance found at the top of the first month of the year: no annual
    overpayment of the year is above [L]; the annual overpayments of the
    year total at most one allowance [L], plus one more for each
    end-of-fixed-period sweep logged in the year, which lowers the flag
    again; so a year without such a sweep stays within [L]. *)
Theorem annual_allowance_by_year (d : Data.t) (k : nat) :
  enters d (12 * k) = true ->
  let L := 0.10 * year_start_balance d k in
  let log := Result.overpayment_events (run_simulation d) in
  Forall (fun e => Event.amount e <= L) (annual_in_year (Z.of_nat k) log)
  /\ sum_amounts (annual_in_year (Z.of_nat k) log)
     <= allowances (length (sweeps_in_year (Z.of_nat k) log)) L
  /\ (sweeps_in_year (Z.of_nat k) log = [] ->
      sum_amounts (annual_in_year (Z.of_nat k) log) <= L).
Proof.
  intros He L log.
  assert (HL : 0 <= L).
  { pose proof (enters_balance_pos d (12 * k) He) as Hb.
    unfold L, year_start_balance. lra. }
  assert (Hbound : allowance_bound (Z.of_nat k) L log).
  { destruct (run_simulation_returns d) as (m & Hrun & Hstop & _ & H).
    cbv zeta in H.
    destruct H as (_ & _ & _ & _ & _ & _ & _ & _ & _ & Hlog & _).
    unfold log. rewrite Hlog. clear Hlog log.
    assert (Hm : (12 * k < m)%nat)
      by (apply (enters_iff_before_stop d m (12 * k) Hrun Hstop); exact He).
    destruct (Nat.le_gt_cases m (12 * k + 12)) as [Hle|Hgt].
    - replace m with (12 * k + S (m - 12 * k - 1))%nat by lia.
      eapply inv_bound; [exact HL|].
      apply (allowance_during_year d k HL). lia.
    - replace m with ((12 * k + 12) + (m - (12 * k + 12)))%nat by lia.
      destruct (events_extend d (12 * k + 12) (m - (12 * k + 12)))
        as (l & -> & Hl).
      apply bound_other_years.
      + eapply Forall_impl; [|exact Hl]. cbv beta. intros e Hmonth.
        unfold in_year. apply Z.eqb_neq.
        assert ((Z.of_nat k + 1 <= Event.month e / 12)%Z); [|lia].
        apply Z.div_le_lower_bound; lia.
      + eapply inv_bound; [exact HL|].
        replace (12 * k + 12)%nat with (12 * k + S 11)%nat by lia.
        apply (allowance_during_year d k HL). lia. }
  destruct Hbound as [HF HS].
  split; [exact HF|]. split; [exact HS|].
  intro Hnil. rewrite Hnil in HS. cbn [length] in HS.
  rewrite allowances_0 in HS. exact HS.
Qed.

Lemma annual_allowance_by_year_witness :
  enters two_allowances (12 * 0) = true
  /\ sum_amounts
       (annual_in_year (Z.of_nat 0)
          (Result.overpayment_events (run_simulation two_allowances)))
     <= allowances
          (length
             (sweeps_in_year (Z.of_nat 0)
                (Result.overpayment_events (run_simulation two_allowances))))
          (0.10 * year_start_balance two_allowances 0).
Proof.
  assert (H : enters two_allowances (12 * 0) = true) by (vm_compute; reflexivity).
  split; [exact H|].
  exact (proj1 (proj2 (annual_allowance_by_year two_allowances 0 H))).
Defined.

(** ** The order of the event log (lines 342, 368 and 396) *)

Lemma StronglySorted_app {A : Type} (R : A -> A -> Prop) (l1 l2 : list A) :
  StronglySorted R l1 -> StronglySorted R l2 ->
  (forall a b, In a l1 -> In b l2 -> R a b) ->
  StronglySorted R (l1 ++ l2).
Proof.
  intros H1 H2 H. induction H1 as [|a l1 Hl1 IH Ha]; [exact H2|].
  cbn [app]. constructor.
  - apply IH. intros x y Hx Hy. apply H; [right; exact Hx | exact Hy].
  - apply Forall_app. split; [exact Ha|].
    apply Forall_forall. intros b Hb. apply H; [left; reflexivity | exact Hb].
Qed.

Lemma StronglySorted_same {A : Type} (R : A -> A -> Prop) (l : list A) :
  (forall a b, In a l -> In b l -> R a b) -> StronglySorted R l.
Proof.
  induction l as [|a l IH]; intro H; constructor.
  - apply IH. intros x y Hx Hy. apply H; right; assumption.
  - apply Forall_forall. intros b Hb.
    apply H; [left; reflexivity | right; exact Hb].
Qed.

Lemma events_sorted_state_at (d : Data.t) (n : nat) :
  StronglySorted (fun a b => (Event.month a <= Event.month b)%Z)
    (overpayment_events (state_at d n)).
Proof.
  induction n as [|n IH]; [constructor|].
  cbn [state_at].
  destruct (month_events d (Z.of_nat n) (state_at d n)) as (l & -> & Hl).
  pose proof (events_before d n) as Hbefore.
  rewrite Forall_forall in Hl, Hbefore.
  apply StronglySorted_app; [exact IH | |].
  - apply StronglySorted_same. intros a b Ha Hb.
    rewrite (Hl a Ha), (Hl b Hb). lia.
  - intros a b Ha Hb. rewrite (Hl b Hb). specialize (Hbefore a Ha). lia.
Qed.

Lemma events_months_not_negative (d : Data.t) (n : nat) :
  Forall (fun e => (0 <= Event.month e)%Z) (overpayment_events (state_at d n)).
Proof.
  destruct (events_extend d 0 n) as (l & H & Hl).
  rewrite Nat.add_0_l in H. rewrite H. cbn [state_at].
  change (overpayment_events (initial_state d)) with (@nil Event.t).
  exact Hl.
Qed.

(** X15. The returned log is in chronological order, and every event in it is
    dated in a month that was simulated, that is a month for which a record
    was appended to the tracking lists. *)
Theorem events_in_chronological_order (d : Data.t) :
  let r := run_simulation d in
  StronglySorted (fun a b => (Event.month a <= Event.month b)%Z)
    (Result.overpayment_events r)
  /\ Forall (fun e => (0 <= Event.month e
                       < Z.of_nat (length (Result.mortgage_balances r)))%Z)
       (Result.overpayment_events r).
Proof.
  cbv zeta.
  destruct (run_simulation_returns d) as (m & _ & _ & _ & H).
  cbv zeta in H.
  destruct H as (-> & _ & _ & _ & _ & _ & _ & _ & _ & -> & _).
  rewrite mortgage_balances_state_at, length_map, length_seq.
  split; [apply events_sorted_state_at|].
  pose proof (events_months_not_negative d m) as H0.
  pose proof (events_before d m) as H1.
  rewrite Forall_forall in *. intros e He.
  split; [exact (H0 e He) | exact (H1 e He)].
Qed.

(** ** The labels of the events (lines 332-346, 358-372 and 396-400) *)

(** The scan runs the sweep for the first period of the schedule that ends
    this month, with that period's position as index. *)
Lemma scan_periods_index (d : Data.t) (m : Z) (schedule : list period) :
  forall idx st,
    scan_periods d m idx schedule st = st
    \/ exists j s r,
         nth_error schedule j = Some (s, m, r)
         /\ (forall j' p, (j' < j)%nat -> nth_error schedule j' = Some p ->
               snd (fst p) <> m)
         /\ scan_periods d m idx schedule st
            = sweep_at_period_end d m (idx + Z.of_nat j) st.
Proof.
  induction schedule as [|[[s e] r] rest IH]; intros idx st; cbn [scan_periods].
  - left. reflexivity.
  - destruct (Z.eqb_spec m e) as [<-|Hne].
    + right. exists 0%nat, s, r. split; [reflexivity|].
      split; [intros j' p Hj'; lia|].
      rewrite Z.add_0_r. reflexivity.
    + destruct (IH (idx + 1)%Z st) as [->|(j & s' & r' & Hnth & Hfirst & ->)].
      * left. reflexivity.
      * right. exists (S j), s', r'. split; [exact Hnth|].
        split.
        -- intros [|j'] p Hj' Hp.
           ++ cbn [nth_error] in Hp. inversion Hp; subst p. cbn [fst snd].
              congruence.
           ++ cbn [nth_error] in Hp. apply (Hfirst j' p); [lia | exact Hp].
        -- f_equal. lia.
Qed.

(** An overpayment applied by rule 1 is labelled with the position, counted
    from 1, of the first period that ends this month. *)
Lemma rule1_label (d : Data.t) (m : Z) (st : state) (e : Event.t) :
  applied e (after_start d m st) (after_rule1 d m st) ->
  exists j s r,
    Event.type e = Event.End_of_fixed_period (Z.of_nat j + 1)
    /\ nth_error (fixed_period_schedule d) j = Some (s, m, r)
    /\ forall j' p, (j' < j)%nat ->
         nth_error (fixed_period_schedule d) j' = Some p -> snd (fst p) <> m.
Proof.
  unfold after_rule1, end_of_fixed_period_overpayment.
  generalize (after_start d m st). intros s0 A.
  destruct (scan_periods_index d m (fixed_period_schedule d) 0
              (set_end_of_fixed_period false s0))
    as [E|(j & s & r & Hnth & Hfirst & E)]; rewrite E in A.
  - exfalso. apply (applied_untouched _ _ _ A). repeat split.
  - exists j, s, r. split; [|split; [exact Hnth | exact Hfirst]].
    destruct (sweep_outcome d m (0 + Z.of_nat j)
                (set_end_of_fixed_period false s0))
      as [(_ & U & _)|(_ & O & _)].
    + exfalso. apply (applied_untouched _ _ _ A). exact U.
    + destruct (applied_overpays _ _ _ _ _ _ A O) as (_ & _ & Et).
      rewrite Et. reflexivity.
Qed.

(** In every month the year counter is the month divided by 12. *)
Lemma year_of_month (d : Data.t) (n : nat) :
  current_year (at_start d n) = (Z.of_nat n / 12)%Z.
Proof.
  unfold at_start. induction n as [|n IH].
  - rewrite start_year. reflexivity.
  - rewrite start_year. cbn [state_at].
    assert (Hy : current_year (month_body d (Z.of_nat n) (state_at d n))
                 = current_year (after_start d (Z.of_nat n) (state_at d n))).
    { unfold month_body, after_savings, after_rule3, after_payment, after_rule2,
        after_rule1.
      rewrite year_track, year_accrual, year_rule3, year_regular, year_rule2,
        year_rule1. reflexivity. }
    rewrite Hy, IH. rewrite Nat2Z.inj_succ. unfold Z.succ.
    rewrite (next_month_year (Z.of_nat n)) by lia.
    destruct ((Z.of_nat n + 1) mod 12 =? 0)%Z; reflexivity.
Qed.

(** X16. The label of every returned event tells the truth about it.  An event
    labelled "End of fixed period i" is dated at the end of the i-th period
    of the schedule, the first one that ends in that month.  An event
    labelled "Variable rate period" belongs to a run with fixed periods, is
    dated after the end of the last one, and no period ends in its month.
    An event labelled "Annual overpayment (Year y)" is dated in the y-th
    year of the simulation. *)
Theorem event_labels_are_truthful (d : Data.t) (e : Event.t) :
  In e (Result.overpayment_events (run_simulation d)) ->
  match Event.type e with
  | Event.End_of_fixed_period i =>
      exists j s r,
        i = (Z.of_nat j + 1)%Z
        /\ nth_error (fixed_period_schedule d) j = Some (s, Event.month e, r)
        /\ forall j' p, (j' < j)%nat ->
             nth_error (fixed_period_schedule d) j' = Some p ->
             snd (fst p) <> Event.month e
  | Event.Variable_rate_period =>
      fixed_period_schedule d <> []
      /\ (last_fixed_period_end (fixed_period_schedule d) < Event.month e)%Z
      /\ forall p, In p (fixed_period_schedule d) -> snd (fst p) <> Event.month e
  | Event.Annual_overpayment y => y = (Event.month e / 12 + 1)%Z
  end.
Proof.
  intro Hin. apply returned_events in Hin.
  destruct Hin as (n & s & s' & He & L).
  destruct (logs_facts d n e s s' He L) as (Em & _).
  pose proof (rule2_outcome d (Z.of_nat n) (at_rule1 d n)) as R2.
  pose proof (rule3_outcome d (Z.of_nat n) (at_payment d n)) as R3.
  cbv zeta in R2, R3.
  change (variable_rate_overpayment d (Z.of_nat n) (at_rule1 d n))
    with (at_rule2 d n) in R2.
  change (annual_overpayment d (Z.of_nat n) (at_payment d n))
    with (at_rule3 d n) in R3.
  inversion L as [A Ha Hb|A Ha Hb|A Ha Hb]; subst s s'.
  - (* rule 1 *)
    destruct (rule1_label d (Z.of_nat n) (state_at d n) e A)
      as (j & s & r & -> & Hnth & Hfirst).
    rewrite Em. exists j, s, r.
    split; [reflexivity|]. split; [exact Hnth | exact Hfirst].
  - (* rule 2 *)
    destruct R2 as [U|(Hflag & Hlast & _ & O)];
      [destruct (applied_untouched _ _ _ A U)|].
    destruct (applied_overpays _ _ _ _ _ _ A O) as (_ & _ & ->).
    rewrite Em. split; [|split; [exact Hlast|]].
    + intro Hnil.
      apply (applied_untouched _ _ _ A).
      unfold at_rule2, after_rule2, variable_rate_overpayment.
      rewrite Hnil. destruct (end_of_fixed_period _); repeat split.
    + destruct (rule1_cases d (Z.of_nat n) (state_at d n))
        as [[_ Hall]|(i & E & _)]; [exact Hall|].
      exfalso. unfold at_rule1 in Hflag. rewrite E in Hflag.
      rewrite sweep_end_flag in Hflag. discriminate.
  - (* rule 3 *)
    destruct R3 as [[U _]|(_ & _ & _ & _ & O & _)];
      [destruct (applied_untouched _ _ _ A U)|].
    destruct (applied_overpays _ _ _ _ _ _ A O) as (_ & _ & ->).
    rewrite Em. f_equal.
    rewrite <- (year_of_month d n).
    unfold at_payment, after_payment, after_rule2, after_rule1, at_start.
    rewrite year_regular, year_rule2, year_rule1. reflexivity.
Qed.

Lemma event_labels_are_truthful_witness :
  In (Event.mk 0 (0.10 * 1000) (Event.Annual_overpayment 1))
     (Result.overpayment_events (run_simulation swept_in_month_1))
  /\ 1%Z = (0 / 12 + 1)%Z.
Proof.
  assert (H : In (Event.mk 0 (0.10 * 1000) (Event.Annual_overpayment 1))
                 (Result.overpayment_events (run_simulation swept_in_month_1)))
    by (vm_compute; left; reflexivity).
  split; [exact H|].
  exact (event_labels_are_truthful swept_in_month_1 _ H).
Defined.

(** ** The savings column (lines 339, 365, 392 and 402-409) *)

(** What the overpayments of a month take out of the savings is what the
    month records as overpaid. *)
Lemma savings_month (d : Data.t) (m : Z) (st : state) :
  cash_savings (after_rule3 d m st)
  + (current_overpayment (after_savings d m st)
     + lump_sum (after_savings d m st))
  == cash_savings st.
Proof.
  unfold after_savings. rewrite current_accrual, lump_accrual.
  unfold after_rule3. rewrite lump_rule3.
  unfold after_payment. rewrite lump_regular.
  assert (H2 : cash_savings (after_rule2 d m st) + lump_sum (after_rule2 d m st)
               == cash_savings st).
  { unfold after_rule2.
    pose proof (savings_start d m st) as S0.
    pose proof (lump_start d m st) as L0.
    destruct (rule1_lump d m st) as [[(_ & U & _) L1]|(i & x & O & L1 & F & _)];
      cbv zeta in *.
    - destruct (rule2_lump d m (after_rule1 d m st))
        as [[(_ & U2 & _) L2]|(_ & (_ & O2 & _) & L2)]; cbv zeta in *.
      + rewrite U2, L2, U, L1, S0. ring.
      + rewrite O2, L2, U, S0. ring.
    - destruct O as (_ & O & _).
      destruct (rule2_lump d m (after_rule1 d m st))
        as [[(_ & U2 & _) L2]|(F2 & _)]; cbv zeta in *.
      + rewrite U2, L2, O, L1, S0. ring.
      + rewrite F in F2. discriminate. }
  rewrite <- H2. clear H2.
  generalize (after_rule2 d m st). intro s2.
  destruct (rule3_current d m (regular_payment d m s2))
    as [[(_ & U & _) C]|(_ & _ & (_ & O & _) & C)]; cbv zeta in *.
  - rewrite U, C, savings_regular. ring.
  - rewrite O, C, savings_regular. ring.
Qed.

(** X17. The savings column is determined by the other columns.  With [p] the
    savings found at the top of the month (the initial savings, or the
    savings recorded for the month before) less the overpayment recorded
    for the month: the savings recorded for the month are [p] when the
    recorded available cash is not positive, and otherwise [p] plus the
    available cash plus one month of net interest on [p]. *)
Theorem savings_recurrence (d : Data.t) (n : nat) (s o a : Q) :
  nth_error (Result.savings_balances (run_simulation d)) n = Some s ->
  nth_error (Result.overpayments (run_simulation d)) n = Some o ->
  nth_error (Result.available_cashes (run_simulation d)) n = Some a ->
  let p := savings_before d (Result.savings_balances (run_simulation d)) n - o in
  s == if Qltb 0 a
       then p + (p * monthly_savings_rate d * (1 - Data.savings_tax_rate d) + a)
       else p.
Proof.
  destruct (run_simulation_returns d) as (m & _ & _ & _ & H).
  cbv zeta in H.
  destruct H as (_ & -> & _ & _ & _ & _ & -> & -> & _).
  rewrite tracking_state_at.
  cbn [savings_balances overpayments available_cashes].
  rewrite !nth_error_map_seq.
  destruct (Nat.ltb_spec n m) as [Hn|Hn]; [|discriminate].
  intros Hs Ho Ha. inversion Hs; inversion Ho; inversion Ha.
  subst s o a. clear Hs Ho Ha. cbv zeta.
  assert (Hprev : savings_before d
                    (map (fun j => cash_savings (at_savings d j)) (seq 0 m)) n
                  = cash_savings (state_at d n)).
  { destruct n as [|k]; [reflexivity|].
    cbn [savings_before].
    rewrite (nth_error_nth _ k 0 (x := cash_savings (at_savings d k))).
    - cbn [state_at]. unfold month_body, at_savings.
      rewrite savings_track. reflexivity.
    - rewrite nth_error_map_seq.
      replace (k <? m)%nat with true by (symmetry; apply Nat.ltb_lt; lia).
      reflexivity. }
  rewrite Hprev. clear Hprev.
  pose proof (savings_month d (Z.of_nat n) (state_at d n)) as Hm.
  unfold at_savings.
  assert (Ha : available_cash (after_savings d (Z.of_nat n) (state_at d n))
               = available_cash (after_rule3 d (Z.of_nat n) (state_at d n)))
    by (unfold after_savings; apply available_accrual).
  assert (Hs : cash_savings (after_savings d (Z.of_nat n) (state_at d n))
               = if Qltb 0 (available_cash
                              (after_rule3 d (Z.of_nat n) (state_at d n)))
                 then cash_savings (after_rule3 d (Z.of_nat n) (state_at d n))
                      + (cash_savings (after_rule3 d (Z.of_nat n) (state_at d n))
                         * monthly_savings_rate d
                         * (1 - Data.savings_tax_rate d)
                         + available_cash
                             (after_rule3 d (Z.of_nat n) (state_at d n)))
                 else cash_savings (after_rule3 d (Z.of_nat n) (state_at d n)))
    by (unfold after_savings; apply accrual_savings).
  rewrite Hs, Ha. clear Hs Ha.
  set (x := current_overpayment (after_savings d (Z.of_nat n) (state_at d n))
            + lump_sum (after_savings d (Z.of_nat n) (state_at d n))) in *.
  clearbody x.
  generalize dependent (after_rule3 d (Z.of_nat n) (state_at d n)).
  intros s3 Hm.
  assert (E : cash_savings s3 == cash_savings (state_at d n) - x) by lra.
  destruct (Qltb 0 (available_cash s3)); rewrite E; reflexivity.
Qed.

Lemma savings_recurrence_witness :
  exists s o a,
    nth_error (Result.savings_balances (run_simulation swept_in_month_1)) 0
    = Some s
    /\ nth_error (Result.overpayments (run_simulation swept_in_month_1)) 0
       = Some o
    /\ nth_error (Result.available_cashes (run_simulation swept_in_month_1)) 0
       = Some a
    /\ s == if Qltb 0 a
            then (Data.initial_savings swept_in_month_1 - o)
                 + ((Data.initial_savings swept_in_month_1 - o)
                    * monthly_savings_rate swept_in_month_1
                    * (1 - Data.savings_tax_rate swept_in_month_1) + a)
            else Data.initial_savings swept_in_month_1 - o.
Proof.
  eexists _, _, _.
  assert (Hs : nth_error (Result.savings_balances
                            (run_simulation swept_in_month_1)) 0
               = Some (cash_savings (at_savings swept_in_month_1 0)))
    by (vm_compute; reflexivity).
  assert (Ho : nth_error (Result.overpayments
                            (run_simulation swept_in_month_1)) 0
               = Some (current_overpayment (at_savings swept_in_month_1 0)
                       + lump_sum (at_savings swept_in_month_1 0)))
    by (vm_compute; reflexivity).
  assert (Ha : nth_error (Result.available_cashes
                            (run_simulation swept_in_month_1)) 0
               = Some (available_cash (at_savings swept_in_month_1 0)))
    by (vm_compute; reflexivity).
  split; [exact Hs|]. split; [exact Ho|]. split; [exact Ha|].
  exact (savings_recurrence swept_in_month_1 0 _ _ _ Hs Ho Ha).
Defined.

(** ** The allowance of a year without a sweep (lines 316-321 and 384-400) *)

(** Once a year has been entered, the returned log satisfies the bound of
    that year. *)
Lemma allowance_bound_returned (d : Data.t) (k : nat) :
  enters d (12 * k) = true ->
  allowance_bound (Z.of_nat k) (0.10 * year_start_balance d k)
    (Result.overpayment_events (run_simulation d)).
Proof.
  intro He.
  assert (HL : 0 <= 0.10 * year_start_balance d k).
  { pose proof (enters_balance_pos d (12 * k) He) as Hb.
    unfold year_start_balance. lra. }
  destruct (run_simulation_returns d) as (m & Hrun & Hstop & _ & H).
  cbv zeta in H.
  destruct H as (_ & _ & _ & _ & _ & _ & _ & _ & _ & -> & _).
  assert (Hm : (12 * k < m)%nat)
    by (apply (enters_iff_before_stop d m (12 * k) Hrun Hstop); exact He).
  destruct (Nat.le_gt_cases m (12 * k + 12)) as [Hle|Hgt].
  - replace m with (12 * k + S (m - 12 * k - 1))%nat by lia.
    eapply inv_bound; [exact HL|].
    apply (allowance_during_year d k HL). lia.
  - replace m with ((12 * k + 12) + (m - (12 * k + 12)))%nat by lia.
    destruct (events_extend d (12 * k + 12) (m - (12 * k + 12)))
      as (l & -> & Hl).
    apply bound_other_years.
    + eapply Forall_impl; [|exact Hl]. cbv beta. intros e Hmonth.
      unfold in_year. apply Z.eqb_neq.
      assert ((Z.of_nat k + 1 <= Event.month e / 12)%Z); [|lia].
      apply Z.div_le_lower_bound; lia.
    + eapply inv_bound; [exact HL|].
      replace (12 * k + 12)%nat with (12 * k + S 11)%nat by lia.
      apply (allowance_during_year d k HL). lia.
Qed.

(** Without fixed periods no end-of-fixed-period overpayment is logged. *)
Lemma no_sweep_without_schedule (d : Data.t) :
  Data.fixed_periods d = [] ->
  Forall (fun e => Event.is_end_of_fixed e = false)
    (Result.overpayment_events (run_simulation d)).
Proof.
  intro Hnil. apply Forall_forall. intros e Hin.
  apply returned_events in Hin. destruct Hin as (n & s & s' & _ & L).
  pose proof (rule2_outcome d (Z.of_nat n) (at_rule1 d n)) as R2.
  pose proof (rule3_outcome d (Z.of_nat n) (at_payment d n)) as R3.
  cbv zeta in R2, R3.
  change (variable_rate_overpayment d (Z.of_nat n) (at_rule1 d n))
    with (at_rule2 d n) in R2.
  change (annual_overpayment d (Z.of_nat n) (at_payment d n))
    with (at_rule3 d n) in R3.
  inversion L as [A Ha Hb|A Ha Hb|A Ha Hb]; subst s s'.
  - destruct (rule1_label d (Z.of_nat n) (state_at d n) e A)
      as (j & s & r & _ & Hnth & _).
    unfold fixed_period_schedule in Hnth. rewrite Hnil in Hnth.
    cbn [schedule_from] in Hnth. destruct j; discriminate.
  - destruct R2 as [U|(_ & _ & _ & O)];
      [destruct (applied_untouched _ _ _ A U)|].
    destruct (applied_overpays _ _ _ _ _ _ A O) as (_ & _ & Et).
    unfold Event.is_end_of_fixed. rewrite Et. reflexivity.
  - destruct R3 as [[U _]|(_ & _ & _ & _ & O & _)];
      [destruct (applied_untouched _ _ _ A U)|].
    destruct (applied_overpays _ _ _ _ _ _ A O) as (_ & _ & Et).
    unfold Event.is_end_of_fixed. rewrite Et. reflexivity.
Qed.

(** C2, as the engine behaves.  In a calendar year that the run enters and
    in which no end-of-fixed-period overpayment is logged, the annual
    overpayments logged in the year total at most 10% of the balance found
    at the top of the first month of the year; and whether or not such an
    overpayment is logged, no single annual overpayment of the year exceeds
    that 10%. *)
Theorem annual_allowance_without_sweep (d : Data.t) (k : nat) :
  enters d (12 * k) = true ->
  let L := 0.10 * year_start_balance d k in
  let log := Result.overpayment_events (run_simulation d) in
  Forall (fun e => Event.amount e <= L) (annual_in_year (Z.of_nat k) log)
  /\ (sweeps_in_year (Z.of_nat k) log = [] ->
      sum_amounts (annual_in_year (Z.of_nat k) log) <= L).
Proof.
  intros He L log.
  destruct (allowance_bound_returned d k He) as [HF HS].
  split; [exact HF|].
  intro Hnil. fold log in HS. rewrite Hnil in HS. cbn [length] in HS.
  rewrite allowances_0 in HS. exact HS.
Qed.

Lemma annual_allowance_without_sweep_witness :
  enters saver_without_fixed_period (12 * 0) = true
  /\ sweeps_in_year (Z.of_nat 0)
       (Result.overpayment_events (run_simulation saver_without_fixed_period))
     = []
  /\ sum_amounts
       (annual_in_year (Z.of_nat 0)
          (Result.overpayment_events
             (run_simulation saver_without_fixed_period)))
     <= 0.10 * year_start_balance saver_without_fixed_period 0.
Proof.
  assert (He : enters saver_without_fixed_period (12 * 0) = true)
    by (vm_compute; reflexivity).
  assert (Hs : sweeps_in_year (Z.of_nat 0)
                 (Result.overpayment_events
                    (run_simulation saver_without_fixed_period)) = []).
  { unfold sweeps_in_year. apply filter_none.
    eapply Forall_impl;
      [|exact (no_sweep_without_schedule saver_without_fixed_period eq_refl)].
    cbv beta. intros e ->. reflexivity. }
  split; [exact He|]. split; [exact Hs|].
  exact (proj2 (annual_allowance_without_sweep saver_without_fixed_period 0 He)
           Hs).
Defined.

(** C2, as stated, fails.  In the run of [two_allowances] rule 3 pays the
    whole allowance of 120 in month 0; the sweep at the end of the first
    fixed period, in month 1, lowers the flag again, and rule 3 pays once
    more in month 2: the annual overpayments of year 0 total more than 10%
    of the balance of 1200 found at the top of month 0. *)
Lemma allowance_exceeded_after_sweep :
  enters two_allowances (12 * 0) = true
  /\ 0.10 * year_start_balance two_allowances 0
     < sum_amounts
         (annual_in_year (Z.of_nat 0)
            (Result.overpayment_events (run_simulation two_allowances)))
  /\ length
       (sweeps_in_year (Z.of_nat 0)
          (Result.overpayment_events (run_simulation two_allowances)))
     = 1%nat.
Proof.
  split; [vm_compute; reflexivity|].
  split; vm_compute; reflexivity.
Qed.
